(** * CensusAPIBaker: the ACS quick-pull pipeline of [app.py]

    A shallow embedding of the geography resolver, the metadata cache, the
    variable selector, the data fetcher and the result assembler, followed
    by the properties of the specification that concern them.

    Python strings are modelled as byte strings, insertion-ordered [dict]s
    as association lists built with [dict_set], the two module-level caches
    and the [URL_HITS] list as fields of an explicit program state, and
    exceptions as the [Raise] alternative of [result].  The HTTP transport,
    the remote API, the pandas constructor and the regular-expression
    engine are collaborators outside the repository: they are gathered in
    the record [Collaborators], by which the definitions that reach them
    are parametrised. *)

From Stdlib Require Import String Ascii List Bool Arith ZArith Lia DecimalString.
From stdpp Require Import base option list gmap strings.
Import ListNotations.
Open Scope string_scope.
Open Scope list_scope.

#[local] Arguments String.append _ _ : simpl nomatch.

(** ** Exceptions and results *)

Inductive exn : Type :=
| KeyError (key : string)
| TypeError
| AttributeError
| ValueError
| IndexError
| HTTPError (status : nat)
| JSONDecodeError
| RequestException
| StopException.

Inductive result (A : Type) : Type :=
| Ok (a : A)
| Raise (e : exn).
Arguments Ok {A} a.
Arguments Raise {A} e.

Definition rbind {A B} (r : result A) (k : A -> result B) : result B :=
  match r with
  | Ok a => k a
  | Raise e => Raise e
  end.

Notation "'try' x <- e 'in' k" := (rbind e (fun x => k))
  (at level 10, x name, e at level 100, k at level 200).

(** ** Strings *)

(** [needle in hay] on two [str] operands. *)
Fixpoint str_in (needle hay : string) : bool :=
  match hay with
  | EmptyString => String.prefix needle EmptyString
  | String _ rest => String.prefix needle hay || str_in needle rest
  end.

(** [s.endswith(suffix)]. *)
Definition endswith (s suffix : string) : bool :=
  let n := String.length s in
  let m := String.length suffix in
  Nat.leb m n && String.eqb (String.substring (n - m) m s) suffix.

(** [s.replace(c, "")] for a one-character [c]. *)
Fixpoint str_remove (c : ascii) (s : string) : string :=
  match s with
  | EmptyString => EmptyString
  | String a rest =>
      if Ascii.eqb a c then str_remove c rest else String a (str_remove c rest)
  end.

(** [sep.join(parts)]. *)
Definition str_join (sep : string) (parts : list string) : string :=
  String.concat sep parts.

(** [str.isspace] on the ASCII range: tab, line feed, vertical tab, form
    feed, carriage return, the four separators 28..31 and the space. *)
Definition py_isspace (c : ascii) : bool :=
  let n := nat_of_ascii c in
  (Nat.leb 9 n && Nat.leb n 13) || (Nat.leb 28 n && Nat.leb n 32).

(** The characters for which [str.isspace] holds, each as the bytes of
    its UTF-8 encoding: the ten ASCII ones, U+0085, U+00A0, U+1680,
    U+2000 to U+200A, U+2028, U+2029, U+202F, U+205F and U+3000. *)
Definition py_whitespace : list (list ascii) :=
  map (map ascii_of_nat)
      ([[9]; [10]; [11]; [12]; [13]; [28]; [29]; [30]; [31]; [32];
        [194; 133]; [194; 160]; [225; 154; 128]]
       ++ map (fun b => [226; 128; b]) (seq 128 11)
       ++ [[226; 128; 168]; [226; 128; 169]; [226; 128; 175];
           [226; 129; 159]; [227; 128; 128]]).

(** What follows [w] in [l], when [l] starts with [w]. *)
Fixpoint strip_prefix (w l : list ascii) : option (list ascii) :=
  match w, l with
  | [], _ => Some l
  | a :: w', b :: l' => if Ascii.eqb a b then strip_prefix w' l' else None
  | _ :: _, [] => None
  end.

(** What follows the first character of [l], when it is one of [chars]. *)
Definition skip_char (chars : list (list ascii)) (l : list ascii)
  : option (list ascii) :=
  fold_right (fun w found => match strip_prefix w l with
                             | Some rest => Some rest
                             | None => found
                             end) None chars.

(** The characters of [chars] removed from the front of [l]; [fuel]
    bounds the number of characters removed. *)
Fixpoint skip_chars (chars : list (list ascii)) (fuel : nat) (l : list ascii)
  : list ascii :=
  match fuel with
  | 0 => l
  | S n => match skip_char chars l with
           | Some rest => skip_chars chars n rest
           | None => l
           end
  end.

Definition lstrip (s : string) : string :=
  string_of_list_ascii
    (skip_chars py_whitespace (String.length s) (list_ascii_of_string s)).

(** From the end, the encodings are met last byte first. *)
Definition rstrip (s : string) : string :=
  string_of_list_ascii
    (rev (skip_chars (map (@rev ascii) py_whitespace) (String.length s)
            (rev (list_ascii_of_string s)))).

(** [s.strip()]: leading and trailing whitespace removed. *)
Definition strip (s : string) : string := rstrip (lstrip s).

(** [s.split("(")[0]]: the part of [s] before its first opening bracket. *)
Fixpoint before_paren (s : string) : string :=
  match s with
  | EmptyString => EmptyString
  | String a rest =>
      if Ascii.eqb a "("%char then EmptyString else String a (before_paren rest)
  end.

(** A string made of whitespace only (the empty string included). *)
Fixpoint all_whitespace (s : string) : bool :=
  match s with
  | EmptyString => true
  | String a rest => py_isspace a && all_whitespace rest
  end.

(** A string made of space characters only (the empty string included). *)
Fixpoint all_spaces (s : string) : bool :=
  match s with
  | EmptyString => true
  | String a rest => Ascii.eqb a " "%char && all_spaces rest
  end.

(** ** Parsed JSON, as [json.loads] and [Response.json] deliver it *)

#[warnings="-register-all"]
Inductive json : Type :=
| JNull
| JBool (b : bool)
| JNum (n : Z)
| JStr (s : string)
| JArr (items : list json)
| JObj (members : list (string * json)).

(** ** Insertion-ordered dictionaries with string keys *)

Definition dict (V : Type) : Type := list (string * V).

Fixpoint dict_get {V} (d : dict V) (k : string) : option V :=
  match d with
  | [] => None
  | (k', v) :: rest => if String.eqb k' k then Some v else dict_get rest k
  end.

(** [d[k] = v]: an existing key keeps its position, a new one goes last. *)
Fixpoint dict_set {V} (k : string) (v : V) (d : dict V) : dict V :=
  match d with
  | [] => [(k, v)]
  | (k', v') :: rest =>
      if String.eqb k' k then (k', v) :: rest else (k', v') :: dict_set k v rest
  end.

Definition dict_keys {V} (d : dict V) : list string := map fst d.

Definition dict_has {V} (d : dict V) (k : string) : bool :=
  match dict_get d k with
  | Some _ => true
  | None => false
  end.

(** ** The Python operations applied to parsed JSON *)

(** [o[k]] with a [str] subscript. *)
Definition py_getitem (o : json) (k : string) : result json :=
  match o with
  | JObj ms =>
      match dict_get ms k with
      | Some v => Ok v
      | None => Raise (KeyError k)
      end
  | _ => Raise TypeError
  end.

(** [o.items()]. *)
Definition py_items (o : json) : result (dict json) :=
  match o with
  | JObj ms => Ok ms
  | _ => Raise AttributeError
  end.

(** [needle in o] with a [str] needle: substring test on a string,
    membership on a list, key membership on a dict, [TypeError] on the
    values that are not containers. *)
Definition py_in (needle : string) (o : json) : result bool :=
  match o with
  | JStr s => Ok (str_in needle s)
  | JArr xs =>
      Ok (existsb (fun x => match x with
                            | JStr s => String.eqb s needle
                            | _ => false
                            end) xs)
  | JObj ms => Ok (existsb (fun kv => String.eqb (fst kv) needle) ms)
  | _ => Raise TypeError
  end.

(** ** Tables *)

(** A cell holds a parsed value, or nothing where pandas fills in NaN. *)
Definition cell : Type := option json.

(** A [DataFrame] over a default [RangeIndex]: the number of rows and the
    columns in order, each a label with its values. *)
Record DataFrame : Type := {
  nrows : nat;
  df_cols : list (string * list cell)
}.

Definition column_names (df : DataFrame) : list string := map fst (df_cols df).

(** [Index.duplicated()] (keep="first"): a label is marked when it has
    already been seen further left. *)
Fixpoint duplicated (seen : list string) (names : list string) : list bool :=
  match names with
  | [] => []
  | n :: rest => existsb (String.eqb n) seen :: duplicated (n :: seen) rest
  end.

(** [df.loc[:, mask]] with a boolean mask over the columns. *)
Fixpoint loc_columns {A} (mask : list bool) (cols : list A) : list A :=
  match mask, cols with
  | b :: mask', c :: cols' =>
      if b then c :: loc_columns mask' cols' else loc_columns mask' cols'
  | _, _ => []
  end.

(** [df.loc[:, ~df.columns.duplicated()]]. *)
Definition drop_duplicate_columns (df : DataFrame) : DataFrame :=
  {| nrows := nrows df;
     df_cols := loc_columns (map negb (duplicated [] (column_names df)))
                            (df_cols df) |}.

(** Row alignment of a column on an index of [n] rows. *)
Definition reindex (n : nat) (vals : list cell) : list cell :=
  vals ++ repeat None (n - length vals).

(** All the columns of all the frames, in order, aligned on [n] rows. *)
Definition side_by_side (n : nat) (frames : list DataFrame)
  : list (string * list cell) :=
  flat_map (fun f => map (fun c => (fst c, reindex n (snd c))) (df_cols f)) frames.

(** [pd.concat(frames, axis=1)]: refuses an empty sequence; otherwise the
    columns of all frames side by side over the union of the row indexes. *)
Definition pd_concat (frames : list DataFrame) : result DataFrame :=
  match frames with
  | [] => Raise ValueError
  | _ :: _ =>
      let n := list_max (map nrows frames) in
      Ok {| nrows := n; df_cols := side_by_side n frames |}
  end.

(** [df.rename(columns=mapping)]. *)
Definition df_rename (mapping : dict string) (df : DataFrame) : DataFrame :=
  {| nrows := nrows df;
     df_cols := map (fun c => (match dict_get mapping (fst c) with
                               | Some new => new
                               | None => fst c
                               end, snd c)) (df_cols df) |}.

(** The first column carrying a given label. *)
Definition column (name : string) (cols : list (string * list cell))
  : option (list cell) :=
  snd <$> List.find (fun c => String.eqb (fst c) name) cols.

(** ** Settings (lines 11-36) *)

Definition API_KEY : string := "f6ba77c8a37e5c068c2d7a0020f3b56899318771".
Definition YEAR : nat := 2023.
Definition STATE : string := "53".
Definition PIERCE : string := "053".

Definition BASE_VARS : dict (string * string) :=
  [ ("HS diploma 25+ (%)",             ("DP02_0062PE", "profile"));
    ("Disability (%)",                 ("S1810_C02_001E", "subject"));
    ("Speak English < very well (%)",  ("DP02_0110PE", "profile"));
    ("Poverty <100% FPL (%)",          ("S1701_C03_001E", "subject"));
    ("Median household income ($)",    ("S1901_C01_012E", "subject"));
    ("Housing cost ≥30% income (%)",   ("DP04_0138PE", "profile"));
    ("Unemployment rate 16+ (%)",      ("S2301_C04_001E", "subject"));
    ("Households with no vehicle (%)", ("DP04_0058PE", "profile"));
    ("Insurance coverage (%)",         ("S2701_C03_001E", "subject")) ].

(** indicator : (group_id, numerator-label fragment, universe keyword) *)
Definition DETAILED : dict (string * string * string) :=
  [ ("Disability (%)",            ("S1810", "With a disability", "civilian"));
    ("Poverty <100% FPL (%)",     ("S1701", "Below poverty level", "population"));
    ("Unemployment rate 16+ (%)", ("S2301", "Unemployment rate", "population"));
    ("Insurance coverage (%)",    ("S2701", "No health insurance coverage", "civilian")) ].

(** The text an f-string inserts for a non-negative integer. *)
Definition str_of_nat (n : nat) : string :=
  NilZero.string_of_uint (Nat.to_uint n).

Definition api_root : string :=
  "https://api.census.gov/data/" +:+ str_of_nat YEAR +:+ "/acs/acs5/".

(** ** Program state and collaborators *)

(** Who issued an HTTP request; kept for the proofs only. *)
Inductive origin : Type := from_fetch | from_get_labels.

(** One call of [requests.get]: the URL and the [timeout] argument
    ([None] when the call passes none). *)
Record request : Type := {
  req_url : string;
  req_timeout : option nat;
  req_origin : origin
}.

(** What [requests.get] comes back with: an exception of the transport,
    or a response with its status code and its body ([None] when the body
    is not JSON). *)
Inductive response : Type :=
| ConnectionFailed
| Response (status_code : nat) (body : option json).

(** An invocation of one of the two data-pull entry points; kept for the
    proofs only. *)
Inductive call : Type :=
| CallDetailed (indicator geo : string) (want_age want_sex want_race : bool)
| CallSimple (code dataset geo : string).

(** The parts of the system that live outside the repository.
    - [remote n url]: the reply to a GET of [url] when [n] requests have
      been issued before it;
    - [pd_DataFrame j]: line 55, [pd.DataFrame(j[1:], columns=j[0])];
    - [re_sub_markers lab]: line 98,
      [re.sub(r"Estimate!!|\w+!!", "", lab)]. *)
Record Collaborators : Type := {
  remote : nat -> string -> response;
  pd_DataFrame : json -> result DataFrame;
  re_sub_markers : string -> string
}.

Record state : Type := {
  URL_HITS : list string;
  (** cache of [fetch], most recently used first *)
  fetch_cache : list (string * DataFrame);
  (** cache of [get_labels] *)
  labels_cache : gmap string (dict json);
  (** every HTTP request issued so far, oldest first *)
  http_log : list request;
  (** every entry-point invocation so far, oldest first *)
  call_log : list call;
  (** the messages shown with [st.error], oldest first *)
  ui_errors : list string
}.

Definition initial_state : state :=
  {| URL_HITS := []; fetch_cache := []; labels_cache := ∅;
     http_log := []; call_log := []; ui_errors := [] |}.

Definition set_URL_HITS (l : list string) (s : state) : state :=
  {| URL_HITS := l; fetch_cache := fetch_cache s;
     labels_cache := labels_cache s; http_log := http_log s;
     call_log := call_log s; ui_errors := ui_errors s |}.

Definition set_fetch_cache (c : list (string * DataFrame)) (s : state) : state :=
  {| URL_HITS := URL_HITS s; fetch_cache := c;
     labels_cache := labels_cache s; http_log := http_log s;
     call_log := call_log s; ui_errors := ui_errors s |}.

Definition set_labels_cache (c : gmap string (dict json)) (s : state) : state :=
  {| URL_HITS := URL_HITS s; fetch_cache := fetch_cache s;
     labels_cache := c; http_log := http_log s;
     call_log := call_log s; ui_errors := ui_errors s |}.

Definition set_http_log (l : list request) (s : state) : state :=
  {| URL_HITS := URL_HITS s; fetch_cache := fetch_cache s;
     labels_cache := labels_cache s; http_log := l;
     call_log := call_log s; ui_errors := ui_errors s |}.

Definition set_call_log (l : list call) (s : state) : state :=
  {| URL_HITS := URL_HITS s; fetch_cache := fetch_cache s;
     labels_cache := labels_cache s; http_log := http_log s;
     call_log := l; ui_errors := ui_errors s |}.

Definition set_ui_errors (l : list string) (s : state) : state :=
  {| URL_HITS := URL_HITS s; fetch_cache := fetch_cache s;
     labels_cache := labels_cache s; http_log := http_log s;
     call_log := call_log s; ui_errors := l |}.

(** Computations that read and write the state and may raise; what was
    written before an exception stays written. *)
Definition M (A : Type) : Type := state -> result A * state.

Definition ret {A} (a : A) : M A := fun s => (Ok a, s).

Definition raise {A} (e : exn) : M A := fun s => (Raise e, s).

Definition bind {A B} (m : M A) (k : A -> M B) : M B :=
  fun s =>
    match m s with
    | (Ok a, s') => k a s'
    | (Raise e, s') => (Raise e, s')
    end.

Definition lift {A} (r : result A) : M A := fun s => (r, s).

Definition modify (f : state -> state) : M unit := fun s => (Ok tt, f s).

Notation "'do' x <- e 'in' k" := (bind e (fun x => k))
  (at level 10, x name, e at level 100, k at level 200).
Notation "'run_' e 'in' k" := (bind e (fun _ => k))
  (at level 10, e at level 100, k at level 200).

(** ** Geography resolver (lines 41-47) *)

(** [zcta_list] is the entry of [st.session_state] under the key
    "zcta_list", [None] when the key is absent. *)
Definition geo_clause (zcta_list : option string) (level : string)
  : option string :=
  if String.eqb level "County (Pierce)" then
    Some ("for=county:" +:+ PIERCE +:+ "&in=state:" +:+ STATE)
  else if String.eqb level "Tract (Pierce)" then
    Some ("for=tract:*&in=state:" +:+ STATE +:+ "%20county:" +:+ PIERCE)
  else
    let zips := str_remove " "%char (default "" zcta_list) in
    match zips with
    | EmptyString => None
    | String _ _ => Some ("for=zip%20code%20tabulation%20area:" +:+ zips)
    end.

(** ** The two memoizing decorators *)

Definition lru_maxsize : nat := 256.

(** A hit of [lru_cache] makes the entry the most recently used one. *)
Definition lru_touch {V} (k : string) (v : V) (cache : list (string * V))
  : list (string * V) :=
  (k, v) :: List.filter (fun e => negb (String.eqb (fst e) k)) cache.

(** A miss stores the new entry and, beyond [maxsize], drops the least
    recently used one. *)
Definition lru_put {V} (k : string) (v : V) (cache : list (string * V))
  : list (string * V) :=
  firstn lru_maxsize ((k, v) :: cache).

Section Pipeline.

Variable W : Collaborators.

(** [requests.get(url)] or [requests.get(url, timeout=t)]. *)
Definition requests_get (who : origin) (url : string) (timeout : option nat)
  : M (nat * option json) :=
  fun s =>
    let req := {| req_url := url; req_timeout := timeout; req_origin := who |} in
    let s' := set_http_log (http_log s ++ [req]) s in
    match remote W (length (http_log s)) url with
    | ConnectionFailed => (Raise RequestException, s')
    | Response status body => (Ok (status, body), s')
    end.

(** [r.raise_for_status()]: client and server error codes raise. *)
Definition raise_for_status (status : nat) : result unit :=
  if Nat.leb 400 status && Nat.ltb status 600 then Raise (HTTPError status)
  else Ok tt.

(** [r.json()]. *)
Definition response_json (body : option json) : result json :=
  match body with
  | Some j => Ok j
  | None => Raise JSONDecodeError
  end.

(** ** Data fetcher, cached by URL (lines 50-56) *)

Definition fetch_body (url : string) : M DataFrame :=
  do r <- requests_get from_fetch url (Some 20) in
  run_ lift (raise_for_status (fst r)) in
  do j <- lift (response_json (snd r)) in
  do df <- lift (pd_DataFrame W j) in
  ret (drop_duplicate_columns df).

Definition fetch (url : string) : M DataFrame :=
  fun s =>
    match dict_get (fetch_cache s) url with
    | Some df => (Ok df, set_fetch_cache (lru_touch url df (fetch_cache s)) s)
    | None =>
        match fetch_body url s with
        | (Ok df, s') => (Ok df, set_fetch_cache (lru_put url df (fetch_cache s')) s')
        | (Raise e, s') => (Raise e, s')
        end
    end.

(** ** Metadata cache (lines 59-63) *)

Definition meta_url (group_id : string) : string :=
  api_root +:+ "subject/groups/" +:+ group_id +:+ ".json".

(** [{k: v["label"] for k, v in variables.items()}]. *)
Fixpoint label_comprehension (items : dict json) (acc : dict json)
  : result (dict json) :=
  match items with
  | [] => Ok acc
  | (k, v) :: rest =>
      try lab <- py_getitem v "label" in
      label_comprehension rest (dict_set k lab acc)
  end.

Definition get_labels_body (group_id : string) : M (dict json) :=
  do r <- requests_get from_get_labels (meta_url group_id) None in
  do j <- lift (response_json (snd r)) in
  do variables <- lift (py_getitem j "variables") in
  do items <- lift (py_items variables) in
  lift (label_comprehension items []).

Definition get_labels (group_id : string) : M (dict json) :=
  fun s =>
    match labels_cache s !! group_id with
    | Some labels => (Ok labels, s)
    | None =>
        match get_labels_body group_id s with
        | (Ok labels, s') =>
            (Ok labels, set_labels_cache (<[group_id := labels]> (labels_cache s')) s')
        | (Raise e, s') => (Raise e, s')
        end
    end.

(** ** Variable selector (lines 66-84) *)

(** Lines 76-79: the three axis tests, each evaluated only when its flag
    is set and no earlier one has kept the variable. *)
Definition keep_var (want_age want_sex want_race : bool) (lab : json)
  : result bool :=
  try keep <- (if want_age then py_in "!!AGE!!" lab else Ok false) in
  try keep <- (if negb keep && want_sex then py_in "!!SEX!!" lab else Ok keep) in
  if negb keep && want_race then
    try race <- py_in "!!RACE" lab in
    if race then Ok true else py_in "!!ETHNICITY" lab
  else Ok keep.

(** The loop of lines 70-81 over [labels.items()], [out] being the list
    built so far. *)
Fixpoint select_loop (measure_fragment : string)
    (want_age want_sex want_race : bool)
    (items : dict json) (out : list string) : result (list string) :=
  match items with
  | [] => Ok out
  | (var, lab) :: rest =>
      if negb (endswith var "E") then
        select_loop measure_fragment want_age want_sex want_race rest out
      else
        try has_fragment <- py_in measure_fragment lab in
        if negb has_fragment then
          select_loop measure_fragment want_age want_sex want_race rest out
        else
          try keep <- keep_var want_age want_sex want_race lab in
          select_loop measure_fragment want_age want_sex want_race rest
                      (if keep then out ++ [var] else out)
  end.

Definition select_vars (group_id measure_fragment : string)
    (want_age want_sex want_race : bool) : M (list string) :=
  do labels <- get_labels group_id in
  do out <- lift (select_loop measure_fragment want_age want_sex want_race labels []) in
  ret (match out with
       | [] => [group_id +:+ "_001E"]
       | _ :: _ => out
       end).

(** ** The two data-pull entry points (lines 87-108) *)

Definition log_call (c : call) : M unit :=
  modify (fun s => set_call_log (call_log s ++ [c]) s).

Definition URL_HITS_append (url : string) : M unit :=
  modify (fun s => set_URL_HITS (URL_HITS s ++ [url]) s).

Definition detailed_url (vars_wanted : list string) (geo : string) : string :=
  api_root +:+ "subject" +:+ "?get=NAME," +:+ str_join "," vars_wanted
    +:+ "&" +:+ geo +:+ "&key=" +:+ API_KEY.

Definition simple_url (code dataset geo : string) : string :=
  (api_root +:+ dataset) +:+ "?get=NAME," +:+ code
    +:+ "&" +:+ geo +:+ "&key=" +:+ API_KEY.

(** Line 98: [{v: re.sub(..., labels[v]).strip() for v in vars_wanted}]. *)
Fixpoint clean_labels (labels : dict json) (vars_wanted : list string)
    (acc : dict string) : result (dict string) :=
  match vars_wanted with
  | [] => Ok acc
  | v :: rest =>
      match dict_get labels v with
      | None => Raise (KeyError v)
      | Some (JStr lab) =>
          clean_labels labels rest (dict_set v (strip (re_sub_markers W lab)) acc)
      | Some _ => Raise TypeError
      end
  end.

Definition pull_detailed (indicator geo : string)
    (want_age want_sex want_race : bool) : M DataFrame :=
  run_ log_call (CallDetailed indicator geo want_age want_sex want_race) in
  match dict_get DETAILED indicator with
  | None => raise (KeyError indicator)
  | Some (group_id, frag, _) =>
      do vars_wanted <- select_vars group_id frag want_age want_sex want_race in
      let url := detailed_url vars_wanted geo in
      run_ URL_HITS_append url in
      do df <- fetch url in
      do labels <- get_labels group_id in
      do rename <- lift (clean_labels labels vars_wanted []) in
      let rename :=
        map (fun kv => (fst kv, strip (before_paren indicator) +:+ " – " +:+ snd kv))
            rename in
      ret (df_rename rename df)
  end.

Definition pull_simple (code dataset geo : string) : M DataFrame :=
  run_ log_call (CallSimple code dataset geo) in
  let url := simple_url code dataset geo in
  run_ URL_HITS_append url in
  fetch url.

(** ** The run handler and the result assembler (lines 128-150) *)

(** The widget values the handler reads. *)
Record Inputs : Type := {
  geo_level : string;
  zcta_list : option string;
  chosen : list string;
  want_age : bool;
  want_sex : bool;
  want_race : bool
}.

Definition st_error (msg : string) : M unit :=
  modify (fun s => set_ui_errors (ui_errors s ++ [msg]) s).

(** [st.stop()] ends the script run. *)
Definition st_stop {A} : M A := raise StopException.

(** The body of the loop over [chosen] (lines 137-141). *)
Definition pull_indicator (ui : Inputs) (geo ind : string) : M DataFrame :=
  if dict_has DETAILED ind && (want_age ui || want_sex ui || want_race ui) then
    pull_detailed ind geo (want_age ui) (want_sex ui) (want_race ui)
  else
    match dict_get BASE_VARS ind with
    | None => raise (KeyError ind)
    | Some (code, ds) => pull_simple code ds geo
    end.

Fixpoint pull_all (ui : Inputs) (geo : string) (inds : list string)
    (frames : list DataFrame) : M (list DataFrame) :=
  match inds with
  | [] => ret frames
  | ind :: rest =>
      do df <- pull_indicator ui geo ind in
      pull_all ui geo rest (frames ++ [df])
  end.

(** Lines 143-144. *)
Definition assemble (frames : list DataFrame) : result DataFrame :=
  try wide <- pd_concat frames in
  try again <- pd_concat frames in
  Ok {| nrows := nrows wide;
        df_cols := loc_columns (map negb (duplicated [] (column_names again)))
                               (df_cols wide) |}.

(** Lines 147-149: the renaming of the raw codes of [BASE_VARS] that
    occur among the columns. *)
Fixpoint rename_base (base : dict (string * string)) (names : list string)
    (acc : dict string) : dict string :=
  match base with
  | [] => acc
  | (lab, (code, _)) :: rest =>
      if existsb (String.eqb code) names then
        rename_base rest names (dict_set code (lab +:+ " (" +:+ code +:+ ")") acc)
      else rename_base rest names acc
  end.

Definition run (ui : Inputs) : M DataFrame :=
  run_ modify (set_URL_HITS []) in
  match geo_clause (zcta_list ui) (geo_level ui) with
  | Some (String _ _ as geo) =>
      do frames <- pull_all ui geo (chosen ui) [] in
      do df <- lift (assemble frames) in
      ret (df_rename (rename_base BASE_VARS (column_names df) []) df)
  | _ =>
      run_ st_error "Enter at least one ZCTA." in
      st_stop
  end.

(** ** One execution of the script

    Streamlit executes [app.py] from its first line on every rerun, that
    is on every interaction with a widget.  Line 38 then binds [URL_HITS]
    to a new empty list, and lines 50 and 59 decorate two new function
    objects, each with a cache of its own that starts empty: nothing that
    an earlier execution has cached is reachable from the new one.  What
    the process has requested, invoked and shown before is history. *)
Definition rerun (s : state) : state :=
  {| URL_HITS := []; fetch_cache := []; labels_cache := ∅;
     http_log := http_log s; call_log := call_log s; ui_errors := ui_errors s |}.

(** The module level, then the handler when the Run button was pressed
    (line 128). *)
Definition script (ui : Inputs) (pressed : bool) : M (option DataFrame) :=
  run_ modify rerun in
  if pressed then
    do df <- run ui in
    ret (Some df)
  else ret None.

End Pipeline.

(** ** Reference collaborators for the examples

    An instance of the pandas constructor for the bodies the API
    documents (an array of arrays, the first one holding the column names
    as strings; on any other body [ValueError] stands for the refusal of
    pandas), an instance of the regular-expression substitution for ASCII
    labels, and three remote sites. *)

Definition header_names (hdr : list json) : option (list string) :=
  mapM (fun x => match x with JStr s => Some s | _ => None end) hdr.

Definition row_cells (row : json) : option (list json) :=
  match row with
  | JArr cells => Some cells
  | _ => None
  end.

(** [j[0]] on an empty list raises [IndexError] before pandas is reached.
    Rows shorter than the longest one are filled up with missing values;
    the longest row must have as many cells as there are names. *)
Definition table_of_rows (j : json) : result DataFrame :=
  match j with
  | JArr [] => Raise IndexError
  | JArr (JArr hdr :: rows) =>
      match header_names hdr, mapM row_cells rows with
      | Some names, Some rs =>
          if match rs with
             | [] => true
             | _ :: _ => Nat.eqb (list_max (map (@length json) rs)) (length names)
             end
          then
            Ok {| nrows := length rs;
                  df_cols := imap (fun i name => (name, map (fun r => r !! i) rs)) names |}
          else Raise ValueError
      | _, _ => Raise ValueError
      end
  | _ => Raise ValueError
  end.

Definition is_word (c : ascii) : bool :=
  let n := nat_of_ascii c in
  (Nat.leb 48 n && Nat.leb n 57) || (Nat.leb 65 n && Nat.leb n 90)
  || (Nat.leb 97 n && Nat.leb n 122) || Nat.eqb n 95.

Definition drop2 (s : string) : string :=
  match s with
  | String _ (String _ rest) => rest
  | _ => EmptyString
  end.

(** Right to left: the text left of the suffix after substitution, and
    whether the word run the suffix starts in is being removed. *)
Fixpoint sub_markers_aux (s : string) : string * bool :=
  match s with
  | EmptyString => (EmptyString, false)
  | String c rest =>
      let (out, removing) := sub_markers_aux rest in
      if is_word c then
        match rest with
        | String d _ =>
            if is_word d then (if removing then out else String c out, removing)
            else if String.prefix "!!" rest then (drop2 out, true)
            else (String c out, false)
        | EmptyString => (String c out, false)
        end
      else (String c out, false)
  end.

Definition ascii_sub_markers (lab : string) : string := fst (sub_markers_aux lab).

Definition label_entry (code lab : string) : string * json :=
  (code, JObj [("label", JStr lab)]).

Definition S1810_metadata : json :=
  JObj [("variables", JObj [
    label_entry "S1810_C01_001E"
      "Estimate!!Total!!Total civilian noninstitutionalized population";
    label_entry "S1810_C02_001E"
      "Estimate!!With a disability!!Total civilian noninstitutionalized population";
    label_entry "S1810_C02_002E"
      "Estimate!!With a disability!!Total civilian noninstitutionalized population!!SEX!!Male";
    label_entry "S1810_C02_014E"
      "Estimate!!With a disability!!Total civilian noninstitutionalized population!!AGE!!Under 5 years";
    label_entry "S1810_C02_014M"
      "Margin of Error!!With a disability!!Total civilian noninstitutionalized population!!AGE!!Under 5 years";
    label_entry "S1810_C03_014E"
      "Estimate!!Percent with a disability!!Total civilian noninstitutionalized population!!AGE!!Under 5 years"
  ])].

Definition county_table : json :=
  JArr [ JArr [JStr "NAME"; JStr "state"; JStr "county"];
         JArr [JStr "Pierce County, Washington"; JStr "53"; JStr "053"] ].

Definition is_meta_url (url : string) : bool :=
  String.prefix (api_root +:+ "subject/groups/") url.

(** A site that serves the metadata of group S1810 and one county row
    for every data request. *)
Definition census : Collaborators :=
  {| remote := fun _ url =>
       if String.eqb url (meta_url "S1810") then Response 200 (Some S1810_metadata)
       else if is_meta_url url then Response 404 None
       else Response 200 (Some county_table);
     pd_DataFrame := table_of_rows;
     re_sub_markers := ascii_sub_markers |}.

(** A site whose metadata endpoint answers every request with an error
    page. *)
Definition census_no_metadata : Collaborators :=
  {| remote := fun _ url =>
       if is_meta_url url then Response 404 None
       else Response 200 (Some county_table);
     pd_DataFrame := table_of_rows;
     re_sub_markers := ascii_sub_markers |}.

(** A site whose metadata endpoint answers with the given status and a
    well-formed body without variables. *)
Definition census_failing_metadata (status : nat) : Collaborators :=
  {| remote := fun _ url =>
       if is_meta_url url then Response status (Some (JObj [("variables", JObj [])]))
       else Response 200 (Some county_table);
     pd_DataFrame := table_of_rows;
     re_sub_markers := ascii_sub_markers |}.

Definition tab : string := String (ascii_of_nat 9) EmptyString.

Definition ZCTA_level : string := "ZCTA (custom list)".

(** ** Notions used to state the properties *)

(** The outcome the specification describes for a run without a usable
    geography: no clause, the script stopped, nothing logged, nothing
    requested. *)
Definition halts_before_network (W : Collaborators) (ui : Inputs) (s : state)
  : Prop :=
  geo_clause (zcta_list ui) (geo_level ui) = None /\
  exists s', run W ui s = (Raise StopException, s') /\
             URL_HITS s' = [] /\ http_log s' = http_log s.

(** The labels are all strings, as the signature [dict[str, str]] of
    [get_labels] announces. *)
Definition str_labels (labels : dict json) : bool :=
  forallb (fun e => match snd e with JStr _ => true | _ => false end) labels.

(** A label carries the marker of one of the requested breakdown axes. *)
Definition axis_requested (want_age want_sex want_race : bool) (lab : string)
  : bool :=
  want_age && str_in "!!AGE!!" lab
  || want_sex && str_in "!!SEX!!" lab
  || want_race && (str_in "!!RACE" lab || str_in "!!ETHNICITY" lab).

(** Steps 2 to 4 of the selector as the specification words them: an
    estimate code, whose label contains the fragment and the marker of a
    requested axis. *)
Definition survives (measure_fragment : string)
    (want_age want_sex want_race : bool) (entry : string * json) : bool :=
  match snd entry with
  | JStr lab =>
      endswith (fst entry) "E" && str_in measure_fragment lab
      && axis_requested want_age want_sex want_race lab
  | _ => false
  end.

Definition survivors (measure_fragment : string)
    (want_age want_sex want_race : bool) (labels : dict json) : list string :=
  map fst (List.filter (survives measure_fragment want_age want_sex want_race) labels).

(** What C2 promises of a returned code: it ends in "E", and its label in
    the metadata contains the fragment and a requested axis marker. *)
Definition requested_match (measure_fragment : string)
    (want_age want_sex want_race : bool) (labels : dict json) (code : string)
  : Prop :=
  endswith code "E" = true /\
  exists lab, dict_get labels code = Some (JStr lab) /\
              str_in measure_fragment lab = true /\
              axis_requested want_age want_sex want_race lab = true.

(** Every cached label mapping is a dictionary: its keys are distinct. *)
Definition state_wf (s : state) : Prop :=
  map_Forall (fun _ labels => NoDup (dict_keys labels)) (labels_cache s).

Definition S1810_labels : dict json :=
  Eval vm_compute in
    match get_labels census "S1810" initial_state with
    | (Ok labels, _) => labels
    | _ => []
    end.

(** The request [get_labels] issues, and the one [fetch] issues. *)
Definition meta_request (group_id : string) : request :=
  {| req_url := meta_url group_id; req_timeout := None;
     req_origin := from_get_labels |}.

Definition data_request (url : string) : request :=
  {| req_url := url; req_timeout := Some 20; req_origin := from_fetch |}.

(** The URLs of the data-pull requests among a sequence of requests. *)
Definition data_urls (reqs : list request) : list string :=
  map req_url (List.filter (fun q => match req_origin q with
                                     | from_fetch => true
                                     | from_get_labels => false
                                     end) reqs).

(** What may happen next within one execution of the script: a call of
    one of the five functions, with any collaborators, or one of the
    updates the handler and the entry points make themselves
    ([URL_HITS.clear()], [URL_HITS.append(url)], [st.error(msg)]). *)
Inductive call_step : state -> state -> Prop :=
| call_pull_detailed W ind geo a x r s :
    call_step s (snd (pull_detailed W ind geo a x r s))
| call_pull_simple W code ds geo s :
    call_step s (snd (pull_simple W code ds geo s))
| call_select_vars W g frag a x r s :
    call_step s (snd (select_vars W g frag a x r s))
| call_get_labels W g s : call_step s (snd (get_labels W g s))
| call_fetch W url s : call_step s (snd (fetch W url s))
| call_clear s : call_step s (set_URL_HITS [] s)
| call_append url s : call_step s (set_URL_HITS (URL_HITS s ++ [url]) s)
| call_st_error msg s : call_step s (set_ui_errors (ui_errors s ++ [msg]) s).

(** Anything the process may do next: go on with the current execution
    of the script, or execute it anew. *)
Inductive step : state -> state -> Prop :=
| step_call s s' : call_step s s' -> step s s'
| step_script W ui pressed s : step s (snd (script W ui pressed s)).

(** The cache of [get_labels] keeps what it holds, as dictionaries. *)
Definition cache_grows (s s' : state) : Prop :=
  (forall g labels, labels_cache s !! g = Some labels ->
                    labels_cache s' !! g = Some labels) /\
  (state_wf s -> state_wf s').

(** A computation whose every execution relates the state before to the
    state after, whether it returns or raises. *)
Definition preserves {A} (R : state -> state -> Prop) (m : M A) : Prop :=
  forall s, R s (snd (m s)).

(** The logs only grow, and the URLs of the data-pull requests issued
    are, in order, among the URLs appended to [URL_HITS]. *)
Definition logs_grow (s s' : state) : Prop :=
  exists reqs urls,
    http_log s' = http_log s ++ reqs /\
    URL_HITS s' = URL_HITS s ++ urls /\
    sublist (data_urls reqs) urls.

(** No entry point is invoked. *)
Definition same_calls (s s' : state) : Prop := call_log s' = call_log s.

(** The URL log is left alone by everything but the entry points. *)
Definition same_urls (s s' : state) : Prop := URL_HITS s' = URL_HITS s.

(** The requests issued between two states of one execution. *)
Definition requests_since (s s' : state) : list request :=
  drop (length (http_log s)) (http_log s').

Definition any_flag (ui : Inputs) : bool :=
  want_age ui || want_sex ui || want_race ui.

(** The entry point C9 assigns to an indicator: the detailed one for a
    detailed-capable indicator when a breakdown flag is set, otherwise the
    simple one with the configured variable code and dataset. *)
Definition entry_point (ui : Inputs) (geo ind : string) : call :=
  if dict_has DETAILED ind && any_flag ui then
    CallDetailed ind geo (want_age ui) (want_sex ui) (want_race ui)
  else
    let configured := default ("", "") (dict_get BASE_VARS ind) in
    CallSimple (fst configured) (snd configured) geo.

(** The loop of lines 136-141 seen from outside: the indicators pulled
    one after the other in the order given, each from the state the one
    before has left, every pull returning its table. *)
Inductive pulled (W : Collaborators) (ui : Inputs) (geo : string)
  : list string -> state -> list DataFrame -> state -> Prop :=
| pulled_nil s : pulled W ui geo [] s [] s
| pulled_cons ind inds s df s1 dfs s' :
    pull_indicator W ui geo ind s = (Ok df, s1) ->
    pulled W ui geo inds s1 dfs s' ->
    pulled W ui geo (ind :: inds) s (df :: dfs) s'.

Definition county_breakdown_by_age : Inputs :=
  {| geo_level := "County (Pierce)"; zcta_list := None;
     chosen := ["Disability (%)"; "Median household income ($)"];
     want_age := true; want_sex := false; want_race := false |}.

Definition county_geo : string := "for=county:053&in=state:53".

(** The columns kept by [~columns.duplicated()] when the labels in
    [seen] have occurred further left. *)
Definition keep_first (seen : list string) (cols : list (string * list cell))
  : list (string * list cell) :=
  loc_columns (map negb (duplicated seen (map fst cols))) cols.

Definition no_indicator : Inputs :=
  {| geo_level := "County (Pierce)"; zcta_list := None; chosen := [];
     want_age := false; want_sex := false; want_race := false |}.

(** ** Notions used for the further properties *)

(** The cache of [fetch] holds at most [lru_maxsize] tables, under
    distinct URLs, each with distinct column labels. *)
Definition fetch_cache_wf (s : state) : Prop :=
  length (fetch_cache s) <= lru_maxsize /\
  NoDup (dict_keys (fetch_cache s)) /\
  Forall (fun e => NoDup (column_names (snd e))) (fetch_cache s).

Definition fetch_wf_kept (s s' : state) : Prop :=
  fetch_cache_wf s -> fetch_cache_wf s'.

(** A sequence of calls of [fetch], whatever they return. *)
Fixpoint fetch_each (W : Collaborators) (urls : list string) (s : state) : state :=
  match urls with
  | [] => s
  | url :: rest => fetch_each W rest (snd (fetch W url s))
  end.

(** The exception of [r.raise_for_status()], [r.json()] and the table
    construction on a reply, if any. *)
Definition data_reply_error (W : Collaborators) (reply : response) : option exn :=
  match reply with
  | ConnectionFailed => Some RequestException
  | Response status body =>
      if Nat.leb 400 status && Nat.ltb status 600 then Some (HTTPError status)
      else match body with
           | None => Some JSONDecodeError
           | Some j => match pd_DataFrame W j with
                       | Ok _ => None
                       | Raise e => Some e
                       end
           end
  end.

(** The table [df] is cached under [url], behind at most [n] entries used
    more recently. *)
Definition cached_within (n : nat) (url : string) (df : DataFrame)
    (cache : list (string * DataFrame)) : Prop :=
  exists pre post,
    cache = pre ++ (url, df) :: post /\
    ~ In url (dict_keys pre) /\
    length pre <= n.

(** A site that answers every request with status 503 and an error page. *)
Definition census_down : Collaborators :=
  {| remote := fun _ _ => Response 503 None;
     pd_DataFrame := table_of_rows;
     re_sub_markers := ascii_sub_markers |}.

(** [v["label"]] for a variable entry of the metadata, [JNull] standing
    for an entry without one. *)
Definition label_of (v : json) : json :=
  match py_getitem v "label" with
  | Ok lab => lab
  | Raise _ => JNull
  end.

Definition has_label (v : json) : bool :=
  match py_getitem v "label" with
  | Ok _ => true
  | Raise _ => false
  end.

(** Two variable entries, the second with a field besides its label. *)
Definition two_variables : dict json :=
  [ label_entry "S1810_C01_001E" "Estimate!!Total";
    ("S1810_C01_001EA", JObj [("label", JStr "Annotation"); ("group", JStr "S1810")]) ].

Definition census_two_variables : Collaborators :=
  {| remote := fun _ _ => Response 200 (Some (JObj [("variables", JObj two_variables)]));
     pd_DataFrame := table_of_rows;
     re_sub_markers := ascii_sub_markers |}.

(** An estimate code whose label is neither a string nor a container:
    the test [measure_fragment in lab] cannot be evaluated on it. *)
Definition unusable_label (entry : string * json) : bool :=
  endswith (fst entry) "E"
  && match snd entry with
     | JNull | JBool _ | JNum _ => true
     | _ => false
     end.

(** A site whose metadata gives a number as the label of an estimate. *)
Definition census_numeric_label : Collaborators :=
  {| remote := fun _ _ =>
       Response 200 (Some (JObj [("variables", JObj
         [("S1810_C01_001E", JObj [("label", JNum 5)])])]));
     pd_DataFrame := table_of_rows;
     re_sub_markers := ascii_sub_markers |}.

(** The text of the label of a code, empty when the metadata has none. *)
Definition label_text (labels : dict json) (code : string) : string :=
  match dict_get labels code with
  | Some (JStr t) => t
  | _ => EmptyString
  end.

(** The column name [pull_detailed] gives to a selected code: the short
    name of the indicator, a dash, and the cleaned label. *)
Definition detailed_name (W : Collaborators) (indicator : string)
    (labels : dict json) (code : string) : string :=
  strip (before_paren indicator) +:+ " – "
    +:+ strip (re_sub_markers W (label_text labels code)).

(** A site that serves the metadata of group S1810 and, for every data
    request, one county row with the estimate of the under-fives. *)
Definition disability_under_5_table : json :=
  JArr [ JArr [JStr "NAME"; JStr "S1810_C02_014E"; JStr "state"; JStr "county"];
         JArr [JStr "Pierce County, Washington"; JStr "4308"; JStr "53"; JStr "053"] ].

Definition census_disability : Collaborators :=
  {| remote := fun _ url =>
       if String.eqb url (meta_url "S1810") then Response 200 (Some S1810_metadata)
       else Response 200 (Some disability_under_5_table);
     pd_DataFrame := table_of_rows;
     re_sub_markers := ascii_sub_markers |}.

(** The state in which [pull_detailed] calls the selector. *)
Definition entered_detailed (indicator geo : string) (a x r : bool) (s : state)
  : state :=
  set_call_log (call_log s ++ [CallDetailed indicator geo a x r]) s.

(** The URL the simple entry point requests for an indicator. *)
Definition configured_url (geo ind : string) : string :=
  let configured := default ("", "") (dict_get BASE_VARS ind) in
  simple_url (fst configured) (snd configured) geo.

(** A table is rectangular: every column has one cell per row. *)
Definition frame_wf (df : DataFrame) : Prop :=
  Forall (fun c => length (snd c) = nrows df) (df_cols df).

(** The name of a column in the final table: for the raw code of a base
    indicator its display name followed by the code in brackets, for any
    other column its own name. *)
Definition base_name (name : string) : string :=
  match List.find (fun e => String.eqb (fst (snd e)) name) BASE_VARS with
  | Some (lab, (code, _)) => lab +:+ " (" +:+ code +:+ ")"
  | None => name
  end.

Definition base_codes : list string := map (fun e => fst (snd e)) BASE_VARS.

(** From a state whose response cache holds logged URLs only, as after
    the start of a run on the caches a rerun has built: the cache still
    holds logged URLs only, and the data-pull requests issued are for the
    URLs appended to the log, one each and in the same order, as long as
    the log holds no URL twice. *)
Definition logs_requests (s s' : state) : Prop :=
  incl (dict_keys (fetch_cache s)) (URL_HITS s) ->
  incl (dict_keys (fetch_cache s')) (URL_HITS s') /\
  exists reqs urls,
    http_log s' = http_log s ++ reqs /\
    URL_HITS s' = URL_HITS s ++ urls /\
    (NoDup (URL_HITS s') -> data_urls reqs = urls).

(** The state [s] of an execution, with the history of [h] before what
    [s] has logged. *)
Definition after (h s : state) : state :=
  {| URL_HITS := URL_HITS s; fetch_cache := fetch_cache s;
     labels_cache := labels_cache s;
     http_log := http_log h ++ http_log s;
     call_log := call_log h ++ call_log s;
     ui_errors := ui_errors h ++ ui_errors s |}.

(** The site answers a request the same way whenever it is made. *)
Definition steady (W : Collaborators) : Prop :=
  forall n m url, remote W n url = remote W m url.

(** A computation that does not read the history: with a history before
    it, it returns the same and leaves the same state, after that
    history. *)
Definition history_free {A} (m : M A) : Prop :=
  forall h s, m (after h s) = (fst (m s), after h (snd (m s))).

(** Nothing is shown with [st.error]. *)
Definition same_errors (s s' : state) : Prop := ui_errors s' = ui_errors s.

(** * Properties *)

(** ** Strings: the tests of the selector say what their names say *)

Lemma prefix_iff (p s : string) :
  String.prefix p s = true <-> exists post, s = p +:+ post.
Proof.
  revert s. induction p as [|c p IH]; intros s; simpl.
  - split; [intros _; exists s; reflexivity | destruct s; reflexivity].
  - destruct s as [|d s].
    + split; [discriminate | intros [post H]; discriminate].
    + simpl. destruct (Ascii.ascii_dec c d) as [->|Hne].
      * rewrite IH. split; intros [post H]; exists post.
        -- now rewrite H.
        -- now injection H.
      * split; [discriminate | intros [post H]; injection H as H1 H2; congruence].
Qed.

Lemma append_assoc (a b c : string) : (a +:+ b) +:+ c = a +:+ (b +:+ c).
Proof. induction a as [|x a IH]; simpl; [reflexivity | f_equal; exact IH]. Qed.

Lemma append_nil_r (a : string) : a +:+ "" = a.
Proof. induction a as [|x a IH]; simpl; [reflexivity | f_equal; exact IH]. Qed.

Lemma length_append (a b : string) :
  String.length (a +:+ b) = String.length a + String.length b.
Proof. induction a as [|x a IH]; simpl; [reflexivity | f_equal; exact IH]. Qed.

(** [str_in needle hay] holds exactly when [needle] is a substring of [hay]. *)
Lemma str_in_iff (needle hay : string) :
  str_in needle hay = true <-> exists pre post, hay = pre +:+ needle +:+ post.
Proof.
  split.
  - induction hay as [|c hay IH]; intros H.
    + change (String.prefix needle "" = true) in H.
      apply prefix_iff in H as [post H]. exists "", post. exact H.
    + change (String.prefix needle (String c hay) || str_in needle hay = true) in H.
      apply orb_true_iff in H as [H|H].
      * apply (proj1 (prefix_iff needle (String c hay))) in H as [post H].
        exists "", post. exact H.
      * destruct (IH H) as (pre & post & ->). exists (String c pre), post. reflexivity.
  - intros (pre & post & ->). induction pre as [|c pre IH].
    + assert (Hp : String.prefix needle (needle +:+ post) = true)
        by (apply prefix_iff; eexists; reflexivity).
      change ("" +:+ needle +:+ post) with (needle +:+ post).
      destruct (needle +:+ post) eqn:E; [exact Hp|].
      change (String.prefix needle (String a s) || str_in needle s = true).
      now rewrite Hp.
    + change (String.prefix needle (String c (pre +:+ needle +:+ post))
              || str_in needle (pre +:+ needle +:+ post) = true).
      rewrite IH. apply orb_true_r.
Qed.

Lemma substring_all (s : string) : String.substring 0 (String.length s) s = s.
Proof. induction s as [|c s IH]; simpl; [reflexivity | now rewrite IH]. Qed.

Lemma substring_skip (pre s : string) (m : nat) :
  String.substring (String.length pre) m (pre +:+ s) = String.substring 0 m s.
Proof. induction pre as [|c pre IH]; simpl; [reflexivity | exact IH]. Qed.

Lemma substring_split (s : string) (k : nat) :
  k <= String.length s ->
  s = String.substring 0 k s +:+ String.substring k (String.length s - k) s.
Proof.
  revert k. induction s as [|c s IH]; intros k Hk; simpl in *.
  - destruct k; reflexivity.
  - destruct k as [|k]; simpl.
    + now rewrite substring_all.
    + rewrite <- IH by lia. reflexivity.
Qed.

(** [endswith s suffix] holds exactly when [s] ends with [suffix]. *)
Lemma endswith_iff (s suffix : string) :
  endswith s suffix = true <-> exists pre, s = pre +:+ suffix.
Proof.
  unfold endswith. rewrite andb_true_iff, Nat.leb_le. split.
  - intros [Hle Heq]. apply String.eqb_eq in Heq.
    exists (String.substring 0 (String.length s - String.length suffix) s).
    pose proof (substring_split s (String.length s - String.length suffix)
                  ltac:(lia)) as Hs.
    replace (String.length s - (String.length s - String.length suffix))
      with (String.length suffix) in Hs by lia.
    rewrite Heq in Hs. exact Hs.
  - intros [pre ->]. rewrite length_append. split; [lia|].
    apply String.eqb_eq.
    replace (String.length pre + String.length suffix - String.length suffix)
      with (String.length pre) by lia.
    rewrite substring_skip. apply substring_all.
Qed.

(** Removing the spaces of a string of spaces leaves nothing, and nothing
    is left only then. *)
Lemma str_remove_spaces_empty (s : string) :
  str_remove " "%char s = "" <-> all_spaces s = true.
Proof.
  induction s as [|c s IH]; simpl.
  - split; reflexivity.
  - destruct (Ascii.eqb c " "%char); simpl; [exact IH|].
    split; discriminate.
Qed.

(** ** Geography resolver *)

(** C10: at the county and at the tract level the clause is a constant:
    whatever the ZCTA entry of the session state holds, two invocations
    return the same clause, and it is never the empty sentinel. *)
Theorem geo_clause_fixed_levels :
  (forall z1 z2 : option string,
      geo_clause z1 "County (Pierce)" = geo_clause z2 "County (Pierce)" /\
      geo_clause z1 "County (Pierce)" = Some "for=county:053&in=state:53" /\
      geo_clause z1 "County (Pierce)" <> None) /\
  (forall z1 z2 : option string,
      geo_clause z1 "Tract (Pierce)" = geo_clause z2 "Tract (Pierce)" /\
      geo_clause z1 "Tract (Pierce)" = Some "for=tract:*&in=state:53%20county:053" /\
      geo_clause z1 "Tract (Pierce)" <> None).
Proof.
  split; intros z1 z2; repeat split; discriminate.
Qed.

(** At the ZCTA level the resolver has no clause exactly when the entry,
    taken as empty when absent, consists of space characters. *)
Lemma geo_clause_zcta_none (z : option string) :
  geo_clause z ZCTA_level = None <-> all_spaces (default "" z) = true.
Proof.
  rewrite <- str_remove_spaces_empty. unfold geo_clause, ZCTA_level. simpl.
  destruct (str_remove " " (default "" z)); split; congruence.
Qed.

(** C3, as stated, fails: a tab is whitespace, yet with a tab as ZCTA
    entry the resolver returns a clause and the run goes on to the
    network. *)
Lemma whitespace_zcta_reaches_network :
  let ui := {| geo_level := ZCTA_level; zcta_list := Some tab;
               chosen := ["HS diploma 25+ (%)"];
               want_age := false; want_sex := false; want_race := false |} in
  all_whitespace (default "" (zcta_list ui)) = true /\
  geo_clause (zcta_list ui) (geo_level ui)
    = Some ("for=zip%20code%20tabulation%20area:" +:+ tab) /\
  length (URL_HITS (snd (run census ui initial_state))) = 1 /\
  length (http_log (snd (run census ui initial_state))) = 1 /\
  ~ halts_before_network census ui initial_state.
Proof.
  cbv zeta. split; [reflexivity|]. split; [reflexivity|].
  split; [vm_compute; reflexivity|]. split; [vm_compute; reflexivity|].
  intros [H _]. discriminate H.
Qed.

(** C3, amended: a ZCTA entry made of space characters only (or empty,
    or absent) yields no clause; the run shows the validation message and
    stops with the URL log empty and no request issued. *)
Theorem spaces_zcta_halts (W : Collaborators) (ui : Inputs) (s : state) :
  geo_level ui = ZCTA_level ->
  all_spaces (default "" (zcta_list ui)) = true ->
  halts_before_network W ui s /\
  exists s', run W ui s = (Raise StopException, s') /\
             ui_errors s' = ui_errors s ++ ["Enter at least one ZCTA."] /\
             call_log s' = call_log s /\
             labels_cache s' = labels_cache s /\
             fetch_cache s' = fetch_cache s.
Proof.
  intros Hlevel Hspaces.
  assert (Hgeo : geo_clause (zcta_list ui) (geo_level ui) = None)
    by (rewrite Hlevel; now apply geo_clause_zcta_none).
  unfold halts_before_network, run, bind, modify, st_error, st_stop, raise.
  rewrite Hgeo. simpl. repeat split; eauto 10.
Qed.

Lemma spaces_zcta_halts_witness :
  let ui := {| geo_level := ZCTA_level; zcta_list := Some "   ";
               chosen := ["HS diploma 25+ (%)"];
               want_age := false; want_sex := false; want_race := false |} in
  halts_before_network census ui initial_state /\
  exists s', run census ui initial_state = (Raise StopException, s') /\
             ui_errors s' = ui_errors initial_state ++ ["Enter at least one ZCTA."] /\
             call_log s' = call_log initial_state /\
             labels_cache s' = labels_cache initial_state /\
             fetch_cache s' = fetch_cache initial_state.
Proof.
  intro ui. apply (spaces_zcta_halts census ui initial_state); reflexivity.
Defined.

(** ** Dictionaries *)

Lemma dict_get_None_keys {V} (d : dict V) (k : string) :
  dict_get d k = None <-> ~ In k (dict_keys d).
Proof.
  induction d as [|[k' v] d IH]; simpl.
  - tauto.
  - destruct (String.eqb_spec k' k) as [->|Hne].
    + split; [discriminate | intros H; exfalso; apply H; now left].
    + rewrite IH. split; [intros H [?|?]; [congruence | tauto] | tauto].
Qed.

Lemma dict_get_In {V} (d : dict V) (k : string) (v : V) :
  dict_get d k = Some v -> In (k, v) d.
Proof.
  induction d as [|[k' v'] d IH]; simpl; [discriminate|].
  destruct (String.eqb_spec k' k) as [->|Hne].
  - intros [= ->]. now left.
  - intros H. right. exact (IH H).
Qed.

Lemma In_dict_get {V} (d : dict V) (k : string) (v : V) :
  NoDup (dict_keys d) -> In (k, v) d -> dict_get d k = Some v.
Proof.
  induction d as [|[k' v'] d IH]; simpl; [tauto|].
  intros Hnd [Heq|Hin].
  - injection Heq as -> ->. now rewrite String.eqb_refl.
  - apply NoDup_cons in Hnd as [Hnotin Hnd].
    destruct (String.eqb_spec k' k) as [->|Hne].
    + exfalso. apply Hnotin, list_elem_of_In.
      change k with (fst (k, v)). now apply in_map.
    + now apply IH.
Qed.

Lemma dict_set_keys {V} (k : string) (v : V) (d : dict V) :
  dict_keys (dict_set k v d)
  = if dict_has d k then dict_keys d else dict_keys d ++ [k].
Proof.
  unfold dict_has. induction d as [|[k' v'] d IH]; simpl; [reflexivity|].
  destruct (String.eqb_spec k' k) as [->|Hne]; simpl; [reflexivity|].
  rewrite IH. now destruct (dict_get d k).
Qed.

Lemma dict_set_NoDup {V} (k : string) (v : V) (d : dict V) :
  NoDup (dict_keys d) -> NoDup (dict_keys (dict_set k v d)).
Proof.
  intros Hnd. rewrite dict_set_keys. unfold dict_has.
  destruct (dict_get d k) eqn:E; [exact Hnd|].
  apply dict_get_None_keys in E.
  apply NoDup_app. repeat split; [exact Hnd | | apply NoDup_singleton].
  intros y Hy Hy'. apply list_elem_of_In in Hy, Hy'.
  destruct Hy' as [<-|[]]. contradiction.
Qed.

(** The comprehension of [get_labels] builds a dictionary. *)
Lemma label_comprehension_NoDup (items acc labels : dict json) :
  NoDup (dict_keys acc) ->
  label_comprehension items acc = Ok labels ->
  NoDup (dict_keys labels).
Proof.
  revert acc. induction items as [|[k v] items IH]; intros acc Hacc; simpl.
  - now intros [= <-].
  - destruct (py_getitem v "label") as [lab|e]; simpl; [|discriminate].
    apply IH. now apply dict_set_NoDup.
Qed.

(** ** Metadata cache *)

Ltac unfold_monad :=
  unfold bind, ret, lift, raise, modify, st_stop, st_error, log_call,
         URL_HITS_append in *.

(** The body of [get_labels] issues one request, whatever comes of it,
    and touches nothing else. *)
Lemma get_labels_body_state (W : Collaborators) (g : string) (s : state) :
  snd (get_labels_body W g s)
  = set_http_log (http_log s ++ [meta_request g]) s.
Proof.
  unfold get_labels_body, requests_get. unfold_monad.
  destruct (remote W (length (http_log s)) (meta_url g)) as [|status body];
    [reflexivity|]. simpl.
  destruct (response_json body) as [j|e]; [|reflexivity].
  destruct (py_getitem j "variables") as [vars|e]; [|reflexivity].
  destruct (py_items vars) as [items|e]; reflexivity.
Qed.

Lemma get_labels_body_NoDup (W : Collaborators) (g : string) (s s1 : state)
    (labels : dict json) :
  get_labels_body W g s = (Ok labels, s1) -> NoDup (dict_keys labels).
Proof.
  unfold get_labels_body, requests_get. unfold_monad.
  destruct (remote W (length (http_log s)) (meta_url g)) as [|status body];
    [discriminate|]. simpl.
  destruct (response_json body) as [j|e]; [|discriminate].
  destruct (py_getitem j "variables") as [vars|e]; [|discriminate].
  destruct (py_items vars) as [items|e]; [|discriminate].
  intros [= H _]. eapply label_comprehension_NoDup; [|exact H].
  apply NoDup_nil_2.
Qed.

Lemma get_labels_hit (W : Collaborators) (g : string) (s : state)
    (labels : dict json) :
  labels_cache s !! g = Some labels -> get_labels W g s = (Ok labels, s).
Proof. intros H. unfold get_labels. now rewrite H. Qed.

(** The two ways [get_labels] returns a mapping: from the cache, with the
    state untouched, or from one request, with the mapping stored. *)
Lemma get_labels_Ok (W : Collaborators) (g : string) (s s' : state)
    (labels : dict json) :
  get_labels W g s = (Ok labels, s') ->
  (labels_cache s !! g = Some labels /\ s' = s) \/
  (labels_cache s !! g = None /\
   NoDup (dict_keys labels) /\
   s' = set_labels_cache (<[g := labels]> (labels_cache s))
          (set_http_log (http_log s ++ [meta_request g]) s)).
Proof.
  unfold get_labels. destruct (labels_cache s !! g) as [cached|] eqn:Hc.
  - intros [= -> ->]. now left.
  - pose proof (get_labels_body_state W g s) as Hst.
    destruct (get_labels_body W g s) as [[got|e] s1] eqn:Hb; [|discriminate].
    intros [= -> <-]. right. simpl in Hst. subst s1.
    split; [reflexivity|]. split; [|reflexivity].
    eapply get_labels_body_NoDup. exact Hb.
Qed.

(** A failed call leaves the cache as it was and has issued one request. *)
Lemma get_labels_Raise (W : Collaborators) (g : string) (s s' : state) (e : exn) :
  get_labels W g s = (Raise e, s') ->
  labels_cache s !! g = None /\
  s' = set_http_log (http_log s ++ [meta_request g]) s.
Proof.
  unfold get_labels. destruct (labels_cache s !! g) as [cached|] eqn:Hc;
    [discriminate|].
  pose proof (get_labels_body_state W g s) as Hst.
  destruct (get_labels_body W g s) as [[got|e'] s1] eqn:Hb; [discriminate|].
  intros [= -> <-]. simpl in Hst. now subst s1.
Qed.

Lemma initial_state_wf : state_wf initial_state.
Proof. apply map_Forall_empty. Qed.

Lemma get_labels_wf (W : Collaborators) (g : string) (s s' : state)
    (labels : dict json) :
  state_wf s ->
  get_labels W g s = (Ok labels, s') ->
  NoDup (dict_keys labels) /\ state_wf s'.
Proof.
  intros Hwf H. apply get_labels_Ok in H as [[Hc ->]|(Hc & Hnd & ->)].
  - split; [|exact Hwf]. exact (Hwf g labels Hc).
  - split; [exact Hnd|]. unfold state_wf. simpl.
    apply map_Forall_insert_2; assumption.
Qed.

(** ** Variable selector *)

Lemma keep_var_str (a x r : bool) (lab : string) :
  keep_var a x r (JStr lab) = Ok (axis_requested a x r lab).
Proof.
  unfold keep_var, axis_requested. simpl.
  destruct a, x, r, (str_in "!!AGE!!" lab), (str_in "!!SEX!!" lab),
    (str_in "!!RACE" lab), (str_in "!!ETHNICITY" lab); reflexivity.
Qed.

(** On string labels the loop never raises and appends, in the order of
    the metadata, the codes that pass steps 2 to 4. *)
Lemma select_loop_survivors (frag : string) (a x r : bool)
    (labels : dict json) (out : list string) :
  str_labels labels = true ->
  select_loop frag a x r labels out = Ok (out ++ survivors frag a x r labels).
Proof.
  revert out. induction labels as [|[var lab] labels IH]; intros out Hstr.
  - simpl. now rewrite app_nil_r.
  - simpl in Hstr. apply andb_true_iff in Hstr as [Hlab Hstr].
    destruct lab as [| | |lab| |]; try discriminate.
    unfold survivors. simpl. unfold survives at 1. simpl.
    destruct (endswith var "E"); simpl; [|now apply IH].
    destruct (str_in frag lab); simpl; [|now apply IH].
    rewrite keep_var_str. simpl.
    destruct (axis_requested a x r lab); simpl; [|now apply IH].
    rewrite IH by assumption. now rewrite <- app_assoc.
Qed.

Lemma survivors_no_flags (frag : string) (labels : dict json) :
  survivors frag false false false labels = [].
Proof.
  unfold survivors. induction labels as [|[var lab] labels IH]; [reflexivity|].
  simpl. unfold survives at 1. simpl.
  destruct lab; try exact IH. unfold axis_requested. simpl.
  rewrite andb_false_r. exact IH.
Qed.

(** What [select_vars] returns once the metadata is at hand. *)
Lemma select_vars_survivors (W : Collaborators) (g frag : string) (a x r : bool)
    (s s' : state) (labels : dict json) :
  get_labels W g s = (Ok labels, s') ->
  str_labels labels = true ->
  select_vars W g frag a x r s
  = (Ok (match survivors frag a x r labels with
         | [] => [g +:+ "_001E"]
         | _ :: _ => survivors frag a x r labels
         end), s').
Proof.
  intros Hget Hstr. unfold select_vars. unfold_monad. rewrite Hget.
  rewrite select_loop_survivors by assumption. reflexivity.
Qed.

(** C1: when no breakdown flag is set, or no variable of the group's
    metadata passes the filtering steps, [select_vars] returns exactly
    the one-element list of the code [{group_id}_001E]; and it never
    returns an empty list. *)
Theorem select_vars_fallback (W : Collaborators) (g frag : string)
    (a x r : bool) (s : state) :
  (forall labels s',
      get_labels W g s = (Ok labels, s') ->
      str_labels labels = true ->
      (a = false /\ x = false /\ r = false)
      \/ survivors frag a x r labels = [] ->
      select_vars W g frag a x r s = (Ok [g +:+ "_001E"], s')) /\
  (forall out s', select_vars W g frag a x r s = (Ok out, s') -> out <> []).
Proof.
  split.
  - intros labels s' Hget Hstr Hcase.
    rewrite (select_vars_survivors W g frag a x r s s' labels Hget Hstr).
    assert (Hnone : survivors frag a x r labels = []).
    { destruct Hcase as [(-> & -> & ->)|H]; [apply survivors_no_flags | exact H]. }
    now rewrite Hnone.
  - intros out s'. unfold select_vars. unfold_monad.
    destruct (get_labels W g s) as [[labels|e] s1]; [|discriminate].
    destruct (select_loop frag a x r labels []) as [[|v vs]|e]; [| |discriminate];
      intros [= <- _]; discriminate.
Qed.

Lemma select_vars_fallback_witness :
  let s1 := snd (get_labels census "S1810" initial_state) in
  select_vars census "S1810" "With a disability" false false false initial_state
    = (Ok ["S1810_001E"], s1) /\
  select_vars census "S1810" "With a disability" false false true initial_state
    = (Ok ["S1810_001E"], s1) /\
  ["S1810_C02_002E"; "S1810_C02_014E"] <> [].
Proof.
  pose proof (select_vars_fallback census "S1810" "With a disability"
                false false false initial_state) as [Hnoflag _].
  pose proof (select_vars_fallback census "S1810" "With a disability"
                false false true initial_state) as [Hnomatch _].
  pose proof (select_vars_fallback census "S1810" "With a disability"
                true true false initial_state) as [_ Hnonempty].
  split; [|split].
  - apply (Hnoflag S1810_labels); [reflexivity | reflexivity | left; auto].
  - apply (Hnomatch S1810_labels); [reflexivity | reflexivity | right; reflexivity].
  - apply (Hnonempty _ (snd (get_labels census "S1810" initial_state))).
    vm_compute. reflexivity.
Defined.

Lemma filter_keys_NoDup {V} (f : string * V -> bool) (d : dict V) :
  NoDup (dict_keys d) -> NoDup (map fst (List.filter f d)).
Proof.
  induction d as [|[k v] d IH]; simpl; intros Hnd; [apply NoDup_nil_2|].
  apply NoDup_cons in Hnd as [Hnotin Hnd].
  destruct (f (k, v)); simpl; [|now apply IH].
  apply NoDup_cons. split; [|now apply IH].
  intros Hin. apply Hnotin. apply list_elem_of_In in Hin. apply list_elem_of_In.
  apply in_map_iff in Hin as ([k' v'] & Hk & Hin). simpl in Hk. subst k'.
  apply List.filter_In in Hin as [Hin _].
  change k with (fst (k, v')). now apply in_map.
Qed.

Lemma survivors_match (frag : string) (a x r : bool) (labels : dict json)
    (code : string) :
  NoDup (dict_keys labels) ->
  In code (survivors frag a x r labels) ->
  requested_match frag a x r labels code.
Proof.
  intros Hnd Hin. unfold survivors in Hin.
  apply in_map_iff in Hin as ([k v] & Hk & Hin). simpl in Hk. subst k.
  apply List.filter_In in Hin as [Hin Hs]. unfold survives in Hs. simpl in Hs.
  destruct v as [| | |lab| |]; try discriminate.
  apply andb_true_iff in Hs as [Hs Haxis]. apply andb_true_iff in Hs as [He Hfrag].
  split; [exact He|]. exists lab. split; [|now split].
  now apply In_dict_get.
Qed.

(** C2, as stated, fails: with the race breakdown requested and no label
    of the group carrying a race marker, the code returned is the
    default one, which the metadata does not even list. *)
Lemma breakdown_without_match_unlabelled :
  let s1 := snd (get_labels census "S1810" initial_state) in
  get_labels census "S1810" initial_state = (Ok S1810_labels, s1) /\
  select_vars census "S1810" "With a disability" false false true initial_state
    = (Ok ["S1810_001E"], s1) /\
  dict_get S1810_labels "S1810_001E" = None /\
  ~ requested_match "With a disability" false false true S1810_labels "S1810_001E".
Proof.
  cbv zeta. split; [reflexivity|]. split; [vm_compute; reflexivity|].
  split; [reflexivity|]. intros (_ & lab & Hget & _). discriminate Hget.
Qed.

(** C2, amended: the list returned has no duplicates and is either the
    single default code, when no variable passed the filter, or made of
    codes that end in "E" and whose metadata label contains the fragment
    and the marker of a requested axis. *)
Theorem select_vars_matches (W : Collaborators) (g frag : string) (a x r : bool)
    (s s' : state) (labels : dict json) :
  state_wf s ->
  get_labels W g s = (Ok labels, s') ->
  str_labels labels = true ->
  exists out,
    select_vars W g frag a x r s = (Ok out, s') /\
    NoDup out /\
    ((survivors frag a x r labels = [] /\ out = [g +:+ "_001E"]) \/
     (out = survivors frag a x r labels /\
      forall code, In code out -> requested_match frag a x r labels code)).
Proof.
  intros Hwf Hget Hstr.
  destruct (get_labels_wf W g s s' labels Hwf Hget) as [Hnd _].
  rewrite (select_vars_survivors W g frag a x r s s' labels Hget Hstr).
  destruct (survivors frag a x r labels) as [|v vs] eqn:Hsurv.
  - exists [g +:+ "_001E"]. split; [reflexivity|].
    split; [apply NoDup_singleton | now left].
  - exists (v :: vs). split; [reflexivity|]. rewrite <- Hsurv. split.
    + now apply filter_keys_NoDup.
    + right. split; [reflexivity|]. intros code. now apply survivors_match.
Qed.

Lemma select_vars_matches_witness :
  exists out,
    select_vars census "S1810" "With a disability" true true false initial_state
      = (Ok out, snd (get_labels census "S1810" initial_state)) /\
    NoDup out /\
    ((survivors "With a disability" true true false S1810_labels = []
      /\ out = ["S1810" +:+ "_001E"]) \/
     (out = survivors "With a disability" true true false S1810_labels /\
      forall code, In code out ->
        requested_match "With a disability" true true false S1810_labels code)).
Proof.
  apply (select_vars_matches census "S1810" "With a disability" true true false
           initial_state).
  - apply initial_state_wf.
  - reflexivity.
  - reflexivity.
Defined.

(** ** Relations kept by every computation of the pipeline *)

Section Preserves.

Context (R : state -> state -> Prop) `{!PreOrder R}.

Lemma preserves_ret {A} (a : A) : preserves R (ret a).
Proof. intros s. reflexivity. Qed.

Lemma preserves_lift {A} (r : result A) : preserves R (lift r).
Proof. intros s. reflexivity. Qed.

Lemma preserves_raise {A} (e : exn) : preserves R (@raise A e).
Proof. intros s. reflexivity. Qed.

Lemma preserves_bind {A B} (m : M A) (k : A -> M B) :
  preserves R m -> (forall a, preserves R (k a)) -> preserves R (bind m k).
Proof.
  intros Hm Hk s. unfold bind. specialize (Hm s).
  destruct (m s) as [[a|e] s1]; simpl in *; [|exact Hm].
  etransitivity; [exact Hm | apply Hk].
Qed.

Lemma preserves_modify (f : state -> state) :
  (forall s, R s (f s)) -> preserves R (modify f).
Proof. intros Hf s. apply Hf. Qed.

End Preserves.

#[local] Instance cache_grows_preorder : PreOrder cache_grows.
Proof.
  split.
  - intros s. split; auto.
  - intros s1 s2 s3 [H12 W12] [H23 W23]. split; auto.
Qed.

(** A state that differs in the logs or in the cache of [fetch] only. *)
Lemma cache_grows_same (s s' : state) :
  labels_cache s' = labels_cache s -> cache_grows s s'.
Proof. intros H. unfold cache_grows, state_wf. rewrite H. auto. Qed.

Lemma requests_get_cache (W : Collaborators) who url timeout :
  preserves cache_grows (requests_get W who url timeout).
Proof.
  intros s. unfold requests_get.
  destruct (remote W (length (http_log s)) url); now apply cache_grows_same.
Qed.

Lemma fetch_cache_grows (W : Collaborators) (url : string) :
  preserves cache_grows (fetch W url).
Proof.
  intros s. unfold fetch. destruct (dict_get (fetch_cache s) url) as [df|].
  - now apply cache_grows_same.
  - assert (Hb : preserves cache_grows (fetch_body W url)).
    { unfold fetch_body.
      repeat (first [ apply preserves_bind; [typeclasses eauto| |intros ?]
                    | apply preserves_lift; typeclasses eauto
                    | apply preserves_ret; typeclasses eauto
                    | apply requests_get_cache ]). }
    specialize (Hb s). destruct (fetch_body W url s) as [[df|e] s1]; simpl in *.
    + etransitivity; [exact Hb|]. now apply cache_grows_same.
    + exact Hb.
Qed.

Lemma get_labels_cache_grows (W : Collaborators) (g : string) :
  preserves cache_grows (get_labels W g).
Proof.
  intros s. destruct (get_labels W g s) as [[labels|e] s'] eqn:H; simpl.
  - apply get_labels_Ok in H as [[Hc ->]|(Hc & Hnd & ->)]; [reflexivity|].
    split; simpl.
    + intros g' l Hl. destruct (decide (g = g')) as [<-|Hne]; [congruence|].
      now rewrite lookup_insert_ne.
    + intros Hwf. apply map_Forall_insert_2; assumption.
  - apply get_labels_Raise in H as [_ ->]. now apply cache_grows_same.
Qed.

Ltac preserves_step lemmas :=
  first [ apply preserves_bind; [typeclasses eauto| |intros ?]
        | apply preserves_lift; typeclasses eauto
        | apply preserves_ret; typeclasses eauto
        | apply preserves_raise; typeclasses eauto
        | lemmas ].

Lemma select_vars_cache_grows (W : Collaborators) g frag a x r :
  preserves cache_grows (select_vars W g frag a x r).
Proof.
  unfold select_vars.
  repeat preserves_step ltac:(apply get_labels_cache_grows).
Qed.

Lemma modify_cache_grows (f : state -> state) :
  (forall s, labels_cache (f s) = labels_cache s) ->
  preserves cache_grows (modify f).
Proof. intros H. apply preserves_modify. intros s. now apply cache_grows_same. Qed.

Ltac cache_grows_step :=
  preserves_step ltac:(first
    [ apply get_labels_cache_grows | apply fetch_cache_grows
    | apply select_vars_cache_grows
    | apply modify_cache_grows; intros ?; reflexivity ]).

Lemma pull_simple_cache_grows (W : Collaborators) code ds geo :
  preserves cache_grows (pull_simple W code ds geo).
Proof. unfold pull_simple, log_call, URL_HITS_append. repeat cache_grows_step. Qed.

Lemma pull_detailed_cache_grows (W : Collaborators) ind geo a x r :
  preserves cache_grows (pull_detailed W ind geo a x r).
Proof.
  unfold pull_detailed, log_call, URL_HITS_append. cache_grows_step; [cache_grows_step|].
  destruct (dict_get DETAILED ind) as [[[g frag] univ]|]; repeat cache_grows_step.
Qed.

(** Whatever happens within one execution of the script, the metadata
    cache keeps its entries and they stay dictionaries. *)
Lemma call_step_cache_grows (s s' : state) : call_step s s' -> cache_grows s s'.
Proof.
  intros [W ind geo a x r s0|W code ds geo s0|W g frag a x r s0
         |W g s0|W url s0|s0|url s0|msg s0].
  - apply pull_detailed_cache_grows.
  - apply pull_simple_cache_grows.
  - apply select_vars_cache_grows.
  - apply get_labels_cache_grows.
  - apply fetch_cache_grows.
  - now apply cache_grows_same.
  - now apply cache_grows_same.
  - now apply cache_grows_same.
Qed.

Lemma calls_cache_grow (s s' : state) : rtc call_step s s' -> cache_grows s s'.
Proof.
  induction 1 as [s|s1 s2 s3 H12 _ IH]; [reflexivity|].
  etransitivity; [apply call_step_cache_grows; exact H12 | exact IH].
Qed.

(** The handler is made of such steps. *)
Lemma run_calls (W : Collaborators) (ui : Inputs) :
  preserves (rtc call_step) (run W ui).
Proof.
  assert (Hall : forall geo inds frames,
             preserves (rtc call_step) (pull_all W ui geo inds frames)).
  { intros geo inds. induction inds as [|ind inds IH]; intros frames; cbn [pull_all].
    - apply preserves_ret; typeclasses eauto.
    - apply preserves_bind; [typeclasses eauto | | intros df; apply IH].
      intros s. unfold pull_indicator.
      destruct (dict_has DETAILED ind && (want_age ui || want_sex ui || want_race ui)).
      + apply rtc_once, call_pull_detailed.
      + destruct (dict_get BASE_VARS ind) as [[code ds]|].
        * apply rtc_once, call_pull_simple.
        * apply rtc_refl. }
  unfold run, st_error, st_stop.
  apply preserves_bind; [typeclasses eauto | | intros _].
  - intros s. apply rtc_once, call_clear.
  - destruct (geo_clause (zcta_list ui) (geo_level ui)) as [[|c geo]|];
      repeat preserves_step ltac:(first
        [ apply Hall | intros s; apply rtc_once, call_st_error ]).
Qed.

(** An execution of the script starts from empty caches. *)
Lemma script_from_rerun (W : Collaborators) (ui : Inputs) (pressed : bool)
    (s : state) :
  snd (script W ui pressed s)
  = if pressed then snd (run W ui (rerun s)) else rerun s.
Proof.
  unfold script, bind, modify, ret. destruct pressed; [|reflexivity].
  destruct (run W ui (rerun s)) as [[df|e] s1]; reflexivity.
Qed.

Lemma rerun_state_wf (s : state) : state_wf (rerun s).
Proof. apply map_Forall_empty. Qed.

Lemma step_state_wf (s s' : state) : step s s' -> state_wf s -> state_wf s'.
Proof.
  intros [s0 s1 Hcall|W ui pressed s0] Hwf.
  - now apply (call_step_cache_grows s0 s1 Hcall).
  - rewrite script_from_rerun. destruct pressed; [|apply rerun_state_wf].
    apply (calls_cache_grow _ _ (run_calls W ui (rerun s0))), rerun_state_wf.
Qed.

(** The well-formedness of the state is an invariant of the process. *)
Lemma steps_state_wf (s : state) : rtc step initial_state s -> state_wf s.
Proof.
  intros H. pose proof initial_state_wf as Hwf. revert Hwf.
  induction H as [s|s1 s2 s3 H12 _ IH]; [auto|].
  intros Hwf. apply IH. now apply (step_state_wf s1 s2).
Qed.

(** After a call that returned, the mapping is in the cache. *)
Lemma get_labels_stored (W : Collaborators) (g : string) (s s1 : state)
    (labels : dict json) :
  get_labels W g s = (Ok labels, s1) -> labels_cache s1 !! g = Some labels.
Proof.
  intros H. apply get_labels_Ok in H as [[Hc ->]|(Hc & Hnd & ->)]; [exact Hc|].
  simpl. apply lookup_insert_eq.
Qed.

(** A call on a group that is not cached issues the metadata request,
    whatever comes back. *)
Lemma get_labels_miss_requests (W : Collaborators) (g : string) (s : state) :
  labels_cache s !! g = None ->
  http_log (snd (get_labels W g s)) = http_log s ++ [meta_request g].
Proof.
  intros Hnone. destruct (get_labels W g s) as [[labels|e] s'] eqn:H; cbn [snd].
  - apply get_labels_Ok in H as [[Hc _]|(_ & _ & ->)]; [congruence | reflexivity].
  - apply get_labels_Raise in H as [_ ->]. reflexivity.
Qed.




(** ** Timeouts and status checks of the two kinds of request *)

(** What [fetch] does to the state: on a hit nothing but the order of
    its cache changes; on a miss it issues one request, with a timeout of
    20, and stores the table only if the request succeeded. *)
Lemma fetch_state (W : Collaborators) (url : string) (s : state) :
  let s' := snd (fetch W url s) in
  URL_HITS s' = URL_HITS s /\ labels_cache s' = labels_cache s /\
  call_log s' = call_log s /\ ui_errors s' = ui_errors s /\
  http_log s' = match dict_get (fetch_cache s) url with
                | Some _ => http_log s
                | None => http_log s ++ [data_request url]
                end.
Proof.
  cbv zeta. unfold fetch. destruct (dict_get (fetch_cache s) url) as [df|].
  - simpl. auto.
  - assert (Hb : snd (fetch_body W url s)
                 = set_http_log (http_log s ++ [data_request url]) s).
    { unfold fetch_body, requests_get. unfold_monad.
      destruct (remote W (length (http_log s)) url) as [|status body];
        [reflexivity|]. simpl.
      destruct (raise_for_status status); [|reflexivity].
      destruct (response_json body) as [j|e]; [|reflexivity].
      destruct (pd_DataFrame W j); reflexivity. }
    destruct (fetch_body W url s) as [[df|e] s1]; simpl in *; subst s1; simpl; auto.
Qed.

(** [fetch] checks the status: an error status raises. *)
Lemma fetch_error_status (W : Collaborators) (url : string) (s : state)
    (status : nat) (body : option json) :
  dict_get (fetch_cache s) url = None ->
  remote W (length (http_log s)) url = Response status body ->
  400 <= status < 600 ->
  fst (fetch W url s) = Raise (HTTPError status).
Proof.
  intros Hmiss Hremote [Hlo Hhi]. unfold fetch. rewrite Hmiss.
  unfold fetch_body, requests_get. unfold_monad. rewrite Hremote. simpl.
  unfold raise_for_status.
  apply Nat.leb_le in Hlo. apply Nat.ltb_lt in Hhi. now rewrite Hlo, Hhi.
Qed.

(** The failures [get_labels] does let through to its caller. *)
Lemma get_labels_propagates (W : Collaborators) (g : string) (s : state) :
  labels_cache s !! g = None ->
  match remote W (length (http_log s)) (meta_url g) with
  | ConnectionFailed => fst (get_labels W g s) = Raise RequestException
  | Response _ None => fst (get_labels W g s) = Raise JSONDecodeError
  | Response _ (Some (JObj ms)) =>
      match dict_get ms "variables" with
      | None => fst (get_labels W g s) = Raise (KeyError "variables")
      | Some (JObj _) => True
      | Some _ => fst (get_labels W g s) = Raise AttributeError
      end
  | Response _ (Some _) => fst (get_labels W g s) = Raise TypeError
  end.
Proof.
  intros Hmiss. unfold get_labels. rewrite Hmiss.
  unfold get_labels_body, requests_get. unfold_monad.
  destruct (remote W (length (http_log s)) (meta_url g)) as [|status [j|]];
    [reflexivity| |reflexivity].
  destruct j as [| | | | |ms]; try reflexivity. simpl.
  destruct (dict_get ms "variables") as [[| | | | |vs]|];
    first [reflexivity | exact I].
Qed.

Lemma requests_since_app (s s' : state) (reqs : list request) :
  http_log s' = http_log s ++ reqs -> requests_since s s' = reqs.
Proof. intros H. unfold requests_since. rewrite H. apply drop_app_length. Qed.

Lemma requests_since_same (s s' : state) :
  http_log s' = http_log s -> requests_since s s' = [].
Proof.
  intros H. apply requests_since_app. now rewrite app_nil_r.
Qed.

(** C6 (divergence of the code): every request [get_labels] issues
    carries no timeout, while every request [fetch] issues carries the
    timeout of 20; neither issues more than one request per call.  For
    instance the metadata request for group S1810 goes out without a
    timeout. *)
Theorem metadata_request_without_timeout :
  (forall W g s,
      let reqs := requests_since s (snd (get_labels W g s)) in
      length reqs <= 1 /\
      Forall (fun q => req_timeout q = None /\ req_origin q = from_get_labels) reqs) /\
  (forall W url s,
      let reqs := requests_since s (snd (fetch W url s)) in
      length reqs <= 1 /\
      Forall (fun q => req_timeout q = Some 20 /\ req_origin q = from_fetch) reqs) /\
  requests_since initial_state (snd (get_labels census "S1810" initial_state))
    = [ {| req_url := "https://api.census.gov/data/2023/acs/acs5/subject/groups/S1810.json";
           req_timeout := None; req_origin := from_get_labels |} ].
Proof.
  split; [|split].
  - intros W g s.
    assert (Hone : requests_since s
                     (set_http_log (http_log s ++ [meta_request g]) s)
                   = [meta_request g]) by now apply requests_since_app.
    destruct (get_labels W g s) as [[labels|e] s'] eqn:H; cbn [snd].
    + apply get_labels_Ok in H as [[_ ->]|(_ & _ & ->)].
      * rewrite requests_since_same by reflexivity. split; [simpl; lia | constructor].
      * unfold requests_since in *. simpl http_log in *. rewrite Hone.
        split; [simpl; lia | repeat constructor].
    + apply get_labels_Raise in H as [_ ->]. rewrite Hone.
      split; [simpl; lia | repeat constructor].
  - intros W url s. destruct (fetch_state W url s) as (_ & _ & _ & _ & Hh).
    destruct (dict_get (fetch_cache s) url).
    + rewrite (requests_since_same _ _ Hh). split; [simpl; lia | constructor].
    + rewrite (requests_since_app _ _ _ Hh). split; [simpl; lia | repeat constructor].
  - vm_compute. reflexivity.
Qed.

(** C7 (divergence of the code): whatever status the metadata endpoint
    replies with, a well-formed body is taken as a success: with a
    server-error status and a body without variables [get_labels]
    returns the empty mapping, the selector falls back on the default
    code, and nothing is raised; [fetch] raises on the same reply. *)
Theorem metadata_error_status_accepted :
  (forall status,
      fst (get_labels (census_failing_metadata status) "S1810" initial_state) = Ok [] /\
      fst (select_vars (census_failing_metadata status) "S1810" "With a disability"
             true false false initial_state) = Ok ["S1810_001E"]) /\
  remote (census_failing_metadata 500) 0 (meta_url "S1810")
    = Response 500 (Some (JObj [("variables", JObj [])])) /\
  fst (fetch (census_failing_metadata 500) (meta_url "S1810") initial_state)
    = Raise (HTTPError 500).
Proof.
  split; [|split].
  - intros status. split; reflexivity.
  - reflexivity.
  - vm_compute. reflexivity.
Qed.

(** ** The URL log *)

Lemma bind_assoc {A B C} (m : M A) (f : A -> M B) (k : B -> M C) (s : state) :
  bind (bind m f) k s = bind m (fun a => bind (f a) k) s.
Proof. unfold bind. destruct (m s) as [[a|e] s1]; reflexivity. Qed.

Lemma data_urls_app (r1 r2 : list request) :
  data_urls (r1 ++ r2) = data_urls r1 ++ data_urls r2.
Proof. unfold data_urls. now rewrite List.filter_app, map_app. Qed.

#[local] Instance logs_grow_preorder : PreOrder logs_grow.
Proof.
  split.
  - intros s. exists [], []. rewrite !app_nil_r. repeat split. constructor.
  - intros s1 s2 s3 (r12 & u12 & Hh12 & Hu12 & Hs12) (r23 & u23 & Hh23 & Hu23 & Hs23).
    exists (r12 ++ r23), (u12 ++ u23).
    rewrite Hh23, Hh12, Hu23, Hu12, !app_assoc, data_urls_app.
    repeat split. now apply sublist_app.
Qed.

(** A change that leaves both logs alone. *)
Lemma logs_grow_same (s s' : state) :
  http_log s' = http_log s -> URL_HITS s' = URL_HITS s -> logs_grow s s'.
Proof.
  intros Hh Hu. exists [], []. rewrite Hh, Hu, !app_nil_r.
  repeat split. constructor.
Qed.

Lemma get_labels_logs (W : Collaborators) (g : string) :
  preserves logs_grow (get_labels W g).
Proof.
  intros s.
  assert (Hmeta : logs_grow s (set_http_log (http_log s ++ [meta_request g]) s)).
  { exists [meta_request g], []. rewrite app_nil_r. repeat split. constructor. }
  destruct (get_labels W g s) as [[labels|e] s'] eqn:H; simpl.
  - apply get_labels_Ok in H as [[_ ->]|(_ & _ & ->)]; [reflexivity|].
    etransitivity; [exact Hmeta | now apply logs_grow_same].
  - apply get_labels_Raise in H as [_ ->]. exact Hmeta.
Qed.

Lemma select_vars_logs (W : Collaborators) g frag a x r :
  preserves logs_grow (select_vars W g frag a x r).
Proof. unfold select_vars. repeat preserves_step ltac:(apply get_labels_logs). Qed.

(** Appending the URL and then fetching it: whether the table comes from
    the cache or from the network, the URL is in the log, and the request,
    if one is issued, is for that URL. *)
Lemma logged_fetch (W : Collaborators) (url : string) :
  preserves logs_grow (bind (URL_HITS_append url) (fun _ => fetch W url)).
Proof.
  intros s. unfold bind, URL_HITS_append, modify.
  set (s1 := set_URL_HITS (URL_HITS s ++ [url]) s).
  destruct (fetch_state W url s1) as (Hu & _ & _ & _ & Hh).
  exists (match dict_get (fetch_cache s1) url with
          | Some _ => []
          | None => [data_request url]
          end), [url].
  rewrite Hu, Hh. repeat split.
  - destruct (dict_get (fetch_cache s1) url); [now rewrite app_nil_r | reflexivity].
  - destruct (dict_get (fetch_cache s1) url); [constructor; constructor | reflexivity].
Qed.

Lemma logged_fetch_then {A} (W : Collaborators) (url : string) (k : DataFrame -> M A) :
  (forall df, preserves logs_grow (k df)) ->
  preserves logs_grow
    (bind (URL_HITS_append url) (fun _ => bind (fetch W url) k)).
Proof.
  intros Hk s. rewrite <- bind_assoc. revert s.
  apply preserves_bind; [typeclasses eauto | apply logged_fetch | exact Hk].
Qed.

Lemma modify_logs (f : state -> state) :
  (forall s, http_log (f s) = http_log s) ->
  (forall s, URL_HITS (f s) = URL_HITS s) ->
  preserves logs_grow (modify f).
Proof. intros Hh Hu. apply preserves_modify. intros s. now apply logs_grow_same. Qed.

Lemma pull_simple_logs (W : Collaborators) code ds geo :
  preserves logs_grow (pull_simple W code ds geo).
Proof.
  unfold pull_simple. apply preserves_bind; [typeclasses eauto| |intros _].
  - apply modify_logs; reflexivity.
  - apply logged_fetch.
Qed.

Lemma pull_detailed_logs (W : Collaborators) ind geo a x r :
  preserves logs_grow (pull_detailed W ind geo a x r).
Proof.
  unfold pull_detailed. apply preserves_bind; [typeclasses eauto| |intros _].
  - apply modify_logs; reflexivity.
  - destruct (dict_get DETAILED ind) as [[[g frag] univ]|].
    + apply preserves_bind; [typeclasses eauto|apply select_vars_logs|intros vars].
      apply logged_fetch_then. intros df.
      repeat preserves_step ltac:(apply get_labels_logs).
    + apply preserves_raise; typeclasses eauto.
Qed.

Lemma pull_indicator_logs (W : Collaborators) ui geo ind :
  preserves logs_grow (pull_indicator W ui geo ind).
Proof.
  unfold pull_indicator.
  destruct (dict_has DETAILED ind && (want_age ui || want_sex ui || want_race ui)).
  - apply pull_detailed_logs.
  - destruct (dict_get BASE_VARS ind) as [[code ds]|].
    + apply pull_simple_logs.
    + apply preserves_raise; typeclasses eauto.
Qed.

Lemma pull_all_logs (W : Collaborators) ui geo inds frames :
  preserves logs_grow (pull_all W ui geo inds frames).
Proof.
  revert frames. induction inds as [|ind inds IH]; intros frames; simpl.
  - apply preserves_ret; typeclasses eauto.
  - apply preserves_bind;
      [typeclasses eauto | apply pull_indicator_logs | intros df; apply IH].
Qed.

(** The handler clears the log and from there on the logs grow. *)
Lemma run_logs (W : Collaborators) (ui : Inputs) (s : state) :
  logs_grow (set_URL_HITS [] s) (snd (run W ui s)).
Proof.
  unfold run. unfold bind at 1. unfold modify at 1.
  generalize (set_URL_HITS [] s). apply (@id (preserves logs_grow _)).
  destruct (geo_clause (zcta_list ui) (geo_level ui)) as [[|c geo]|];
    repeat preserves_step ltac:(first
      [ apply pull_all_logs | apply modify_logs; reflexivity ]).
Qed.

#[local] Instance same_urls_preorder : PreOrder same_urls.
Proof.
  split.
  - intros s. reflexivity.
  - intros s1 s2 s3 H12 H23. unfold same_urls in *. congruence.
Qed.

Lemma fetch_same_urls (W : Collaborators) (url : string) :
  preserves same_urls (fetch W url).
Proof. intros s. now destruct (fetch_state W url s) as (H & _). Qed.

Lemma get_labels_same_urls (W : Collaborators) (g : string) :
  preserves same_urls (get_labels W g).
Proof.
  intros s. destruct (get_labels W g s) as [[labels|e] s'] eqn:H; simpl.
  - apply get_labels_Ok in H as [[_ ->]|(_ & _ & ->)]; reflexivity.
  - apply get_labels_Raise in H as [_ ->]. reflexivity.
Qed.

Lemma select_vars_same_urls (W : Collaborators) g frag a x r :
  preserves same_urls (select_vars W g frag a x r).
Proof.
  unfold select_vars. repeat preserves_step ltac:(apply get_labels_same_urls).
Qed.

(** ** Dispatch between the two entry points *)

#[local] Instance same_calls_preorder : PreOrder same_calls.
Proof.
  split.
  - intros s. reflexivity.
  - intros s1 s2 s3 H12 H23. unfold same_calls in *. congruence.
Qed.

Lemma fetch_same_calls (W : Collaborators) (url : string) :
  preserves same_calls (fetch W url).
Proof. intros s. now destruct (fetch_state W url s) as (_ & _ & H & _). Qed.

Lemma get_labels_same_calls (W : Collaborators) (g : string) :
  preserves same_calls (get_labels W g).
Proof.
  intros s. destruct (get_labels W g s) as [[labels|e] s'] eqn:H; simpl.
  - apply get_labels_Ok in H as [[_ ->]|(_ & _ & ->)]; reflexivity.
  - apply get_labels_Raise in H as [_ ->]. reflexivity.
Qed.

Ltac same_calls_step :=
  preserves_step ltac:(first
    [ apply get_labels_same_calls | apply fetch_same_calls
    | apply preserves_modify; intros ?; reflexivity ]).

(** An entry point logs its own invocation and nothing else. *)
Lemma logged_call {A} (c : call) (rest : M A) (s : state) :
  preserves same_calls rest ->
  call_log (snd (bind (log_call c) (fun _ => rest) s)) = call_log s ++ [c].
Proof.
  intros Hrest. unfold bind, log_call, modify.
  now rewrite (Hrest (set_call_log (call_log s ++ [c]) s)).
Qed.

Lemma pull_simple_calls (W : Collaborators) code ds geo (s : state) :
  call_log (snd (pull_simple W code ds geo s))
  = call_log s ++ [CallSimple code ds geo].
Proof.
  unfold pull_simple. apply logged_call. unfold URL_HITS_append.
  repeat same_calls_step.
Qed.

Lemma pull_detailed_calls (W : Collaborators) ind geo a x r (s : state) :
  call_log (snd (pull_detailed W ind geo a x r s))
  = call_log s ++ [CallDetailed ind geo a x r].
Proof.
  unfold pull_detailed. apply logged_call.
  destruct (dict_get DETAILED ind) as [[[g frag] univ]|];
    unfold select_vars, URL_HITS_append; repeat same_calls_step.
Qed.

Lemma pull_indicator_calls (W : Collaborators) ui geo ind (s : state) :
  dict_has BASE_VARS ind = true ->
  call_log (snd (pull_indicator W ui geo ind s))
  = call_log s ++ [entry_point ui geo ind].
Proof.
  intros Hbase. unfold pull_indicator, entry_point, any_flag.
  destruct (dict_has DETAILED ind && (want_age ui || want_sex ui || want_race ui)).
  - apply pull_detailed_calls.
  - unfold dict_has in Hbase.
    destruct (dict_get BASE_VARS ind) as [[code ds]|]; [|discriminate].
    apply pull_simple_calls.
Qed.

(** The loop, in terms of the pulls it is made of: after the indicators
    of [done] have been pulled, what is left is the loop over the rest. *)
Lemma pull_all_pulled (W : Collaborators) (ui : Inputs) (geo : string)
    (done rest : list string) (frames dfs : list DataFrame) (s s1 : state) :
  pulled W ui geo done s dfs s1 ->
  pull_all W ui geo (done ++ rest) frames s
  = pull_all W ui geo rest (frames ++ dfs) s1.
Proof.
  intros H. revert frames.
  induction H as [s|ind inds s df s1 dfs s' Hpull _ IH]; intros frames.
  - now rewrite app_nil_r.
  - cbn [app pull_all]. unfold bind. rewrite Hpull, IH.
    now rewrite <- app_assoc.
Qed.

(** The loop returns when every pull has returned, and raises with the
    first pull that raises. *)
Lemma pull_all_outcome (W : Collaborators) (ui : Inputs) (geo : string)
    (inds : list string) (frames : list DataFrame) (s : state) :
  match pull_all W ui geo inds frames s with
  | (Ok out, s') => exists dfs, out = frames ++ dfs /\ pulled W ui geo inds s dfs s'
  | (Raise e, s') =>
      exists done ind rest dfs s1,
        inds = done ++ ind :: rest /\
        pulled W ui geo done s dfs s1 /\
        pull_indicator W ui geo ind s1 = (Raise e, s')
  end.
Proof.
  revert frames s. induction inds as [|ind inds IH]; intros frames s.
  - cbn [pull_all ret]. exists []. rewrite app_nil_r. split; [reflexivity|constructor].
  - cbn [pull_all]. unfold bind.
    destruct (pull_indicator W ui geo ind s) as [[df|e] s1] eqn:Hpull.
    + specialize (IH (frames ++ [df]) s1).
      destruct (pull_all W ui geo inds (frames ++ [df]) s1) as [[out|e] s2].
      * destruct IH as (dfs & -> & Hdfs). exists (df :: dfs).
        rewrite <- app_assoc. split; [reflexivity|]. econstructor; eassumption.
      * destruct IH as (done & i & rest & dfs & s0 & -> & Hdone & Hi).
        exists (ind :: done), i, rest, (df :: dfs), s0.
        split; [reflexivity|]. split; [|exact Hi]. econstructor; eassumption.
    + exists [], ind, inds, [], s. split; [reflexivity|]. split; [constructor|exact Hpull].
Qed.

(** The loop invokes, in the order of [chosen], the entry point of each
    indicator it reaches: all of them when it returns, and those up to
    the one whose pull raises when it raises. *)
Lemma pull_all_calls (W : Collaborators) ui geo inds frames (s : state) :
  Forall (fun ind => dict_has BASE_VARS ind = true) inds ->
  exists reached rest,
    inds = reached ++ rest /\
    call_log (snd (pull_all W ui geo inds frames s))
    = call_log s ++ map (entry_point ui geo) reached /\
    match fst (pull_all W ui geo inds frames s) with
    | Ok out => rest = [] /\ length out = length frames + length inds
    | Raise e =>
        exists done ind s0,
          reached = done ++ [ind] /\
          pull_indicator W ui geo ind s0
          = (Raise e, snd (pull_all W ui geo inds frames s))
    end.
Proof.
  revert frames s. induction inds as [|ind inds IH]; intros frames s Hbase.
  - exists [], []. cbn [pull_all ret fst snd map]. rewrite !app_nil_r.
    split; [reflexivity|]. split; [reflexivity|]. split; [reflexivity|].
    cbn [length]. now rewrite Nat.add_0_r.
  - apply Forall_cons in Hbase as [Hind Hbase]. cbn [pull_all]. unfold bind.
    pose proof (pull_indicator_calls W ui geo ind s Hind) as Hcall.
    destruct (pull_indicator W ui geo ind s) as [[df|e] s1] eqn:Hpull; cbn [snd] in Hcall.
    + destruct (IH (frames ++ [df]) s1 Hbase) as (reached & rest & -> & Hlog & Hend).
      exists (ind :: reached), rest. split; [reflexivity|]. split.
      * rewrite Hlog, Hcall. cbn [map]. now rewrite <- app_assoc.
      * destruct (pull_all W ui geo (reached ++ rest) (frames ++ [df]) s1)
          as [[out|e] s2]; cbn [fst snd] in *.
        -- destruct Hend as [-> Hlen]. split; [reflexivity|].
           rewrite Hlen, length_app. cbn [length]. lia.
        -- destruct Hend as (done & i & s0 & -> & Hi).
           exists (ind :: done), i, s0. split; [reflexivity | exact Hi].
    + exists [ind], inds. cbn [fst snd]. split; [reflexivity|]. split; [exact Hcall|].
      exists [], ind, s. split; [reflexivity | exact Hpull].
Qed.

Lemma geo_clause_nonempty (z : option string) (level geo : string) :
  geo_clause z level = Some geo -> exists c rest, geo = String c rest.
Proof.
  unfold geo_clause.
  destruct (String.eqb level "County (Pierce)");
    [intros H; injection H as H; subst geo; simpl; eauto|].
  destruct (String.eqb level "Tract (Pierce)");
    [intros H; injection H as H; subst geo; simpl; eauto|].
  destruct (str_remove " " (default "" z)); [discriminate|].
  intros H. injection H as H. subst geo. simpl. eauto.
Qed.

Lemma run_with_geo (W : Collaborators) (ui : Inputs) (s : state)
    (c : ascii) (g : string) :
  geo_clause (zcta_list ui) (geo_level ui) = Some (String c g) ->
  run W ui s
  = bind (pull_all W ui (String c g) (chosen ui) [])
         (fun frames =>
            bind (lift (assemble frames))
                 (fun df => ret (df_rename (rename_base BASE_VARS (column_names df) []) df)))
         (set_URL_HITS [] s).
Proof. intros Hgeo. unfold run. rewrite Hgeo. reflexivity. Qed.

Lemma assemble_Raise (frames : list DataFrame) (e : exn) :
  assemble frames = Raise e -> frames = [].
Proof. destruct frames; [reflexivity | discriminate]. Qed.

(** C9: the body of the loop is [pull_detailed] for an indicator that is
    detailed-capable when a breakdown flag is set, and [pull_simple] with
    the configured variable code and dataset for every other indicator,
    so for every indicator when no flag is set.  The entry points invoked
    during a run are, in the order of [chosen], those of the indicators
    the run reaches: all of them when the run returns, and, when it
    raises, those up to the indicator whose pull raised the exception the
    run ends with. *)
Theorem run_dispatch (W : Collaborators) (ui : Inputs) (s : state) (geo : string) :
  geo_clause (zcta_list ui) (geo_level ui) = Some geo ->
  Forall (fun ind => dict_has BASE_VARS ind = true) (chosen ui) ->
  (forall ind s0,
      dict_has DETAILED ind = true -> any_flag ui = true ->
      pull_indicator W ui geo ind s0
      = pull_detailed W ind geo (want_age ui) (want_sex ui) (want_race ui) s0) /\
  (forall ind code ds s0,
      dict_has DETAILED ind = false \/ any_flag ui = false ->
      dict_get BASE_VARS ind = Some (code, ds) ->
      pull_indicator W ui geo ind s0 = pull_simple W code ds geo s0) /\
  exists reached rest,
    chosen ui = reached ++ rest /\
    call_log (snd (run W ui s)) = call_log s ++ map (entry_point ui geo) reached /\
    match fst (run W ui s) with
    | Ok _ => rest = []
    | Raise e =>
        chosen ui = [] \/
        exists done ind s0,
          reached = done ++ [ind] /\
          pull_indicator W ui geo ind s0 = (Raise e, snd (run W ui s))
    end.
Proof.
  intros Hgeo Hbase. split; [|split].
  - intros ind s0 Hd Hflag. unfold pull_indicator. unfold any_flag in Hflag.
    now rewrite Hd, Hflag.
  - intros ind code ds s0 Hnot Hcfg. unfold pull_indicator. unfold any_flag in Hnot.
    assert (Hc : dict_has DETAILED ind
                 && (want_age ui || want_sex ui || want_race ui) = false)
      by (destruct Hnot as [-> | ->]; [reflexivity | apply andb_false_r]).
    now rewrite Hc, Hcfg.
  - destruct (geo_clause_nonempty _ _ _ Hgeo) as (c & g & ->).
    destruct (pull_all_calls W ui (String c g) (chosen ui) [] (set_URL_HITS [] s) Hbase)
      as (reached & rest & Hsplit & Hlog & Hend).
    exists reached, rest. split; [exact Hsplit|].
    rewrite (run_with_geo W ui s c g Hgeo). unfold bind.
    destruct (pull_all W ui (String c g) (chosen ui) [] (set_URL_HITS [] s))
      as [[frames|e] s1]; cbn [fst snd] in *.
    + destruct Hend as [Hrest Hlen]. unfold lift, ret.
      destruct (assemble frames) as [df|e] eqn:Hasm; cbn [fst snd].
      * split; [exact Hlog | exact Hrest].
      * split; [exact Hlog|]. left.
        apply assemble_Raise in Hasm. subst frames. cbn [length] in Hlen.
        destruct (chosen ui); [reflexivity | discriminate Hlen].
    + split; [exact Hlog|]. right. exact Hend.
Qed.

Lemma run_dispatch_witness :
  let ui := county_breakdown_by_age in
  call_log (snd (run census ui initial_state))
  = [ CallDetailed "Disability (%)" county_geo true false false;
      CallSimple "S1901_C01_012E" "subject" county_geo ] /\
  (forall ind s0,
      dict_has DETAILED ind = true -> any_flag ui = true ->
      pull_indicator census ui county_geo ind s0
      = pull_detailed census ind county_geo (want_age ui) (want_sex ui) (want_race ui) s0) /\
  (forall ind code ds s0,
      dict_has DETAILED ind = false \/ any_flag ui = false ->
      dict_get BASE_VARS ind = Some (code, ds) ->
      pull_indicator census ui county_geo ind s0 = pull_simple census code ds county_geo s0) /\
  exists reached rest,
    chosen ui = reached ++ rest /\
    call_log (snd (run census ui initial_state))
    = call_log initial_state ++ map (entry_point ui county_geo) reached /\
    match fst (run census ui initial_state) with
    | Ok _ => rest = []
    | Raise e =>
        chosen ui = [] \/
        exists done ind s0,
          reached = done ++ [ind] /\
          pull_indicator census ui county_geo ind s0
          = (Raise e, snd (run census ui initial_state))
    end.
Proof.
  intros ui. split; [vm_compute; reflexivity|].
  apply (run_dispatch census ui initial_state county_geo).
  - reflexivity.
  - repeat constructor.
Defined.

(** ** Result assembler *)

Lemma existsb_eqb_In (n : string) (seen : list string) :
  existsb (String.eqb n) seen = true <-> In n seen.
Proof.
  rewrite existsb_exists. split.
  - intros (y & Hy & Heq). apply String.eqb_eq in Heq. now subst.
  - intros H. exists n. split; [exact H | apply String.eqb_refl].
Qed.

Lemma keep_first_cons (seen : list string) (n : string) (vals : list cell)
    (cols : list (string * list cell)) :
  keep_first seen ((n, vals) :: cols)
  = if existsb (String.eqb n) seen then keep_first (n :: seen) cols
    else (n, vals) :: keep_first (n :: seen) cols.
Proof.
  unfold keep_first. simpl. now destruct (existsb (String.eqb n) seen).
Qed.

Lemma keep_first_names (seen : list string) (cols : list (string * list cell))
    (name : string) :
  In name (map fst (keep_first seen cols))
  <-> In name (map fst cols) /\ ~ In name seen.
Proof.
  revert seen. induction cols as [|[n vals] cols IH]; intros seen.
  - simpl. tauto.
  - rewrite keep_first_cons.
    destruct (existsb (String.eqb n) seen) eqn:Hdup.
    + apply existsb_eqb_In in Hdup. rewrite IH. simpl.
      split; [intros [H1 H2]; tauto|].
      intros [[->|H1] H2]; [contradiction|]. split; [exact H1|].
      intros [->|H]; contradiction.
    + assert (Hn : ~ In n seen).
      { intros H. apply existsb_eqb_In in H. congruence. }
      simpl. rewrite IH. simpl. split.
      * intros [->|[H1 H2]]; [tauto|]. split; [tauto|]. intros H. apply H2. now right.
      * intros [[->|H1] H2]; [now left|].
        destruct (String.eqb_spec n name) as [->|Hne]; [now left|].
        right. split; [exact H1|]. intros [?|?]; contradiction.
Qed.

Lemma keep_first_NoDup (seen : list string) (cols : list (string * list cell)) :
  NoDup (map fst (keep_first seen cols)).
Proof.
  revert seen. induction cols as [|[n vals] cols IH]; intros seen.
  - apply NoDup_nil_2.
  - rewrite keep_first_cons. destruct (existsb (String.eqb n) seen); [apply IH|].
    simpl. apply NoDup_cons. split; [|apply IH].
    intros H. apply list_elem_of_In, keep_first_names in H as [_ H].
    apply H. now left.
Qed.

Lemma keep_first_column (seen : list string) (cols : list (string * list cell))
    (name : string) :
  ~ In name seen -> column name (keep_first seen cols) = column name cols.
Proof.
  revert seen. induction cols as [|[n vals] cols IH]; intros seen Hseen.
  - reflexivity.
  - rewrite keep_first_cons. unfold column in *.
    destruct (String.eqb_spec n name) as [->|Hne].
    + assert (Hdup : existsb (String.eqb name) seen = false).
      { destruct (existsb (String.eqb name) seen) eqn:E; [|reflexivity].
        apply existsb_eqb_In in E. contradiction. }
      rewrite Hdup. simpl. now rewrite String.eqb_refl.
    + assert (Hnext : ~ In name (n :: seen)) by (intros [?|?]; contradiction).
      apply String.eqb_neq in Hne.
      destruct (existsb (String.eqb n) seen); simpl; rewrite ?Hne; now apply IH.
Qed.

Lemma keep_first_sublist (seen : list string) (cols : list (string * list cell)) :
  sublist (keep_first seen cols) cols.
Proof.
  revert seen. induction cols as [|[n vals] cols IH]; intros seen.
  - constructor.
  - rewrite keep_first_cons. destruct (existsb (String.eqb n) seen).
    + apply sublist_cons, IH.
    + apply sublist_skip, IH.
Qed.

Lemma column_app (name : string) (l1 l2 : list (string * list cell)) :
  column name (l1 ++ l2)
  = match column name l1 with
    | Some v => Some v
    | None => column name l2
    end.
Proof.
  unfold column. induction l1 as [|[n v] l1 IH]; simpl; [reflexivity|].
  destruct (String.eqb n name); [reflexivity | exact IH].
Qed.

Lemma column_reindex (name : string) (n : nat) (cols : list (string * list cell)) :
  column name (map (fun c => (fst c, reindex n (snd c))) cols)
  = reindex n <$> column name cols.
Proof.
  unfold column. induction cols as [|[k v] cols IH]; simpl; [reflexivity|].
  destruct (String.eqb k name); [reflexivity | exact IH].
Qed.

Lemma column_of_name (name : string) (cols : list (string * list cell)) :
  In name (map fst cols) -> exists v, column name cols = Some v.
Proof.
  unfold column. induction cols as [|[k v] cols IH]; simpl; [tauto|].
  destruct (String.eqb_spec k name) as [->|Hne]; [eauto|].
  intros [?|H]; [contradiction | now apply IH].
Qed.

Lemma name_of_column (name : string) (cols : list (string * list cell))
    (v : list cell) :
  column name cols = Some v -> In name (map fst cols).
Proof.
  unfold column. induction cols as [|[k w] cols IH]; simpl; [discriminate|].
  destruct (String.eqb_spec k name) as [->|Hne]; [now left|].
  intros H. right. now apply IH.
Qed.

Lemma NoDup_occurs_once (name : string) (names : list string) :
  NoDup names -> In name names ->
  length (List.filter (String.eqb name) names) = 1.
Proof.
  induction names as [|k names IH]; simpl; [tauto|].
  intros Hnd Hin. apply NoDup_cons in Hnd as [Hk Hnd].
  destruct (String.eqb_spec name k) as [->|Hne].
  - simpl. f_equal.
    assert (Hnone : forall l, ~ In k l -> List.filter (String.eqb k) l = []).
    { induction l as [|y l IHl]; simpl; [reflexivity|]. intros Hy.
      destruct (String.eqb_spec k y) as [->|_]; [exfalso; apply Hy; now left|].
      apply IHl. intros H. apply Hy. now right. }
    rewrite Hnone; [reflexivity|]. intros H. apply Hk. now apply list_elem_of_In.
  - destruct Hin as [->|Hin]; [contradiction | now apply IH].
Qed.

Lemma firstn_reindex (n : nat) (vals : list cell) :
  firstn (length vals) (reindex n vals) = vals.
Proof. unfold reindex. now rewrite firstn_app, Nat.sub_diag, firstn_all, app_nil_r. Qed.

Lemma reindex_full (n : nat) (vals : list cell) :
  n <= length vals -> reindex n vals = vals.
Proof.
  intros H. unfold reindex. replace (n - length vals) with 0 by lia.
  apply app_nil_r.
Qed.

(** What the assembler computes on a sequence that is not empty. *)
Lemma assemble_cons (f : DataFrame) (frames : list DataFrame) :
  let n := list_max (map nrows (f :: frames)) in
  assemble (f :: frames)
  = Ok {| nrows := n; df_cols := keep_first [] (side_by_side n (f :: frames)) |}.
Proof. reflexivity. Qed.

(** C5, as stated, fails on the empty sequence, which the handler
    passes on when no indicator is chosen: nothing is assembled, a
    [ValueError] is raised. *)
Lemma assemble_nothing_raises :
  assemble [] = Raise ValueError /\
  (~ exists df, assemble [] = Ok df) /\
  fst (run census no_indicator initial_state) = Raise ValueError.
Proof.
  split; [reflexivity|]. split; [intros [df H]; discriminate H|].
  vm_compute. reflexivity.
Qed.

(** C5, amended: for every sequence of tables that is not empty the
    assembler returns the columns of all the tables side by side, in
    order, with every column dropped whose label occurs further left: the
    labels kept are distinct and each labelled column is the first one of
    that label.  In particular, for two tables that both have a NAME
    column the result has exactly one, and its values are those of the
    first table (followed by missing values only if the second table has
    more rows). *)
Theorem assemble_keeps_first (frames : list DataFrame) :
  frames <> [] ->
  let n := list_max (map nrows frames) in
  exists df,
    assemble frames = Ok df /\
    nrows df = n /\
    sublist (df_cols df) (side_by_side n frames) /\
    NoDup (column_names df) /\
    (forall name, column name (df_cols df) = column name (side_by_side n frames)) /\
    (forall t1 t2,
        frames = [t1; t2] ->
        In "NAME" (column_names t1) ->
        In "NAME" (column_names t2) ->
        length (List.filter (String.eqb "NAME") (column_names df)) = 1 /\
        exists v1,
          column "NAME" (df_cols t1) = Some v1 /\
          column "NAME" (df_cols df) = Some (reindex n v1) /\
          firstn (length v1) (reindex n v1) = v1 /\
          (n <= length v1 -> reindex n v1 = v1)).
Proof.
  intros Hne n. destruct frames as [|f frames]; [contradiction|].
  eexists. split; [apply assemble_cons|]. fold n. simpl nrows. simpl df_cols.
  unfold column_names. simpl df_cols.
  assert (Hcol : forall name,
             column name (keep_first [] (side_by_side n (f :: frames)))
             = column name (side_by_side n (f :: frames)))
    by (intros name; apply keep_first_column; tauto).
  split; [reflexivity|]. split; [apply keep_first_sublist|].
  split; [apply keep_first_NoDup|]. split; [exact Hcol|].
  intros t1 t2 Hframes Hin1 Hin2.
  destruct (column_of_name "NAME" (df_cols t1) Hin1) as [v1 Hv1].
  assert (Hname : column "NAME" (keep_first [] (side_by_side n (f :: frames)))
                  = Some (reindex n v1)).
  { rewrite Hcol, Hframes. unfold side_by_side. simpl.
    now rewrite column_app, column_reindex, Hv1. }
  split.
  - apply NoDup_occurs_once; [apply keep_first_NoDup|].
    eapply name_of_column. exact Hname.
  - exists v1. split; [exact Hv1|]. split; [exact Hname|].
    split; [apply firstn_reindex | apply reindex_full].
Qed.

Lemma assemble_keeps_first_witness :
  let t1 := {| nrows := 1;
               df_cols := [("NAME", [Some (JStr "Pierce County, Washington")]);
                           ("DP02_0062PE", [Some (JStr "92.1")])] |} in
  let t2 := {| nrows := 1;
               df_cols := [("NAME", [Some (JStr "Pierce County")]);
                           ("S1901_C01_012E", [Some (JStr "91486")])] |} in
  let n := list_max (map nrows [t1; t2]) in
  exists df,
    assemble [t1; t2] = Ok df /\
    nrows df = n /\
    sublist (df_cols df) (side_by_side n [t1; t2]) /\
    NoDup (column_names df) /\
    (forall name, column name (df_cols df) = column name (side_by_side n [t1; t2])) /\
    (forall u1 u2,
        [t1; t2] = [u1; u2] ->
        In "NAME" (column_names u1) ->
        In "NAME" (column_names u2) ->
        length (List.filter (String.eqb "NAME") (column_names df)) = 1 /\
        exists v1,
          column "NAME" (df_cols u1) = Some v1 /\
          column "NAME" (df_cols df) = Some (reindex n v1) /\
          firstn (length v1) (reindex n v1) = v1 /\
          (n <= length v1 -> reindex n v1 = v1)).
Proof.
  intros t1 t2. apply (assemble_keeps_first [t1; t2]). discriminate.
Defined.

(** * Further properties of the pipeline *)

(** ** The response cache of [fetch] *)

Lemma fetch_body_cases (W : Collaborators) (url : string) (s : state) :
  fetch_body W url s
  = (match remote W (length (http_log s)) url with
     | ConnectionFailed => Raise RequestException
     | Response status body =>
         if Nat.leb 400 status && Nat.ltb status 600 then Raise (HTTPError status)
         else match body with
              | None => Raise JSONDecodeError
              | Some j => match pd_DataFrame W j with
                          | Ok t => Ok (drop_duplicate_columns t)
                          | Raise e => Raise e
                          end
              end
     end,
     set_http_log (http_log s ++ [data_request url]) s).
Proof.
  unfold fetch_body, requests_get, raise_for_status. unfold_monad.
  destruct (remote W (length (http_log s)) url) as [|status body]; [reflexivity|].
  cbn [fst snd]. destruct (Nat.leb 400 status && Nat.ltb status 600); [reflexivity|].
  destruct body as [j|]; [|reflexivity]. cbn [response_json].
  destruct (pd_DataFrame W j); reflexivity.
Qed.

(** The two ways [fetch] returns a table. *)
Lemma fetch_Ok (W : Collaborators) (url : string) (s s1 : state) (df : DataFrame) :
  fetch W url s = (Ok df, s1) ->
  (dict_get (fetch_cache s) url = Some df /\
   s1 = set_fetch_cache (lru_touch url df (fetch_cache s)) s) \/
  (dict_get (fetch_cache s) url = None /\
   data_reply_error W (remote W (length (http_log s)) url) = None /\
   NoDup (column_names df) /\
   s1 = set_fetch_cache (lru_put url df (fetch_cache s))
          (set_http_log (http_log s ++ [data_request url]) s)).
Proof.
  unfold fetch. destruct (dict_get (fetch_cache s) url) as [cached|] eqn:Hc.
  - intros [= -> <-]. now left.
  - rewrite fetch_body_cases. unfold data_reply_error.
    destruct (remote W (length (http_log s)) url) as [|status body]; [discriminate|].
    destruct (Nat.leb 400 status && Nat.ltb status 600); [discriminate|].
    destruct body as [j|]; [|discriminate].
    destruct (pd_DataFrame W j) as [t|e]; [|discriminate].
    intros [= <- <-]. right. repeat split. apply keep_first_NoDup.
Qed.

(** A call of [fetch] that raises was a miss, has issued its request and
    has stored nothing. *)
Lemma fetch_Raise (W : Collaborators) (url : string) (s s1 : state) (e : exn) :
  fetch W url s = (Raise e, s1) ->
  dict_get (fetch_cache s) url = None /\
  data_reply_error W (remote W (length (http_log s)) url) = Some e /\
  s1 = set_http_log (http_log s ++ [data_request url]) s.
Proof.
  unfold fetch. destruct (dict_get (fetch_cache s) url) as [cached|] eqn:Hc;
    [discriminate|].
  rewrite fetch_body_cases. unfold data_reply_error.
  destruct (remote W (length (http_log s)) url) as [|status body].
  - intros [= <- <-]. auto.
  - destruct (Nat.leb 400 status && Nat.ltb status 600); [intros [= <- <-]; auto|].
    destruct body as [j|]; [|intros [= <- <-]; auto].
    destruct (pd_DataFrame W j) as [t|e']; [discriminate|].
    intros [= <- <-]. auto.
Qed.

Lemma fetch_stored (W : Collaborators) (url : string) (s s1 : state) (df : DataFrame) :
  fetch W url s = (Ok df, s1) -> dict_get (fetch_cache s1) url = Some df.
Proof.
  intros H. apply fetch_Ok in H as [[_ ->]|(_ & _ & _ & ->)];
    cbn [fetch_cache set_fetch_cache lru_touch lru_put lru_maxsize firstn dict_get];
    now rewrite String.eqb_refl.
Qed.

(** The cache after a call of [fetch]. *)
Lemma fetch_cache_after (W : Collaborators) (url : string) (s : state) :
  fetch_cache (snd (fetch W url s))
  = match dict_get (fetch_cache s) url with
    | Some df => lru_touch url df (fetch_cache s)
    | None =>
        match fst (fetch W url s) with
        | Ok df => lru_put url df (fetch_cache s)
        | Raise _ => fetch_cache s
        end
    end.
Proof.
  destruct (fetch W url s) as [[df|e] s1] eqn:H; cbn [fst snd].
  - apply fetch_Ok in H as [[Hc ->]|(Hc & _ & _ & ->)]; now rewrite Hc.
  - apply fetch_Raise in H as (Hc & _ & ->). now rewrite Hc.
Qed.

Lemma cached_within_get (n : nat) (url : string) (df : DataFrame)
    (cache : list (string * DataFrame)) :
  cached_within n url df cache -> dict_get cache url = Some df.
Proof.
  intros (pre & post & -> & Hpre & _).
  induction pre as [|[k v] pre IH]; cbn [app dict_get].
  - now rewrite String.eqb_refl.
  - destruct (String.eqb_spec k url) as [->|Hne].
    + exfalso. apply Hpre. now left.
    + apply IH. intros H. apply Hpre. now right.
Qed.

Lemma filter_other_keys {V} (u url : string) (l : list (string * V)) :
  ~ In url (dict_keys l) ->
  ~ In url (dict_keys (List.filter (fun e => negb (String.eqb (fst e) u)) l)).
Proof.
  intros H Hin. apply H. unfold dict_keys in *.
  apply in_map_iff in Hin as (e & He & Hin). apply List.filter_In in Hin as [Hin _].
  apply in_map_iff. eauto.
Qed.

Lemma filter_length_le {A} (f : A -> bool) (l : list A) :
  length (List.filter f l) <= length l.
Proof.
  induction l as [|a l IH]; simpl; [lia|]. destruct (f a); simpl; lia.
Qed.

(** One more call of [fetch] puts at most one more entry in front of a
    cached table, and keeps the table while there is room. *)
Lemma fetch_ages (W : Collaborators) (u url : string) (df : DataFrame)
    (n : nat) (s : state) :
  cached_within n url df (fetch_cache s) ->
  S n < lru_maxsize ->
  cached_within (S n) url df (fetch_cache (snd (fetch W u s))).
Proof.
  intros Hin Hroom. rewrite fetch_cache_after.
  destruct Hin as (pre & post & Hcache & Hpre & Hlen).
  assert (Hkeep : cached_within (S n) url df (fetch_cache s)).
  { exists pre, post. repeat split; [exact Hcache | exact Hpre | lia]. }
  destruct (dict_get (fetch_cache s) u) as [d|] eqn:Hu.
  - destruct (String.eqb_spec u url) as [->|Hne].
    + assert (Hd : dict_get (fetch_cache s) url = Some df)
        by (apply (cached_within_get n); exists pre, post; auto).
      assert (d = df) by congruence. subst d.
      exists [], (List.filter (fun e => negb (String.eqb (fst e) url)) (fetch_cache s)).
      repeat split; [tauto | simpl; lia].
    + unfold lru_touch. rewrite Hcache, List.filter_app. cbn [List.filter fst].
      apply String.eqb_neq in Hne. rewrite String.eqb_sym, Hne. cbn [negb].
      exists ((u, d) :: List.filter (fun e => negb (String.eqb (fst e) u)) pre),
             (List.filter (fun e => negb (String.eqb (fst e) u)) post).
      repeat split.
      * intros [Heq|Hin]; [apply String.eqb_neq in Hne; now subst|].
        now apply (filter_other_keys u url pre).
      * cbn [length]. pose proof (filter_length_le
          (fun e : string * DataFrame => negb (String.eqb (fst e) u)) pre). lia.
  - destruct (fst (fetch W u s)) as [d|e]; [|exact Hkeep].
    assert (Hne : u <> url).
    { intros ->. rewrite (cached_within_get n url df (fetch_cache s)) in Hu;
        [discriminate | exists pre, post; auto]. }
    unfold lru_put. rewrite Hcache.
    change ((u, d) :: pre ++ (url, df) :: post)
      with (((u, d) :: pre) ++ (url, df) :: post).
    rewrite List.firstn_app. cbn [length].
    rewrite List.firstn_all2 by (cbn [length]; lia).
    destruct (lru_maxsize - S (length pre)) as [|k] eqn:Hk; [lia|].
    cbn [firstn]. exists ((u, d) :: pre), (firstn k post).
    repeat split.
    + intros [Heq|Hin]; [now subst | contradiction].
    + cbn [length]. lia.
Qed.

Lemma fetch_each_ages (W : Collaborators) (others : list string) (url : string)
    (df : DataFrame) (n : nat) (s : state) :
  cached_within n url df (fetch_cache s) ->
  n + length others < lru_maxsize ->
  cached_within (n + length others) url df (fetch_cache (fetch_each W others s)).
Proof.
  revert n s. induction others as [|u others IH]; intros n s Hin Hroom.
  - cbn [fetch_each length]. now rewrite Nat.add_0_r.
  - cbn [fetch_each length] in *.
    replace (n + S (length others)) with (S n + length others) by lia.
    apply IH; [|lia]. apply fetch_ages; [exact Hin | lia].
Qed.

(** X1: a table that [fetch] has returned is served from the cache, the
    same table and without any request, after up to 255 further calls of
    [fetch], whatever their URLs, their outcomes and the answers of the
    remote site. *)
Theorem fetch_served_from_cache (W : Collaborators) (url : string)
    (s s1 : state) (df : DataFrame) :
  fetch W url s = (Ok df, s1) ->
  forall W' others,
    length others < lru_maxsize ->
    let s2 := fetch_each W' others s1 in
    fst (fetch W' url s2) = Ok df /\
    requests_since s2 (snd (fetch W' url s2)) = [].
Proof.
  intros Hfetch W' others Hlen s2.
  assert (H0 : cached_within 0 url df (fetch_cache s1)).
  { apply fetch_Ok in Hfetch as [[_ ->]|(_ & _ & _ & ->)].
    - eexists [], _. repeat split; [tauto | cbn [length]; lia].
    - unfold lru_put, lru_maxsize. cbn [fetch_cache set_fetch_cache firstn].
      eexists [], _. repeat split; [tauto | cbn [length]; lia]. }
  pose proof (fetch_each_ages W' others url df 0 s1 H0 Hlen) as Hin.
  apply cached_within_get in Hin. fold s2 in Hin.
  destruct (fetch_state W' url s2) as (_ & _ & _ & _ & Hh). rewrite Hin in Hh.
  split.
  - unfold fetch. now rewrite Hin.
  - now apply requests_since_same.
Qed.

Lemma fetch_served_from_cache_witness :
  let url := simple_url "DP02_0062PE" "profile" county_geo in
  let s1 := snd (fetch census url initial_state) in
  let others := [simple_url "S1901_C01_012E" "subject" county_geo;
                 simple_url "DP03_0009PE" "profile" county_geo] in
  let s2 := fetch_each census_down others s1 in
  fst (fetch census_down url s2) = fst (fetch census url initial_state) /\
  requests_since s2 (snd (fetch census_down url s2)) = [].
Proof.
  intros url s1 others.
  destruct (fetch census url initial_state) as [[df|e] s0] eqn:H;
    [|vm_compute in H; discriminate H].
  apply (fetch_served_from_cache census url initial_state s0 df H census_down others).
  unfold lru_maxsize. cbn [others length]. lia.
Defined.

#[local] Instance fetch_wf_kept_preorder : PreOrder fetch_wf_kept.
Proof.
  split.
  - intros s H. exact H.
  - intros s1 s2 s3 H12 H23 H. auto.
Qed.

Lemma fetch_wf_same (s s' : state) :
  fetch_cache s' = fetch_cache s -> fetch_wf_kept s s'.
Proof. intros H. unfold fetch_wf_kept, fetch_cache_wf. now rewrite H. Qed.

Lemma dict_get_Some_key {V} (d : dict V) (k : string) (v : V) :
  dict_get d k = Some v -> In k (dict_keys d).
Proof.
  intros H. apply dict_get_In in H. change k with (fst (k, v)).
  now apply in_map.
Qed.

Lemma filter_key_shorter {V} (k : string) (l : list (string * V)) :
  In k (dict_keys l) ->
  S (length (List.filter (fun e => negb (String.eqb (fst e) k)) l)) <= length l.
Proof.
  induction l as [|[k' v] l IH]; cbn [dict_keys map In List.filter fst length];
    [tauto|].
  destruct (String.eqb_spec k' k) as [->|Hne]; cbn [negb length].
  - intros _. pose proof (filter_length_le
      (fun e : string * V => negb (String.eqb (fst e) k)) l). lia.
  - intros [?|Hin]; [contradiction|]. specialize (IH Hin). lia.
Qed.

Lemma filter_dict_NoDup {V} (f : string * V -> bool) (l : list (string * V)) :
  NoDup (dict_keys l) -> NoDup (dict_keys (List.filter f l)).
Proof. apply filter_keys_NoDup. Qed.

Lemma filter_drops_key {V} (k : string) (l : list (string * V)) :
  ~ In k (dict_keys (List.filter (fun e => negb (String.eqb (fst e) k)) l)).
Proof.
  unfold dict_keys. intros Hin. apply in_map_iff in Hin as ([k' v] & Hk & Hin).
  apply List.filter_In in Hin as [_ Hf]. cbn [fst] in *. subst k'.
  now rewrite String.eqb_refl in Hf.
Qed.

Lemma lru_touch_wf (url : string) (df : DataFrame) (s : state) :
  fetch_cache_wf s ->
  dict_get (fetch_cache s) url = Some df ->
  fetch_cache_wf (set_fetch_cache (lru_touch url df (fetch_cache s)) s).
Proof.
  intros (Hlen & Hnd & Hcols) Hget. unfold fetch_cache_wf, lru_touch.
  cbn [fetch_cache set_fetch_cache]. split; [|split].
  - cbn [length]. pose proof (filter_key_shorter url (fetch_cache s)
                               (dict_get_Some_key _ _ _ Hget)). lia.
  - cbn [dict_keys map fst]. apply NoDup_cons. split.
    + intros H. apply list_elem_of_In in H. revert H. apply filter_drops_key.
    + now apply filter_dict_NoDup.
  - apply Forall_cons. split.
    + apply dict_get_In in Hget. rewrite Forall_forall in Hcols.
      apply (Hcols (url, df)). now apply list_elem_of_In.
    + rewrite Forall_forall in *. intros e He. apply Hcols.
      apply list_elem_of_In in He. apply List.filter_In in He as [He _].
      now apply list_elem_of_In.
Qed.

Lemma lru_put_wf (url : string) (df : DataFrame) (s0 s : state) :
  fetch_cache_wf s0 ->
  fetch_cache s = fetch_cache s0 ->
  dict_get (fetch_cache s0) url = None ->
  NoDup (column_names df) ->
  fetch_cache_wf (set_fetch_cache (lru_put url df (fetch_cache s)) s).
Proof.
  intros (Hlen & Hnd & Hcols) -> Hget Hdf. unfold fetch_cache_wf, lru_put.
  cbn [fetch_cache set_fetch_cache].
  assert (Hall : NoDup (dict_keys ((url, df) :: fetch_cache s0)) /\
                 Forall (fun e => NoDup (column_names (snd e)))
                        ((url, df) :: fetch_cache s0)).
  { split.
    - cbn [dict_keys map fst]. apply NoDup_cons. split; [|exact Hnd].
      intros H. apply list_elem_of_In in H. now apply dict_get_None_keys in Hget.
    - apply Forall_cons. now split. }
  destruct Hall as [Hnd' Hcols']. split; [|split].
  - apply List.firstn_le_length.
  - unfold dict_keys. rewrite <- List.firstn_map.
    eapply sublist_NoDup; [exact Hnd' | apply sublist_take].
  - apply Forall_take. exact Hcols'.
Qed.

Lemma fetch_wf (W : Collaborators) (url : string) :
  preserves fetch_wf_kept (fetch W url).
Proof.
  intros s Hwf. destruct (fetch W url s) as [[df|e] s1] eqn:H; cbn [snd].
  - apply fetch_Ok in H as [[Hc ->]|(Hc & _ & Hdf & ->)].
    + now apply lru_touch_wf.
    + now apply (lru_put_wf url df s
                   (set_http_log (http_log s ++ [data_request url]) s)).
  - apply fetch_Raise in H as (_ & _ & ->). exact Hwf.
Qed.

Lemma get_labels_wf_fetch (W : Collaborators) (g : string) :
  preserves fetch_wf_kept (get_labels W g).
Proof.
  intros s. destruct (get_labels W g s) as [[labels|e] s'] eqn:H; cbn [snd].
  - apply get_labels_Ok in H as [[_ ->]|(_ & _ & ->)]; now apply fetch_wf_same.
  - apply get_labels_Raise in H as [_ ->]. now apply fetch_wf_same.
Qed.

Ltac fetch_wf_step :=
  preserves_step ltac:(first
    [ apply get_labels_wf_fetch | apply fetch_wf
    | apply preserves_modify; intros ?; apply fetch_wf_same; reflexivity ]).

Lemma select_vars_wf_fetch (W : Collaborators) g frag a x r :
  preserves fetch_wf_kept (select_vars W g frag a x r).
Proof. unfold select_vars. repeat fetch_wf_step. Qed.

Lemma pull_simple_wf_fetch (W : Collaborators) code ds geo :
  preserves fetch_wf_kept (pull_simple W code ds geo).
Proof. unfold pull_simple, log_call, URL_HITS_append. repeat fetch_wf_step. Qed.

Lemma pull_detailed_wf_fetch (W : Collaborators) ind geo a x r :
  preserves fetch_wf_kept (pull_detailed W ind geo a x r).
Proof.
  unfold pull_detailed, log_call, URL_HITS_append. fetch_wf_step; [fetch_wf_step|].
  destruct (dict_get DETAILED ind) as [[[g frag] univ]|];
    repeat (first [apply select_vars_wf_fetch | fetch_wf_step]).
Qed.

Lemma pull_all_wf_fetch (W : Collaborators) ui geo inds frames :
  preserves fetch_wf_kept (pull_all W ui geo inds frames).
Proof.
  revert frames. induction inds as [|ind inds IH]; intros frames; cbn [pull_all].
  - fetch_wf_step.
  - fetch_wf_step; [|apply IH]. unfold pull_indicator.
    destruct (dict_has DETAILED ind && (want_age ui || want_sex ui || want_race ui)).
    + apply pull_detailed_wf_fetch.
    + destruct (dict_get BASE_VARS ind) as [[code ds]|];
        [apply pull_simple_wf_fetch | fetch_wf_step].
Qed.

Lemma run_wf_fetch (W : Collaborators) (ui : Inputs) :
  preserves fetch_wf_kept (run W ui).
Proof.
  unfold run, st_error, st_stop. fetch_wf_step; [fetch_wf_step|].
  destruct (geo_clause (zcta_list ui) (geo_level ui)) as [[|c geo]|];
    repeat (first [apply pull_all_wf_fetch | fetch_wf_step]).
Qed.

Lemma call_step_fetch_wf (s1 s2 : state) : call_step s1 s2 -> fetch_wf_kept s1 s2.
Proof.
  intros [W ind geo a x r s0|W code ds geo s0|W g frag a x r s0
         |W g s0|W url s0|s0|url s0|msg s0].
  - apply pull_detailed_wf_fetch.
  - apply pull_simple_wf_fetch.
  - apply select_vars_wf_fetch.
  - apply get_labels_wf_fetch.
  - apply fetch_wf.
  - now apply fetch_wf_same.
  - now apply fetch_wf_same.
  - now apply fetch_wf_same.
Qed.

Lemma initial_fetch_cache_wf : fetch_cache_wf initial_state.
Proof.
  unfold fetch_cache_wf, initial_state, lru_maxsize. cbn [fetch_cache length].
  repeat split; [lia | apply NoDup_nil_2 | constructor].
Qed.

Lemma rerun_fetch_cache_wf (s : state) : fetch_cache_wf (rerun s).
Proof. exact initial_fetch_cache_wf. Qed.

Lemma step_fetch_wf (s1 s2 : state) : step s1 s2 -> fetch_wf_kept s1 s2.
Proof.
  intros [s0 s' Hcall|W ui pressed s0].
  - now apply call_step_fetch_wf.
  - intros _. rewrite script_from_rerun.
    destruct pressed; [|apply rerun_fetch_cache_wf].
    apply (run_wf_fetch W ui (rerun s0)), rerun_fetch_cache_wf.
Qed.

Lemma reachable_fetch_cache_wf (s : state) :
  rtc step initial_state s -> fetch_cache_wf s.
Proof.
  intros Hsteps. pose proof initial_fetch_cache_wf as Hinit. revert Hinit.
  induction Hsteps as [s0|s1 s2 s3 H12 _ IH]; [auto|].
  intros H1. apply IH. now apply (step_fetch_wf s1 s2).
Qed.

Lemma fetch_each_steps (W : Collaborators) (urls : list string) (s : state) :
  rtc step s (fetch_each W urls s).
Proof.
  revert s. induction urls as [|u urls IH]; intros s; cbn [fetch_each].
  - apply rtc_refl.
  - eapply rtc_l; [apply step_call, call_fetch | apply IH].
Qed.

(** X2: the response cache stays within its capacity of 256 entries,
    holds each URL at most once and only tables with distinct column
    labels: this holds at the start and is kept by everything the
    process does. *)
Theorem fetch_cache_bounded (s : state) :
  rtc step initial_state s ->
  length (fetch_cache s) <= 256 /\
  NoDup (dict_keys (fetch_cache s)) /\
  Forall (fun e => NoDup (column_names (snd e))) (fetch_cache s).
Proof. apply reachable_fetch_cache_wf. Qed.

Lemma fetch_cache_bounded_witness :
  let s := snd (run census county_breakdown_by_age initial_state) in
  length (fetch_cache s) <= 256 /\
  NoDup (dict_keys (fetch_cache s)) /\
  Forall (fun e => NoDup (column_names (snd e))) (fetch_cache s).
Proof.
  apply fetch_cache_bounded.
  apply rtc_once. exact (step_script census county_breakdown_by_age true initial_state).
Defined.

(** X3: every table [fetch] returns, and so every table [pull_simple]
    returns, has pairwise distinct column labels, whether it was built
    from a reply or taken from the cache. *)
Theorem fetch_columns_distinct (W : Collaborators) (s : state) :
  fetch_cache_wf s ->
  (forall url df, fst (fetch W url s) = Ok df -> NoDup (column_names df)) /\
  (forall code ds geo df,
      fst (pull_simple W code ds geo s) = Ok df -> NoDup (column_names df)).
Proof.
  intros Hwf.
  assert (Hfetch : forall s0 url df,
             fetch_cache s0 = fetch_cache s ->
             fst (fetch W url s0) = Ok df -> NoDup (column_names df)).
  { intros s0 url df Hsame H.
    destruct (fetch W url s0) as [r s1] eqn:Hf. cbn [fst] in H. subst r.
    apply fetch_Ok in Hf as [[Hc _]|(_ & _ & Hdf & _)]; [|exact Hdf].
    rewrite Hsame in Hc. destruct Hwf as (_ & _ & Hcols).
    rewrite Forall_forall in Hcols. apply dict_get_In in Hc.
    apply (Hcols (url, df)). now apply list_elem_of_In. }
  split.
  - intros url df. now apply Hfetch.
  - intros code ds geo df. unfold pull_simple. unfold_monad. cbn [fst snd].
    now apply Hfetch.
Qed.

Lemma fetch_columns_distinct_witness :
  (forall url df, fst (fetch census url initial_state) = Ok df ->
                  NoDup (column_names df)) /\
  (forall code ds geo df,
      fst (pull_simple census code ds geo initial_state) = Ok df ->
      NoDup (column_names df)).
Proof. apply (fetch_columns_distinct census initial_state), initial_fetch_cache_wf. Defined.

Lemma firstn_drop_last {A} (a x : A) (front : list A) :
  firstn (length (front ++ [x])) (a :: front ++ [x]) = a :: front.
Proof.
  rewrite length_app, Nat.add_1_r. cbn [firstn]. f_equal.
  rewrite List.firstn_app, Nat.sub_diag, List.firstn_all. cbn [firstn].
  apply app_nil_r.
Qed.




(** X5: a call of [fetch] that raises has issued exactly one request and
    stored nothing, so the next call for the same URL goes to the network
    again.  The exception is that of the transport, else an [HTTPError]
    for a status from 400 to 599, else that of the JSON decoding, else
    that of the table construction, in this order. *)
Theorem fetch_failure_not_cached (W : Collaborators) (url : string)
    (s s1 : state) (e : exn) :
  fetch W url s = (Raise e, s1) ->
  fetch_cache s1 = fetch_cache s /\
  requests_since s s1 = [data_request url] /\
  data_reply_error W (remote W (length (http_log s)) url) = Some e /\
  forall W', requests_since s1 (snd (fetch W' url s1)) = [data_request url].
Proof.
  intros H. apply fetch_Raise in H as (Hmiss & Herr & ->).
  cbn [fetch_cache set_http_log]. repeat split.
  - now apply requests_since_app.
  - exact Herr.
  - intros W'.
    destruct (fetch_state W' url (set_http_log (http_log s ++ [data_request url]) s))
      as (_ & _ & _ & _ & Hh).
    cbn [fetch_cache set_http_log] in Hh. rewrite Hmiss in Hh.
    now apply requests_since_app.
Qed.

Lemma fetch_failure_not_cached_witness :
  let url := simple_url "DP02_0062PE" "profile" county_geo in
  let s1 := snd (fetch census_down url initial_state) in
  fetch_cache s1 = fetch_cache initial_state /\
  requests_since initial_state s1 = [data_request url] /\
  data_reply_error census_down (remote census_down (length (http_log initial_state)) url)
    = Some (HTTPError 503) /\
  forall W', requests_since s1 (snd (fetch W' url s1)) = [data_request url].
Proof.
  intros url s1.
  apply (fetch_failure_not_cached census_down url initial_state s1 (HTTPError 503)).
  vm_compute. reflexivity.
Defined.

(** ** What [get_labels] makes of a reply *)

Lemma dict_set_fresh {V} (k : string) (v : V) (d : dict V) :
  ~ In k (dict_keys d) -> dict_set k v d = d ++ [(k, v)].
Proof.
  induction d as [|[k' v'] d IH]; cbn [dict_set dict_keys map fst In app];
    [reflexivity|].
  intros H. destruct (String.eqb_spec k' k) as [->|Hne]; [tauto|].
  rewrite IH by tauto. reflexivity.
Qed.

Lemma label_comprehension_map (items acc : dict json) :
  NoDup (dict_keys (acc ++ items)) ->
  forallb (fun kv => has_label (snd kv)) items = true ->
  label_comprehension items acc
  = Ok (acc ++ map (fun kv => (fst kv, label_of (snd kv))) items).
Proof.
  revert acc. induction items as [|[k v] items IH]; intros acc Hnd Hall.
  - cbn [label_comprehension map]. now rewrite app_nil_r.
  - cbn [forallb snd] in Hall. apply andb_true_iff in Hall as [Hv Hall].
    cbn [label_comprehension map fst snd]. unfold has_label in Hv.
    unfold label_of at 1. destruct (py_getitem v "label") as [lab|e];
      [|discriminate]. cbn [rbind].
    assert (Hfresh : ~ In k (dict_keys acc)).
    { unfold dict_keys in *. rewrite map_app in Hnd.
      apply NoDup_app in Hnd as (_ & Hdisj & _). intros Hin.
      apply (Hdisj k); apply list_elem_of_In; [exact Hin | now left]. }
    rewrite dict_set_fresh by exact Hfresh. rewrite IH.
    + now rewrite <- app_assoc.
    + unfold dict_keys in *. rewrite !map_app in *. cbn [map fst] in *.
      now rewrite <- app_assoc.
    + exact Hall.
Qed.

Lemma label_comprehension_missing (items acc : dict json) :
  forallb (fun kv => has_label (snd kv)) items = false ->
  exists e, label_comprehension items acc = Raise e /\
            (e = KeyError "label" \/ e = TypeError).
Proof.
  revert acc. induction items as [|[k v] items IH]; intros acc Hall;
    [discriminate|].
  cbn [forallb snd] in Hall. cbn [label_comprehension]. unfold has_label in Hall.
  destruct (py_getitem v "label") as [lab|e] eqn:Hv; cbn [rbind].
  - apply IH. exact Hall.
  - exists e. split; [reflexivity|]. unfold py_getitem in Hv.
    destruct v as [| | | | |fields]; try (injection Hv as <-; now right).
    destruct (dict_get fields "label"); [discriminate|].
    injection Hv as <-. now left.
Qed.

(** X6: on a reply whose body is an object with a "variables" object,
    whatever its status, [get_labels] on a group not cached yet returns
    the variables in the order of the body, each with the value of its
    "label" field and nothing of its other fields; it raises if a
    variable has no "label". *)
Theorem get_labels_reads_labels (W : Collaborators) (g : string) (s : state)
    (status : nat) (members items : dict json) :
  labels_cache s !! g = None ->
  remote W (length (http_log s)) (meta_url g) = Response status (Some (JObj members)) ->
  dict_get members "variables" = Some (JObj items) ->
  NoDup (dict_keys items) ->
  (forallb (fun kv => has_label (snd kv)) items = true ->
   fst (get_labels W g s) = Ok (map (fun kv => (fst kv, label_of (snd kv))) items)) /\
  (forallb (fun kv => has_label (snd kv)) items = false ->
   fst (get_labels W g s) = Raise (KeyError "label")
   \/ fst (get_labels W g s) = Raise TypeError).
Proof.
  intros Hmiss Hreply Hvars Hnd.
  assert (Hbody : get_labels_body W g s
                  = (label_comprehension items [],
                     set_http_log (http_log s ++ [meta_request g]) s)).
  { unfold get_labels_body, requests_get. unfold_monad. rewrite Hreply.
    cbn [snd response_json py_getitem]. rewrite Hvars. reflexivity. }
  unfold get_labels. rewrite Hmiss, Hbody. split.
  - intros Hall. rewrite (label_comprehension_map items []); [reflexivity| |exact Hall].
    exact Hnd.
  - intros Hall. destruct (label_comprehension_missing items [] Hall)
      as (e & -> & [->| ->]); [now left | now right].
Qed.

Lemma get_labels_reads_labels_witness :
  (forallb (fun kv => has_label (snd kv)) two_variables = true ->
   fst (get_labels census_two_variables "S1810" initial_state)
   = Ok (map (fun kv => (fst kv, label_of (snd kv))) two_variables)) /\
  (forallb (fun kv => has_label (snd kv)) two_variables = false ->
   fst (get_labels census_two_variables "S1810" initial_state) = Raise (KeyError "label")
   \/ fst (get_labels census_two_variables "S1810" initial_state) = Raise TypeError).
Proof.
  apply (get_labels_reads_labels census_two_variables "S1810" initial_state 200
           [("variables", JObj two_variables)]).
  - reflexivity.
  - reflexivity.
  - reflexivity.
  - apply NoDup_ListNoDup. repeat constructor; simpl; intuition discriminate.
Defined.

Lemma get_labels_body_error (W : Collaborators) (g : string) (s s1 : state) (e : exn) :
  get_labels_body W g s = (Raise e, s1) ->
  In e [RequestException; JSONDecodeError; TypeError; AttributeError;
        KeyError "variables"; KeyError "label"].
Proof.
  unfold get_labels_body, requests_get. unfold_monad.
  destruct (remote W (length (http_log s)) (meta_url g)) as [|status [j|]];
    cbn [snd response_json].
  - intros [= <- _]. simpl. tauto.
  - destruct j as [| | | | |members]; cbn [py_getitem];
      try (intros [= <- _]; simpl; tauto).
    destruct (dict_get members "variables") as [vars|];
      [|intros [= <- _]; simpl; tauto].
    destruct vars as [| | | | |items]; cbn [py_items];
      try (intros [= <- _]; simpl; tauto).
    destruct (forallb (fun kv => has_label (snd kv)) items) eqn:Hall.
    + assert (Hok : exists labels, label_comprehension items [] = Ok labels).
      { clear -Hall. generalize (@nil (string * json)) as acc.
        induction items as [|[k v] items IH]; intros acc; cbn [label_comprehension].
        - eauto.
        - cbn [forallb snd] in Hall. apply andb_true_iff in Hall as [Hv Hall].
          unfold has_label in Hv. destruct (py_getitem v "label"); [|discriminate].
          cbn [rbind]. now apply IH. }
      destruct Hok as [labels ->]. discriminate.
    + destruct (label_comprehension_missing items [] Hall) as (e' & -> & [->| ->]);
        intros [= <- _]; simpl; tauto.
  - intros [= <- _]. simpl. tauto.
Qed.

(** X7: a call of [get_labels] that raises has issued exactly one
    request and cached nothing, so the next call for the group goes to
    the network again; the exception is that of the transport, of the
    JSON decoding, or a [TypeError], [AttributeError] or [KeyError] met
    while reading the body, never one for the status of the reply. *)
Theorem get_labels_failure_not_cached (W : Collaborators) (g : string)
    (s s1 : state) (e : exn) :
  get_labels W g s = (Raise e, s1) ->
  labels_cache s1 = labels_cache s /\
  requests_since s s1 = [meta_request g] /\
  In e [RequestException; JSONDecodeError; TypeError; AttributeError;
        KeyError "variables"; KeyError "label"] /\
  forall W', requests_since s1 (snd (get_labels W' g s1)) = [meta_request g].
Proof.
  intros H. pose proof (get_labels_Raise W g s s1 e H) as [Hmiss ->].
  cbn [labels_cache set_http_log]. repeat split.
  - now apply requests_since_app.
  - unfold get_labels in H. rewrite Hmiss in H.
    destruct (get_labels_body W g s) as [[labels|e'] s2] eqn:Hb; [discriminate|].
    injection H as -> _. eapply get_labels_body_error. exact Hb.
  - intros W'. set (s1 := set_http_log (http_log s ++ [meta_request g]) s).
    destruct (get_labels W' g s1) as [[labels|e'] s2] eqn:H2; cbn [snd].
    + apply get_labels_Ok in H2 as [[Hc _]|(_ & _ & ->)].
      * subst s1. cbn [labels_cache set_http_log] in Hc. congruence.
      * now apply requests_since_app.
    + apply get_labels_Raise in H2 as [_ ->]. now apply requests_since_app.
Qed.

Lemma get_labels_failure_not_cached_witness :
  let s1 := snd (get_labels census_no_metadata "S1810" initial_state) in
  labels_cache s1 = labels_cache initial_state /\
  requests_since initial_state s1 = [meta_request "S1810"] /\
  In JSONDecodeError [RequestException; JSONDecodeError; TypeError; AttributeError;
                      KeyError "variables"; KeyError "label"] /\
  forall W', requests_since s1 (snd (get_labels W' "S1810" s1)) = [meta_request "S1810"].
Proof.
  intros s1.
  apply (get_labels_failure_not_cached census_no_metadata "S1810" initial_state s1
           JSONDecodeError).
  reflexivity.
Defined.

(** ** The selector on labels of any kind, and under more flags *)

Lemma keep_var_container (a x r : bool) (lab : json) :
  match lab with JStr _ | JArr _ | JObj _ => True | _ => False end ->
  exists keep, keep_var a x r lab = Ok keep.
Proof.
  intros Hin. unfold keep_var.
  assert (Hany : forall n, exists b, py_in n lab = Ok b).
  { intros n. destruct lab; try contradiction; cbn [py_in]; eauto. }
  destruct (Hany "!!AGE!!") as [b1 H1], (Hany "!!SEX!!") as [b2 H2],
    (Hany "!!RACE") as [b3 H3], (Hany "!!ETHNICITY") as [b4 H4].
  rewrite H1, H2, H3, H4.
  destruct a, x, r, b1, b2, b3, b4; cbn; eauto.
Qed.

Lemma py_in_unusable (needle : string) (lab : json) :
  py_in needle lab = Raise TypeError
  \/ exists found, py_in needle lab = Ok found.
Proof. destruct lab; cbn [py_in]; eauto. Qed.

Lemma select_loop_outcome (frag : string) (a x r : bool) (labels : dict json)
    (out : list string) :
  if existsb unusable_label labels
  then select_loop frag a x r labels out = Raise TypeError
  else exists out', select_loop frag a x r labels out = Ok out'.
Proof.
  revert out. induction labels as [|[var lab] labels IH]; intros out.
  - cbn. eauto.
  - cbn [existsb select_loop]. unfold unusable_label at 1. cbn [fst snd].
    destruct (endswith var "E"); cbn [negb andb orb]; [|apply IH].
    destruct lab as [|b|n|t|xs|ms]; cbn [py_in rbind orb]; try reflexivity.
    + destruct (str_in frag t); cbn [negb]; [|apply IH].
      destruct (keep_var_container a x r (JStr t) I) as [k ->].
      cbn [rbind]. apply IH.
    + match goal with |- context [negb ?b] => destruct b end; cbn [negb]; [|apply IH].
      destruct (keep_var_container a x r (JArr xs) I) as [k ->].
      cbn [rbind]. apply IH.
    + match goal with |- context [negb ?b] => destruct b end; cbn [negb]; [|apply IH].
      destruct (keep_var_container a x r (JObj ms) I) as [k ->].
      cbn [rbind]. apply IH.
Qed.

(** X8: once the metadata is at hand, [select_vars] raises exactly when
    some estimate code has a label that is neither a string nor a
    container, and then a [TypeError]; otherwise it returns a non-empty
    list, in the same state. *)
Theorem select_vars_raises_on_unusable_label (W : Collaborators)
    (g frag : string) (a x r : bool) (s s' : state) (labels : dict json) :
  get_labels W g s = (Ok labels, s') ->
  (existsb unusable_label labels = true ->
   select_vars W g frag a x r s = (Raise TypeError, s')) /\
  (existsb unusable_label labels = false ->
   exists out, select_vars W g frag a x r s = (Ok out, s') /\ out <> []).
Proof.
  intros Hget. pose proof (select_loop_outcome frag a x r labels []) as Hloop.
  unfold select_vars. unfold_monad. rewrite Hget. split; intros Hun; rewrite Hun in Hloop.
  - now rewrite Hloop.
  - destruct Hloop as [out' ->]. destruct out' as [|v vs]; eexists; split;
      try reflexivity; discriminate.
Qed.

Lemma select_vars_raises_on_unusable_label_witness :
  let s' := snd (get_labels census_numeric_label "S1810" initial_state) in
  (existsb unusable_label [("S1810_C01_001E", JNum 5)] = true ->
   select_vars census_numeric_label "S1810" "With a disability" true false false
     initial_state = (Raise TypeError, s')) /\
  (existsb unusable_label [("S1810_C01_001E", JNum 5)] = false ->
   exists out, select_vars census_numeric_label "S1810" "With a disability"
                 true false false initial_state = (Ok out, s') /\ out <> []).
Proof.
  intros s'.
  apply (select_vars_raises_on_unusable_label census_numeric_label "S1810"
           "With a disability" true false false initial_state s'
           [("S1810_C01_001E", JNum 5)]).
  reflexivity.
Defined.

Lemma axis_requested_more (a x r a' x' r' : bool) (lab : string) :
  implb a a' = true -> implb x x' = true -> implb r r' = true ->
  axis_requested a x r lab = true -> axis_requested a' x' r' lab = true.
Proof.
  unfold axis_requested.
  destruct a, a', x, x', r, r'; cbn; try discriminate; intros _ _ _;
    destruct (str_in "!!AGE!!" lab), (str_in "!!SEX!!" lab),
      (str_in "!!RACE" lab), (str_in "!!ETHNICITY" lab); cbn; congruence.
Qed.

Lemma filter_sublist_more {A} (f f' : A -> bool) (l : list A) :
  (forall e, f e = true -> f' e = true) ->
  sublist (List.filter f l) (List.filter f' l).
Proof.
  intros Hff. induction l as [|e l IH]; cbn [List.filter]; [constructor|].
  destruct (f e) eqn:Hf.
  - rewrite (Hff e Hf). now apply sublist_skip.
  - destruct (f' e); [now apply sublist_cons | exact IH].
Qed.

Lemma sublist_map {A B} (f : A -> B) (l1 l2 : list A) :
  sublist l1 l2 -> sublist (map f l1) (map f l2).
Proof.
  induction 1; cbn [map];
    [constructor | now apply sublist_skip | now apply sublist_cons].
Qed.

Lemma survivors_more_flags (frag : string) (a x r a' x' r' : bool)
    (labels : dict json) :
  implb a a' = true -> implb x x' = true -> implb r r' = true ->
  sublist (survivors frag a x r labels) (survivors frag a' x' r' labels).
Proof.
  intros Ha Hx Hr. unfold survivors. apply sublist_map.
  apply filter_sublist_more. intros [var lab]. unfold survives. cbn [fst snd].
  destruct lab; try discriminate.
  intros H. apply andb_true_iff in H as [H Haxis]. rewrite H. cbn [andb].
  now apply (axis_requested_more a x r a' x' r').
Qed.

(** X9: asking for more breakdowns never loses a column: when the
    selection under some flags is not the default code, the selection
    under those flags and more contains it as a subsequence. *)
Theorem select_vars_more_flags (W : Collaborators) (g frag : string)
    (a x r a' x' r' : bool) (s s' : state) (labels : dict json) :
  get_labels W g s = (Ok labels, s') ->
  str_labels labels = true ->
  implb a a' = true -> implb x x' = true -> implb r r' = true ->
  survivors frag a x r labels <> [] ->
  exists out out',
    select_vars W g frag a x r s = (Ok out, s') /\
    select_vars W g frag a' x' r' s = (Ok out', s') /\
    out = survivors frag a x r labels /\
    sublist out out'.
Proof.
  intros Hget Hstr Ha Hx Hr Hsome.
  pose proof (survivors_more_flags frag a x r a' x' r' labels Ha Hx Hr) as Hsub.
  rewrite !(select_vars_survivors W g frag _ _ _ s s' labels Hget Hstr).
  destruct (survivors frag a x r labels) as [|v vs] eqn:E1; [contradiction|].
  destruct (survivors frag a' x' r' labels) as [|v' vs'] eqn:E2.
  - apply sublist_nil_r in Hsub. discriminate.
  - eexists _, _. repeat split. exact Hsub.
Qed.

Lemma select_vars_more_flags_witness :
  exists out out',
    select_vars census "S1810" "With a disability" true false false initial_state
      = (Ok out, snd (get_labels census "S1810" initial_state)) /\
    select_vars census "S1810" "With a disability" true true false initial_state
      = (Ok out', snd (get_labels census "S1810" initial_state)) /\
    out = survivors "With a disability" true false false S1810_labels /\
    sublist out out'.
Proof.
  apply (select_vars_more_flags census "S1810" "With a disability"
           true false false true true false initial_state _ S1810_labels);
    try reflexivity.
  vm_compute. discriminate.
Defined.

(** ** The detailed pull after the selection *)

Lemma dict_get_set {V} (k k' : string) (v : V) (d : dict V) :
  dict_get (dict_set k v d) k'
  = if String.eqb k k' then Some v else dict_get d k'.
Proof.
  induction d as [|[k0 v0] d IH]; cbn [dict_set dict_get]; [reflexivity|].
  destruct (String.eqb_spec k0 k) as [->|Hne]; cbn [dict_get].
  - destruct (String.eqb k k'); reflexivity.
  - rewrite IH. destruct (String.eqb_spec k0 k') as [->|Hne']; [|reflexivity].
    apply String.eqb_neq in Hne. rewrite String.eqb_sym in Hne. now rewrite Hne.
Qed.

Lemma dict_get_map_values {U V} (f : U -> V) (d : dict U) (k : string) :
  dict_get (map (fun kv => (fst kv, f (snd kv))) d) k = f <$> dict_get d k.
Proof.
  induction d as [|[k0 v0] d IH]; cbn [map dict_get fst snd]; [reflexivity|].
  destruct (String.eqb k0 k); [reflexivity | exact IH].
Qed.

(** The renaming of line 98 succeeds when every selected code has a
    string label, and then maps exactly the selected codes. *)
Lemma clean_labels_Ok (W : Collaborators) (labels : dict json)
    (vars : list string) (acc : dict string) :
  Forall (fun v => exists t, dict_get labels v = Some (JStr t)) vars ->
  exists rename,
    clean_labels W labels vars acc = Ok rename /\
    forall k, dict_get rename k
              = if existsb (String.eqb k) vars
                then Some (strip (re_sub_markers W (label_text labels k)))
                else dict_get acc k.
Proof.
  revert acc. induction vars as [|v vars IH]; intros acc Hall.
  - exists acc. split; reflexivity.
  - apply Forall_cons in Hall as [[t Hv] Hall]. cbn [clean_labels]. rewrite Hv.
    destruct (IH (dict_set v (strip (re_sub_markers W t)) acc) Hall)
      as (rename & Hok & Hget).
    exists rename. split; [exact Hok|]. intros k. rewrite Hget. cbn [existsb].
    destruct (existsb (String.eqb k) vars); [now rewrite orb_true_r|].
    rewrite orb_false_r, dict_get_set, String.eqb_sym.
    destruct (String.eqb_spec k v) as [->|_]; [|reflexivity].
    unfold label_text. now rewrite Hv.
Qed.

Lemma clean_labels_missing (W : Collaborators) (labels : dict json)
    (v : string) (acc : dict string) :
  dict_get labels v = None ->
  clean_labels W labels [v] acc = Raise (KeyError v).
Proof. intros H. cbn [clean_labels]. now rewrite H. Qed.

(** What [pull_detailed] does once the selector has returned: it logs
    the URL, fetches it, and renames with the labels of the cache. *)
Lemma pull_detailed_outcome (W : Collaborators) (ind geo : string) (a x r : bool)
    (s s1 : state) (g frag univ : string) (labels : dict json) (vars : list string) :
  dict_get DETAILED ind = Some (g, frag, univ) ->
  get_labels W g (entered_detailed ind geo a x r s) = (Ok labels, s1) ->
  select_vars W g frag a x r (entered_detailed ind geo a x r s) = (Ok vars, s1) ->
  let url := detailed_url vars geo in
  fst (pull_detailed W ind geo a x r s)
  = match fst (fetch W url (set_URL_HITS (URL_HITS s1 ++ [url]) s1)) with
    | Raise e => Raise e
    | Ok df =>
        match clean_labels W labels vars [] with
        | Raise e => Raise e
        | Ok rename =>
            Ok (df_rename
                  (map (fun kv => (fst kv, strip (before_paren ind) +:+ " – " +:+ snd kv))
                       rename) df)
        end
    end.
Proof.
  intros Hd Hget Hsel url. unfold pull_detailed. rewrite Hd.
  unfold bind at 1. unfold log_call, modify at 1.
  fold (entered_detailed ind geo a x r s).
  unfold bind at 1. rewrite Hsel. fold url.
  unfold bind at 1. unfold URL_HITS_append, modify.
  set (s2 := set_URL_HITS (URL_HITS s1 ++ [url]) s1).
  pose proof (get_labels_stored W g _ s1 labels Hget) as Hstored.
  destruct (fetch_state W url s2) as (_ & Hl & _).
  unfold bind at 1.
  destruct (fetch W url s2) as [[df|e] s3]; cbn [fst snd] in *; [|reflexivity].
  assert (Hhit : get_labels W g s3 = (Ok labels, s3)).
  { apply get_labels_hit. rewrite Hl. exact Hstored. }
  unfold bind at 1. rewrite Hhit. unfold bind, lift, ret.
  destruct (clean_labels W labels vars []); reflexivity.
Qed.

(** X10: when no variable of the group passes the filter and the
    metadata does not list the default code [{group_id}_001E],
    [pull_detailed] cannot return a table: if the request for the default
    code fails it raises that failure, and if a table comes back it raises
    a [KeyError] for the default code while renaming. *)
Theorem pull_detailed_fallback_raises (W : Collaborators) (ind geo : string)
    (a x r : bool) (s s1 : state) (g frag univ : string) (labels : dict json) :
  dict_get DETAILED ind = Some (g, frag, univ) ->
  get_labels W g (entered_detailed ind geo a x r s) = (Ok labels, s1) ->
  str_labels labels = true ->
  survivors frag a x r labels = [] ->
  dict_get labels (g +:+ "_001E") = None ->
  let url := detailed_url [g +:+ "_001E"] geo in
  fst (pull_detailed W ind geo a x r s)
  = match fst (fetch W url (set_URL_HITS (URL_HITS s1 ++ [url]) s1)) with
    | Raise e => Raise e
    | Ok _ => Raise (KeyError (g +:+ "_001E"))
    end.
Proof.
  intros Hd Hget Hstr Hnone Hkey url.
  pose proof (select_vars_survivors W g frag a x r _ s1 labels Hget Hstr) as Hsel.
  rewrite Hnone in Hsel.
  rewrite (pull_detailed_outcome W ind geo a x r s s1 g frag univ labels
             [g +:+ "_001E"] Hd Hget Hsel).
  fold url. rewrite (clean_labels_missing W labels _ [] Hkey). reflexivity.
Qed.

Lemma pull_detailed_fallback_raises_witness :
  let s1 := snd (get_labels census "S1810"
                   (entered_detailed "Disability (%)" county_geo false false true
                      initial_state)) in
  let url := detailed_url ["S1810" +:+ "_001E"] county_geo in
  fst (pull_detailed census "Disability (%)" county_geo false false true initial_state)
  = match fst (fetch census url (set_URL_HITS (URL_HITS s1 ++ [url]) s1)) with
    | Raise e => Raise e
    | Ok _ => Raise (KeyError ("S1810" +:+ "_001E"))
    end.
Proof.
  intros s1.
  apply (pull_detailed_fallback_raises census "Disability (%)" county_geo
           false false true initial_state s1 "S1810" "With a disability" "civilian"
           S1810_labels); reflexivity.
Defined.

Lemma survivors_have_labels (frag : string) (a x r : bool) (labels : dict json) :
  NoDup (dict_keys labels) ->
  Forall (fun v => exists t, dict_get labels v = Some (JStr t))
         (survivors frag a x r labels).
Proof.
  intros Hnd. apply List.Forall_forall. intros v Hv.
  destruct (survivors_match frag a x r labels v Hnd Hv) as (_ & lab & Hget & _).
  eauto.
Qed.

(** X11: when some variable passes the filter and the table for the
    selected codes is fetched, [pull_detailed] returns that table with
    the same rows and cells, the column of each selected code renamed
    to the short name of the indicator, a dash and the cleaned label, and
    every other column (NAME, the geography columns) under its own
    name. *)
Theorem pull_detailed_renames (W : Collaborators) (ind geo : string)
    (a x r : bool) (s s1 : state) (g frag univ : string) (labels : dict json)
    (df0 : DataFrame) :
  state_wf s ->
  dict_get DETAILED ind = Some (g, frag, univ) ->
  get_labels W g (entered_detailed ind geo a x r s) = (Ok labels, s1) ->
  str_labels labels = true ->
  survivors frag a x r labels <> [] ->
  let vars := survivors frag a x r labels in
  let url := detailed_url vars geo in
  fst (fetch W url (set_URL_HITS (URL_HITS s1 ++ [url]) s1)) = Ok df0 ->
  exists df,
    fst (pull_detailed W ind geo a x r s) = Ok df /\
    nrows df = nrows df0 /\
    map snd (df_cols df) = map snd (df_cols df0) /\
    column_names df
    = map (fun name => if existsb (String.eqb name) vars
                       then detailed_name W ind labels name
                       else name)
          (column_names df0).
Proof.
  intros Hwf Hd Hget Hstr Hsome vars url Hfetch. subst url vars.
  assert (Hwf0 : state_wf (entered_detailed ind geo a x r s)) by exact Hwf.
  destruct (get_labels_wf W g _ s1 labels Hwf0 Hget) as [Hnd _].
  pose proof (select_vars_survivors W g frag a x r _ s1 labels Hget Hstr) as Hsel.
  assert (Hm : match survivors frag a x r labels with
               | [] => [g +:+ "_001E"]
               | _ :: _ => survivors frag a x r labels
               end = survivors frag a x r labels)
    by (destruct (survivors frag a x r labels); [contradiction | reflexivity]).
  rewrite Hm in Hsel.
  rewrite (pull_detailed_outcome W ind geo a x r s s1 g frag univ labels
             (survivors frag a x r labels) Hd Hget Hsel).
  cbv zeta. rewrite Hfetch.
  destruct (clean_labels_Ok W labels (survivors frag a x r labels) []
              (survivors_have_labels frag a x r labels Hnd))
    as (rename & -> & Hrename).
  eexists. split; [reflexivity|]. split; [reflexivity|].
  unfold column_names, df_rename. cbn [df_cols]. rewrite !map_map. cbn [fst snd].
  split; [reflexivity|].
  apply map_ext. intros [name vals]. cbn [fst].
  rewrite (dict_get_map_values
             (fun v => strip (before_paren ind) +:+ " – " +:+ v)), Hrename.
  cbn [dict_get].
  destruct (existsb (String.eqb name) (survivors frag a x r labels)); reflexivity.
Qed.

Lemma pull_detailed_renames_witness :
  let s1 := snd (get_labels census_disability "S1810"
                   (entered_detailed "Disability (%)" county_geo true false false
                      initial_state)) in
  let vars := survivors "With a disability" true false false S1810_labels in
  exists df,
    vars = ["S1810_C02_014E"] /\
    fst (pull_detailed census_disability "Disability (%)" county_geo true false false
           initial_state) = Ok df /\
    nrows df = 1 /\
    map snd (df_cols df)
      = [[Some (JStr "Pierce County, Washington")]; [Some (JStr "4308")];
         [Some (JStr "53")]; [Some (JStr "053")]] /\
    column_names df
    = map (fun name => if existsb (String.eqb name) vars
                       then detailed_name census_disability "Disability (%)"
                              S1810_labels name
                       else name)
          ["NAME"; "S1810_C02_014E"; "state"; "county"] /\
    column_names df
    = ["NAME";
       "Disability – With a Total civilian noninstitutionalized Under 5 years";
       "state"; "county"].
Proof.
  intros s1 vars.
  destruct (pull_detailed_renames census_disability "Disability (%)" county_geo
              true false false initial_state s1 "S1810" "With a disability"
              "civilian" S1810_labels
              {| nrows := 1;
                 df_cols := [("NAME", [Some (JStr "Pierce County, Washington")]);
                             ("S1810_C02_014E", [Some (JStr "4308")]);
                             ("state", [Some (JStr "53")]);
                             ("county", [Some (JStr "053")])] |})
    as (df & Hdf & Hrows & Hcells & Hnames).
  - apply initial_state_wf.
  - reflexivity.
  - reflexivity.
  - reflexivity.
  - vm_compute. discriminate.
  - vm_compute. reflexivity.
  - exists df. split; [reflexivity|]. split; [exact Hdf|]. split; [exact Hrows|].
    split; [exact Hcells|]. split; [exact Hnames|].
    rewrite Hnames. vm_compute. reflexivity.
Defined.

(** ** The clause for a list of ZCTAs *)

Lemma str_remove_clean (c : ascii) (s : string) :
  str_in (String c EmptyString) (str_remove c s) = false.
Proof.
  induction s as [|a s IH]; cbn [str_remove]; [reflexivity|].
  destruct (Ascii.eqb_spec a c) as [->|Hne]; [exact IH|].
  change (String.prefix (String c "") (String a (str_remove c s))
          || str_in (String c "") (str_remove c s) = false).
  rewrite IH, orb_false_r. cbn [String.prefix].
  destruct (Ascii.ascii_dec c a) as [->|_]; [contradiction | reflexivity].
Qed.

Lemma str_remove_idempotent (c : ascii) (s : string) :
  str_remove c (str_remove c s) = str_remove c s.
Proof.
  induction s as [|a s IH]; cbn [str_remove]; [reflexivity|].
  destruct (Ascii.eqb a c) eqn:E; [exact IH|]. cbn [str_remove]. now rewrite E, IH.
Qed.

(** X12: any level other than the county and the tract level is handled
    as a list of ZCTAs: unless the entry consists of spaces only, the
    clause is the fixed prefix followed by the entry with every space
    removed, so the clause holds no space from the entry and does not
    change when spaces are added to or removed from the entry. *)
Theorem geo_clause_zcta_strips_spaces (z : option string) (level : string) :
  level <> "County (Pierce)" ->
  level <> "Tract (Pierce)" ->
  let zips := str_remove " "%char (default "" z) in
  (all_spaces (default "" z) = false ->
   geo_clause z level = Some ("for=zip%20code%20tabulation%20area:" +:+ zips)) /\
  (all_spaces (default "" z) = true -> geo_clause z level = None) /\
  str_in " " zips = false /\
  geo_clause (Some zips) level = geo_clause z level.
Proof.
  intros Hc Ht zips. apply String.eqb_neq in Hc, Ht.
  assert (Hgeo : forall z', geo_clause z' level
                 = match str_remove " "%char (default "" z') with
                   | EmptyString => None
                   | String _ _ =>
                       Some ("for=zip%20code%20tabulation%20area:"
                               +:+ str_remove " "%char (default "" z'))
                   end).
  { intros z'. unfold geo_clause. now rewrite Hc, Ht. }
  repeat split.
  - intros Hsp. rewrite Hgeo. fold zips.
    destruct zips eqn:E; [|reflexivity].
    apply str_remove_spaces_empty in E. congruence.
  - intros Hsp. rewrite Hgeo. fold zips.
    apply str_remove_spaces_empty in Hsp. fold zips in Hsp. now rewrite Hsp.
  - apply str_remove_clean.
  - rewrite !Hgeo. change (default "" (Some zips)) with zips.
    unfold zips. now rewrite str_remove_idempotent.
Qed.

Lemma geo_clause_zcta_strips_spaces_witness :
  let zips := str_remove " "%char (default "" (Some "98402, 98403")) in
  (all_spaces (default "" (Some "98402, 98403")) = false ->
   geo_clause (Some "98402, 98403") ZCTA_level
   = Some ("for=zip%20code%20tabulation%20area:" +:+ zips)) /\
  (all_spaces (default "" (Some "98402, 98403")) = true ->
   geo_clause (Some "98402, 98403") ZCTA_level = None) /\
  str_in " " zips = false /\
  geo_clause (Some zips) ZCTA_level = geo_clause (Some "98402, 98403") ZCTA_level.
Proof.
  apply (geo_clause_zcta_strips_spaces (Some "98402, 98403") ZCTA_level);
    discriminate.
Defined.

(** ** A run without breakdown *)

Lemma pull_simple_state (W : Collaborators) (code ds geo : string) (s : state) :
  let url := simple_url code ds geo in
  let s' := snd (pull_simple W code ds geo s) in
  URL_HITS s' = URL_HITS s ++ [url] /\
  labels_cache s' = labels_cache s /\
  (http_log s' = http_log s \/ http_log s' = http_log s ++ [data_request url]).
Proof.
  cbv zeta. unfold pull_simple, log_call, URL_HITS_append, bind, modify.
  cbn [fst snd].
  match goal with
  | |- context [fetch W ?u ?st] =>
      destruct (fetch_state W u st) as (Hu & Hl & _ & _ & Hh);
      rewrite Hu, Hl, Hh; repeat split;
      destruct (dict_get (fetch_cache st) u); [now left | now right]
  end.
Qed.

Lemma pull_all_simple (W : Collaborators) (ui : Inputs) (geo : string)
    (inds : list string) (frames : list DataFrame) (s : state) :
  any_flag ui = false ->
  Forall (fun ind => dict_has BASE_VARS ind = true) inds ->
  let s' := snd (pull_all W ui geo inds frames s) in
  exists reached rest reqs,
    inds = reached ++ rest /\
    URL_HITS s' = URL_HITS s ++ map (configured_url geo) reached /\
    http_log s' = http_log s ++ reqs /\
    Forall (fun q => req_origin q = from_fetch) reqs /\
    length reqs <= length reached /\
    labels_cache s' = labels_cache s /\
    (forall out, fst (pull_all W ui geo inds frames s) = Ok out -> rest = []).
Proof.
  intros Hflag. revert frames s.
  induction inds as [|ind inds IH]; intros frames s Hbase; cbv zeta.
  - exists [], [], []. cbn [pull_all ret snd fst map length]. rewrite !app_nil_r.
    repeat split; auto.
  - apply Forall_cons in Hbase as [Hind Hbase]. cbn [pull_all].
    assert (Hpull : pull_indicator W ui geo ind
                    = pull_simple W (fst (default ("", "") (dict_get BASE_VARS ind)))
                        (snd (default ("", "") (dict_get BASE_VARS ind))) geo).
    { unfold pull_indicator. unfold any_flag in Hflag. rewrite Hflag, andb_false_r.
      unfold dict_has in Hind.
      destruct (dict_get BASE_VARS ind) as [[code ds]|]; [reflexivity | discriminate]. }
    rewrite Hpull. unfold bind.
    pose proof (pull_simple_state W
                  (fst (default ("", "") (dict_get BASE_VARS ind)))
                  (snd (default ("", "") (dict_get BASE_VARS ind))) geo s)
      as (Hu & Hl & Hh).
    fold (configured_url geo ind) in Hu, Hh.
    destruct (pull_simple W _ _ geo s) as [[df|e] s1]; cbn [fst snd] in *.
    + destruct (IH (frames ++ [df]) s1 Hbase)
        as (reached & rest & reqs & -> & Hu' & Hh' & Hreqs & Hlen & Hl' & Hall).
      destruct Hh as [Hh|Hh].
      * exists (ind :: reached), rest, reqs. cbn [map length].
        rewrite Hu', Hu, Hh', Hh, Hl', Hl, <- app_assoc.
        repeat split; first [exact Hall | solve [auto] | lia].
      * exists (ind :: reached), rest, (data_request (configured_url geo ind) :: reqs).
        cbn [map length]. rewrite Hu', Hu, Hh', Hh, Hl', Hl, <- !app_assoc.
        repeat split;
          first [exact Hall | solve [auto] | lia | now constructor].
    + destruct Hh as [Hh|Hh].
      * exists [ind], inds, []. cbn [map length]. rewrite Hu, Hh, Hl, app_nil_r.
        repeat split; first [discriminate | solve [auto] | lia | now constructor].
      * exists [ind], inds, [data_request (configured_url geo ind)].
        cbn [map length]. rewrite Hu, Hh, Hl.
        repeat split;
          first [discriminate | solve [auto] | lia | solve [repeat constructor]].
Qed.

(** X13: a run without any breakdown flag never contacts the metadata
    endpoint and leaves the metadata cache alone: the log ends up with
    exactly the simple-pull URL of each indicator reached, in the order
    chosen (all of them when the run returns), and the requests issued
    are data pulls, at most one per indicator reached. *)
Theorem run_without_flags (W : Collaborators) (ui : Inputs) (s : state)
    (geo : string) :
  any_flag ui = false ->
  geo_clause (zcta_list ui) (geo_level ui) = Some geo ->
  Forall (fun ind => dict_has BASE_VARS ind = true) (chosen ui) ->
  let s' := snd (run W ui s) in
  labels_cache s' = labels_cache s /\
  Forall (fun q => req_origin q = from_fetch) (requests_since s s') /\
  exists reached rest,
    chosen ui = reached ++ rest /\
    URL_HITS s' = map (configured_url geo) reached /\
    length (requests_since s s') <= length reached /\
    (forall df, fst (run W ui s) = Ok df -> rest = []).
Proof.
  intros Hflag Hgeo Hbase.
  destruct (geo_clause_nonempty _ _ _ Hgeo) as (c & g & ->).
  destruct (pull_all_simple W ui (String c g) (chosen ui) [] (set_URL_HITS [] s)
              Hflag Hbase)
    as (reached & rest & reqs & Hsplit & Hu & Hh & Hreqs & Hlen & Hl & Hall).
  cbv zeta in *. rewrite (run_with_geo W ui s c g Hgeo). unfold bind.
  destruct (pull_all W ui (String c g) (chosen ui) [] (set_URL_HITS [] s))
    as [[frames|e] s1]; cbn [fst snd] in *.
  - assert (Hs : forall k : DataFrame -> M DataFrame,
               (forall df st, snd (k df st) = st) ->
               snd (match lift (assemble frames) s1 with
                    | (Ok a, s') => k a s'
                    | (Raise e, s') => (Raise e, s')
                    end) = s1).
    { intros k Hk. unfold lift. destruct (assemble frames); [apply Hk | reflexivity]. }
    rewrite Hs by reflexivity.
    rewrite (requests_since_app s s1 reqs Hh). repeat split; auto.
    exists reached, rest. repeat split; auto.
    intros df _. now apply (Hall frames).
  - rewrite (requests_since_app s s1 reqs Hh). repeat split; auto.
    exists reached, rest. repeat split; auto. discriminate.
Qed.

Lemma run_without_flags_witness :
  let ui := {| geo_level := "County (Pierce)"; zcta_list := None;
               chosen := ["HS diploma 25+ (%)"; "Disability (%)"];
               want_age := false; want_sex := false; want_race := false |} in
  let s' := snd (run census ui initial_state) in
  labels_cache s' = labels_cache initial_state /\
  Forall (fun q => req_origin q = from_fetch) (requests_since initial_state s') /\
  exists reached rest,
    chosen ui = reached ++ rest /\
    URL_HITS s' = map (configured_url county_geo) reached /\
    length (requests_since initial_state s') <= length reached /\
    (forall df, fst (run census ui initial_state) = Ok df -> rest = []).
Proof.
  intros ui.
  apply (run_without_flags census ui initial_state county_geo).
  - reflexivity.
  - reflexivity.
  - repeat constructor.
Defined.

(** ** The assembled table *)

Lemma length_reindex (n : nat) (vals : list cell) :
  length vals <= n -> length (reindex n vals) = n.
Proof.
  intros H. unfold reindex. rewrite length_app, repeat_length. lia.
Qed.

Lemma list_max_ge (l : list nat) (x : nat) : In x l -> x <= list_max l.
Proof.
  intros H. pose proof (proj1 (list_max_le l (list_max l)) (le_n _)) as Hall.
  rewrite List.Forall_forall in Hall. now apply Hall.
Qed.

Lemma side_by_side_In (n : nat) (frames : list DataFrame) (name : string)
    (vals : list cell) :
  In (name, vals) (side_by_side n frames) ->
  exists f v0, In f frames /\ In (name, v0) (df_cols f) /\ vals = reindex n v0.
Proof.
  unfold side_by_side. intros H. apply in_flat_map in H as (f & Hf & H).
  apply in_map_iff in H as ([k v0] & Heq & Hin). cbn [fst snd] in Heq.
  injection Heq as -> <-. eauto.
Qed.

Lemma sublist_In {A} (l1 l2 : list A) (x : A) :
  sublist l1 l2 -> In x l1 -> In x l2.
Proof.
  intros Hsub Hin. apply list_elem_of_In.
  eapply sublist_subseteq; [exact Hsub | now apply list_elem_of_In].
Qed.

(** X14: assembling rectangular tables gives a rectangular table with as
    many rows as the longest of them: every column kept is a column of
    one of the tables, complete and in its order, followed by missing
    values only as far as that table is shorter. *)
Theorem assemble_rectangular (frames : list DataFrame) (df : DataFrame) :
  Forall frame_wf frames ->
  assemble frames = Ok df ->
  frame_wf df /\
  nrows df = list_max (map nrows frames) /\
  forall name vals,
    In (name, vals) (df_cols df) ->
    exists f v0,
      In f frames /\ In (name, v0) (df_cols f) /\
      vals = v0 ++ repeat None (nrows df - nrows f).
Proof.
  intros Hwf Hasm. destruct frames as [|f0 frames]; [discriminate|].
  rewrite assemble_cons in Hasm. injection Hasm as <-.
  set (n := list_max (map nrows (f0 :: frames))) in *.
  cbn [nrows df_cols].
  assert (Hcols : forall name vals,
             In (name, vals) (keep_first [] (side_by_side n (f0 :: frames))) ->
             exists f v0,
               In f (f0 :: frames) /\ In (name, v0) (df_cols f) /\
               length v0 = nrows f /\ nrows f <= n /\ vals = reindex n v0).
  { intros name vals Hin.
    apply (sublist_In _ _ _ (keep_first_sublist [] _)) in Hin.
    apply side_by_side_In in Hin as (f & v0 & Hf & Hv0 & ->).
    exists f, v0. repeat split; auto.
    - rewrite List.Forall_forall in Hwf. specialize (Hwf f Hf).
      unfold frame_wf in Hwf. rewrite Forall_forall in Hwf.
      apply (Hwf (name, v0)). now apply list_elem_of_In.
    - apply list_max_ge. now apply in_map. }
  split; [|split; [reflexivity|]].
  - unfold frame_wf. cbn [nrows df_cols]. apply Forall_forall.
    intros [name vals] Hin. apply list_elem_of_In in Hin.
    destruct (Hcols name vals Hin) as (f & v0 & _ & _ & Hlen & Hle & ->).
    cbn [snd]. apply length_reindex. rewrite Hlen. exact Hle.
  - intros name vals Hin.
    destruct (Hcols name vals Hin) as (f & v0 & Hf & Hv0 & Hlen & _ & ->).
    exists f, v0. repeat split; auto. unfold reindex. now rewrite Hlen.
Qed.

Lemma assemble_rectangular_witness :
  let t1 := {| nrows := 2;
               df_cols := [("NAME", [Some (JStr "Census Tract 1"); Some (JStr "Census Tract 2")])] |} in
  let t2 := {| nrows := 1; df_cols := [("DP02_0062PE", [Some (JStr "92.1")])] |} in
  let df := {| nrows := 2;
               df_cols := [("NAME", [Some (JStr "Census Tract 1"); Some (JStr "Census Tract 2")]);
                           ("DP02_0062PE", [Some (JStr "92.1"); None])] |} in
  frame_wf df /\
  nrows df = list_max (map nrows [t1; t2]) /\
  forall name vals,
    In (name, vals) (df_cols df) ->
    exists f v0,
      In f [t1; t2] /\ In (name, v0) (df_cols f) /\
      vals = v0 ++ repeat None (nrows df - nrows f).
Proof.
  intros t1 t2 df. apply (assemble_rectangular [t1; t2] df).
  - repeat constructor.
  - reflexivity.
Defined.

Lemma keep_first_distinct (cols : list (string * list cell)) :
  NoDup (map fst cols) -> keep_first [] cols = cols.
Proof.
  assert (H : forall seen,
             NoDup (map fst cols) ->
             (forall n, In n seen -> ~ In n (map fst cols)) ->
             keep_first seen cols = cols).
  { induction cols as [|[n vals] cols IH]; intros seen Hnd Hseen; [reflexivity|].
    rewrite keep_first_cons. cbn [map fst] in Hnd.
    apply NoDup_cons in Hnd as [Hn Hnd].
    destruct (existsb (String.eqb n) seen) eqn:E.
    - apply existsb_eqb_In in E. exfalso. apply (Hseen n E). now left.
    - f_equal. apply IH; [exact Hnd|]. intros k [<-|Hk] Hin.
      + apply Hn. now apply list_elem_of_In.
      + apply (Hseen k Hk). now right. }
  intros Hnd. apply H; [exact Hnd | intros n []].
Qed.

Lemma assemble_one (df : DataFrame) :
  NoDup (column_names df) ->
  frame_wf df ->
  assemble [df] = Ok df.
Proof.
  intros Hnd Hwf. rewrite assemble_cons.
  assert (Hn : list_max (map nrows [df]) = nrows df)
    by (unfold list_max; cbn [map fold_right]; apply Nat.max_0_r).
  rewrite Hn. destruct df as [n cols]. cbn [nrows df_cols] in *.
  f_equal. f_equal. unfold side_by_side. cbn [flat_map df_cols]. rewrite app_nil_r.
  assert (Hsame : map (fun c : string * list cell => (fst c, reindex n (snd c))) cols
                  = cols).
  { unfold frame_wf in Hwf. cbn [nrows df_cols] in Hwf. clear Hnd Hn.
    induction cols as [|[k v] cols IH]; [reflexivity|]. cbn [map fst snd].
    apply Forall_cons in Hwf as [Hv Hwf]. cbn [snd] in Hv.
    rewrite reindex_full by lia. f_equal. apply IH. exact Hwf. }
  rewrite Hsame. now apply keep_first_distinct.
Qed.

Lemma drop_duplicate_columns_frame_wf (t : DataFrame) :
  frame_wf t -> frame_wf (drop_duplicate_columns t).
Proof.
  unfold frame_wf, drop_duplicate_columns. cbn [nrows df_cols]. intros Hwf.
  change (loc_columns (map negb (duplicated [] (column_names t))) (df_cols t))
    with (keep_first [] (df_cols t)).
  rewrite Forall_forall in *. intros c Hc. apply Hwf.
  apply list_elem_of_In. apply list_elem_of_In in Hc.
  exact (sublist_In _ _ _ (keep_first_sublist [] (df_cols t)) Hc).
Qed.

Lemma drop_duplicate_columns_distinct (df : DataFrame) :
  NoDup (column_names df) -> drop_duplicate_columns df = df.
Proof.
  destruct df as [n cols]. unfold drop_duplicate_columns, column_names.
  cbn [nrows df_cols]. intros Hnd. f_equal.
  now apply (keep_first_distinct cols).
Qed.

(** X15: dropping duplicate columns a second time changes nothing, and a
    single rectangular table, once [fetch] has dropped its duplicate
    columns, passes through the assembler unchanged. *)
Theorem assemble_single (t : DataFrame) :
  frame_wf t ->
  drop_duplicate_columns (drop_duplicate_columns t) = drop_duplicate_columns t /\
  assemble [drop_duplicate_columns t] = Ok (drop_duplicate_columns t).
Proof.
  intros Hwf. split.
  - apply drop_duplicate_columns_distinct. apply keep_first_NoDup.
  - apply assemble_one; [apply keep_first_NoDup|].
    now apply drop_duplicate_columns_frame_wf.
Qed.

Lemma assemble_single_witness :
  let t := {| nrows := 1;
              df_cols := [("NAME", [Some (JStr "Pierce County, Washington")]);
                          ("NAME", [Some (JStr "Pierce County")]);
                          ("DP02_0062PE", [Some (JStr "92.1")])] |} in
  drop_duplicate_columns (drop_duplicate_columns t) = drop_duplicate_columns t /\
  assemble [drop_duplicate_columns t] = Ok (drop_duplicate_columns t).
Proof.
  intros t. apply (assemble_single t). repeat constructor.
Defined.

(** ** The final renaming of the base columns *)

Lemma rename_base_get (base : dict (string * string)) (names : list string)
    (acc : dict string) (k : string) :
  NoDup (map (fun e => fst (snd e)) base) ->
  dict_get (rename_base base names acc) k
  = match List.find (fun e => String.eqb (fst (snd e)) k) base with
    | Some (lab, (code, _)) =>
        if existsb (String.eqb k) names
        then Some (lab +:+ " (" +:+ code +:+ ")")
        else dict_get acc k
    | None => dict_get acc k
    end.
Proof.
  revert acc. induction base as [|[lab [code ds]] base IH]; intros acc Hnd;
    [reflexivity|].
  cbn [map fst snd] in Hnd. apply NoDup_cons in Hnd as [Hcode Hnd].
  cbn [rename_base List.find fst snd].
  assert (Hnone : code = k ->
            List.find (fun e : string * (string * string) =>
                         String.eqb (fst (snd e)) k) base = None).
  { intros ->. destruct (List.find _ base) as [[l [c d]]|] eqn:E; [|reflexivity].
    apply List.find_some in E as [Hin Heq]. cbn [fst snd] in Heq.
    apply String.eqb_eq in Heq. subst c. exfalso. apply Hcode.
    apply list_elem_of_In. apply in_map_iff. exists (l, (k, d)). auto. }
  destruct (existsb (String.eqb code) names) eqn:Hin; rewrite (IH _ Hnd).
  - rewrite dict_get_set. destruct (String.eqb_spec code k) as [->|Hne].
    + rewrite (Hnone eq_refl), Hin. reflexivity.
    + destruct (List.find _ base) as [[l [c d]]|]; [|reflexivity].
      destruct (existsb (String.eqb k) names); reflexivity.
  - destruct (String.eqb_spec code k) as [->|Hne]; [|reflexivity].
    now rewrite (Hnone eq_refl), Hin.
Qed.

Lemma base_codes_NoDup : NoDup (map (fun e => fst (snd e)) BASE_VARS).
Proof.
  apply NoDup_ListNoDup. repeat constructor; simpl; intuition discriminate.
Qed.

Lemma existsb_self (k : string) (names : list string) :
  In k names -> existsb (String.eqb k) names = true.
Proof. apply existsb_eqb_In. Qed.

Lemma renamed_names (df : DataFrame) :
  column_names (df_rename (rename_base BASE_VARS (column_names df) []) df)
  = map base_name (column_names df).
Proof.
  unfold column_names, df_rename. cbn [df_cols]. rewrite !map_map. cbn [fst].
  apply List.map_ext_in. intros [name vals] Hin. cbn [fst].
  rewrite (rename_base_get BASE_VARS _ [] name base_codes_NoDup).
  unfold base_name.
  destruct (List.find _ BASE_VARS) as [[lab [code ds]]|]; [|reflexivity].
  rewrite existsb_self; [reflexivity|].
  change name with (fst (name, vals)). now apply in_map.
Qed.

(** X16: the last step of the handler leaves rows and cells alone and
    renames the columns one by one: a column named by the raw code of a
    base indicator gets the display name followed by the code in
    brackets, any other column keeps its name; afterwards no column is
    named by a raw code any more. *)
Theorem final_renaming (df : DataFrame) :
  let out := df_rename (rename_base BASE_VARS (column_names df) []) df in
  nrows out = nrows df /\
  map snd (df_cols out) = map snd (df_cols df) /\
  column_names out = map base_name (column_names df) /\
  forall name, In name (column_names out) -> ~ In name base_codes.
Proof.
  cbv zeta.
  pose proof (renamed_names df) as Hnames.
  split; [reflexivity|]. split.
  - unfold df_rename. cbn [df_cols]. rewrite map_map. reflexivity.
  - split; [exact Hnames|]. rewrite Hnames. intros name' Hin.
    apply in_map_iff in Hin as (name & <- & _). unfold base_name.
    destruct (List.find (fun e => String.eqb (fst (snd e)) name) BASE_VARS)
      as [[lab [code ds]]|] eqn:E.
    + apply List.find_some in E as [Hin _].
      assert (Hall : forallb (fun e : string * (string * string) =>
                        negb (existsb (String.eqb
                                (fst e +:+ " (" +:+ fst (snd e) +:+ ")")) base_codes))
                       BASE_VARS = true) by (vm_compute; reflexivity).
      rewrite forallb_forall in Hall. specialize (Hall _ Hin). cbn [fst snd] in Hall.
      intros Hcode. apply existsb_eqb_In in Hcode. now rewrite Hcode in Hall.
    + intros Hcode. unfold base_codes in Hcode.
      apply in_map_iff in Hcode as (e & He & Hin).
      apply (List.find_none _ _ E) in Hin. rewrite He, String.eqb_refl in Hin.
      discriminate.
Qed.

(** ** The loop over the chosen indicators *)

(** X17: the loop pulls the chosen indicators in the order given, each
    from the state the pull before it has left, and stops at the first
    failure.  It returns exactly when every pull returns, with the tables
    of the pulls, in order, after those it started with, and in the state
    the last pull has left.  It raises exactly when the pull of some
    indicator raises after all those before it have returned: with that
    exception and in the state that pull has left, so that nothing is
    done for the indicators after it. *)
Theorem pull_all_fails_fast (W : Collaborators) (ui : Inputs) (geo : string)
    (inds : list string) (frames : list DataFrame) (s : state) :
  (forall out s',
      pull_all W ui geo inds frames s = (Ok out, s') <->
      exists dfs, out = frames ++ dfs /\ pulled W ui geo inds s dfs s') /\
  (forall e s',
      pull_all W ui geo inds frames s = (Raise e, s') <->
      exists done ind rest dfs s1,
        inds = done ++ ind :: rest /\
        pulled W ui geo done s dfs s1 /\
        pull_indicator W ui geo ind s1 = (Raise e, s')).
Proof.
  pose proof (pull_all_outcome W ui geo inds frames s) as Hout.
  split.
  - intros out s'. split.
    + intros H. rewrite H in Hout. exact Hout.
    + intros (dfs & -> & Hdfs).
      rewrite <- (app_nil_r inds), (pull_all_pulled W ui geo inds [] frames dfs s s' Hdfs).
      reflexivity.
  - intros e s'. split.
    + intros H. rewrite H in Hout. exact Hout.
    + intros (done & ind & rest & dfs & s1 & -> & Hdone & Hind).
      rewrite (pull_all_pulled W ui geo done (ind :: rest) frames dfs s s1 Hdone).
      cbn [pull_all]. unfold bind. now rewrite Hind.
Qed.

(** ** The URL log and the requests of a run *)

(** [pull_detailed] step by step, with the state after each step. *)
Lemma pull_detailed_steps (W : Collaborators) (ind geo : string) (a x r : bool)
    (s : state) :
  pull_detailed W ind geo a x r s
  = match dict_get DETAILED ind with
    | None => (Raise (KeyError ind), entered_detailed ind geo a x r s)
    | Some (g, frag, _) =>
        match select_vars W g frag a x r (entered_detailed ind geo a x r s) with
        | (Raise e, s1) => (Raise e, s1)
        | (Ok vars, s1) =>
            match fetch W (detailed_url vars geo)
                    (set_URL_HITS (URL_HITS s1 ++ [detailed_url vars geo]) s1) with
            | (Raise e, s3) => (Raise e, s3)
            | (Ok df, s3) =>
                match get_labels W g s3 with
                | (Raise e, s4) => (Raise e, s4)
                | (Ok labels, s4) =>
                    match clean_labels W labels vars [] with
                    | Raise e => (Raise e, s4)
                    | Ok rename =>
                        (Ok (df_rename
                               (map (fun kv => (fst kv,
                                       strip (before_paren ind) +:+ " – " +:+ snd kv))
                                    rename) df), s4)
                    end
                end
            end
        end
    end.
Proof.
  unfold pull_detailed, entered_detailed, log_call, URL_HITS_append, bind, modify,
    raise, lift, ret.
  destruct (dict_get DETAILED ind) as [[[g frag] univ]|]; [|reflexivity].
  destruct (select_vars W g frag a x r _) as [[vars|e] s1]; [|reflexivity].
  destruct (fetch W (detailed_url vars geo) _) as [[df|e] s3]; [|reflexivity].
  destruct (get_labels W g s3) as [[labels|e] s4]; [|reflexivity].
  destruct (clean_labels W labels vars []); reflexivity.
Qed.

Lemma pull_simple_steps (W : Collaborators) (code ds geo : string) (s : state) :
  pull_simple W code ds geo s
  = fetch W (simple_url code ds geo)
      (set_URL_HITS (URL_HITS s ++ [simple_url code ds geo])
         (set_call_log (call_log s ++ [CallSimple code ds geo]) s)).
Proof. reflexivity. Qed.

Lemma select_vars_Ok (W : Collaborators) (g frag : string) (a x r : bool)
    (s s1 : state) (vars : list string) :
  select_vars W g frag a x r s = (Ok vars, s1) ->
  exists labels, get_labels W g s = (Ok labels, s1).
Proof.
  unfold select_vars, bind, lift, ret.
  destruct (get_labels W g s) as [[labels|e] s'] eqn:Hget; [|discriminate].
  destruct (select_loop frag a x r labels []); [|discriminate].
  intros [= _ <-]. eauto.
Qed.

(** What [pull_detailed] does once the selector has returned: it appends
    the one URL, calls [fetch] on it, and issues no request after that
    call. *)
Lemma pull_detailed_after_selection (W : Collaborators) (ind geo : string)
    (a x r : bool) (s0 s1 : state) (g frag univ : string) (vars : list string) :
  dict_get DETAILED ind = Some (g, frag, univ) ->
  select_vars W g frag a x r (entered_detailed ind geo a x r s0) = (Ok vars, s1) ->
  let url := detailed_url vars geo in
  let s2 := set_URL_HITS (URL_HITS s0 ++ [url]) s1 in
  URL_HITS s1 = URL_HITS s0 /\
  URL_HITS (snd (pull_detailed W ind geo a x r s0)) = URL_HITS s0 ++ [url] /\
  http_log (snd (pull_detailed W ind geo a x r s0)) = http_log (snd (fetch W url s2)) /\
  (forall e, fst (fetch W url s2) = Raise e ->
             pull_detailed W ind geo a x r s0 = (Raise e, snd (fetch W url s2))).
Proof.
  intros Hd Hsel.
  pose proof (select_vars_same_urls W g frag a x r
                (entered_detailed ind geo a x r s0)) as Hu.
  pose proof (pull_detailed_steps W ind geo a x r s0) as Hsteps.
  rewrite Hd, Hsel in Hsteps. rewrite Hsel in Hu.
  unfold same_urls in Hu. cbn [snd] in Hu.
  change (URL_HITS (entered_detailed ind geo a x r s0)) with (URL_HITS s0) in Hu.
  cbv zeta. rewrite <- Hu. split; [reflexivity|].
  set (url := detailed_url vars geo) in *.
  set (s2 := set_URL_HITS (URL_HITS s1 ++ [url]) s1) in *.
  destruct (select_vars_Ok W g frag a x r _ s1 vars Hsel) as (labels & Hget).
  pose proof (get_labels_stored W g _ s1 labels Hget) as Hstored.
  destruct (fetch_state W url s2) as (Hu2 & Hl2 & _).
  destruct (fetch W url s2) as [[df|e] s3] eqn:Hf; cbn [fst snd] in *.
  - assert (Hhit : get_labels W g s3 = (Ok labels, s3)).
    { apply get_labels_hit. rewrite Hl2. exact Hstored. }
    rewrite Hhit in Hsteps.
    assert (Hs : snd (pull_detailed W ind geo a x r s0) = s3)
      by (rewrite Hsteps; destruct (clean_labels W labels vars []); reflexivity).
    rewrite Hs. split; [exact Hu2|]. split; [reflexivity|].
    intros e H. discriminate H.
  - rewrite Hsteps. cbn [snd]. split; [exact Hu2|]. split; [reflexivity|].
    intros e' [= ->]. reflexivity.
Qed.

#[local] Instance logs_requests_preorder : PreOrder logs_requests.
Proof.
  split.
  - intros s Hsub. split; [exact Hsub|]. exists [], []. rewrite !app_nil_r. auto.
  - intros s1 s2 s3 H12 H23 Hsub.
    destruct (H12 Hsub) as (Hsub2 & r12 & u12 & Hh12 & Hu12 & He12).
    destruct (H23 Hsub2) as (Hsub3 & r23 & u23 & Hh23 & Hu23 & He23).
    split; [exact Hsub3|]. exists (r12 ++ r23), (u12 ++ u23).
    rewrite Hh23, Hh12, Hu23, Hu12, !app_assoc. split; [reflexivity|].
    split; [reflexivity|]. intros Hnd. rewrite data_urls_app.
    rewrite He23 by (rewrite Hu23, Hu12; exact Hnd).
    rewrite He12; [reflexivity|]. rewrite Hu12.
    now apply NoDup_app in Hnd as [Hnd _].
Qed.

(** A change that leaves the logs and the response cache alone. *)
Lemma logs_requests_same (s s' : state) :
  http_log s' = http_log s -> URL_HITS s' = URL_HITS s ->
  fetch_cache s' = fetch_cache s -> logs_requests s s'.
Proof.
  intros Hh Hu Hc Hsub. rewrite Hh, Hu, Hc. split; [exact Hsub|].
  exists [], []. rewrite !app_nil_r. auto.
Qed.

(** A metadata request is not a data-pull request. *)
Lemma get_labels_logs_requests (W : Collaborators) (g : string) :
  preserves logs_requests (get_labels W g).
Proof.
  intros s.
  assert (Hmeta : logs_requests s (set_http_log (http_log s ++ [meta_request g]) s)).
  { intros Hsub. split; [exact Hsub|]. exists [meta_request g], [].
    cbn [http_log URL_HITS set_http_log]. rewrite app_nil_r. auto. }
  destruct (get_labels W g s) as [[labels|e] s'] eqn:H; cbn [snd].
  - apply get_labels_Ok in H as [[_ ->]|(_ & _ & ->)]; [reflexivity|].
    etransitivity; [exact Hmeta | now apply logs_requests_same].
  - apply get_labels_Raise in H as [_ ->]. exact Hmeta.
Qed.

Lemma select_vars_logs_requests (W : Collaborators) g frag a x r :
  preserves logs_requests (select_vars W g frag a x r).
Proof.
  unfold select_vars. repeat preserves_step ltac:(apply get_labels_logs_requests).
Qed.

Lemma lru_touch_keys {V} (url : string) (v : V) (cache : list (string * V)) :
  incl (dict_keys (lru_touch url v cache)) (url :: dict_keys cache).
Proof.
  intros u [<-|Hu]; [now left|]. right.
  apply in_map_iff in Hu as ([k w] & <- & Hin). apply List.filter_In in Hin as [Hin _].
  now apply (in_map fst) in Hin.
Qed.

Lemma lru_put_keys {V} (url : string) (v : V) (cache : list (string * V)) :
  incl (dict_keys (lru_put url v cache)) (url :: dict_keys cache).
Proof.
  intros u Hu. unfold lru_put, dict_keys in Hu.
  apply in_map_iff in Hu as (e & <- & Hin).
  apply (sublist_In _ ((url, v) :: cache)) in Hin; [|apply sublist_take].
  now apply (in_map fst) in Hin.
Qed.

(** Appending the URL and then fetching it, on a cache of logged URLs:
    a URL that is served from the cache is in the log already. *)
Lemma logged_fetch_requests (W : Collaborators) (url : string) :
  preserves logs_requests (bind (URL_HITS_append url) (fun _ => fetch W url)).
Proof.
  intros s Hsub. unfold bind, URL_HITS_append, modify.
  set (s1 := set_URL_HITS (URL_HITS s ++ [url]) s).
  assert (Hkeys : incl (url :: dict_keys (fetch_cache s)) (URL_HITS s ++ [url])).
  { intros u [<-|Hu]; apply in_or_app; [right; now left | left; now apply Hsub]. }
  destruct (fetch W url s1) as [[df|e] s'] eqn:Hf; cbn [snd].
  - apply fetch_Ok in Hf as [[Hc ->]|(Hc & _ & _ & ->)].
    + split.
      * intros u Hu. apply Hkeys. exact (lru_touch_keys url df _ u Hu).
      * exists [], [url]. cbn [http_log URL_HITS set_fetch_cache s1 set_URL_HITS].
        rewrite app_nil_r. split; [reflexivity|]. split; [reflexivity|].
        intros Hnd. exfalso. apply NoDup_app in Hnd as (_ & Hnd & _).
        apply (Hnd url); [|now left].
        apply list_elem_of_In, Hsub. exact (dict_get_Some_key _ _ _ Hc).
    + split.
      * intros u Hu. apply Hkeys. exact (lru_put_keys url df _ u Hu).
      * exists [data_request url], [url].
        cbn [http_log URL_HITS set_fetch_cache set_http_log s1 set_URL_HITS]. auto.
  - apply fetch_Raise in Hf as (Hc & _ & ->). split.
    + intros u Hu. apply Hkeys. now right.
    + exists [data_request url], [url].
      cbn [http_log URL_HITS set_http_log s1 set_URL_HITS]. auto.
Qed.

Lemma logged_fetch_requests_then {A} (W : Collaborators) (url : string)
    (k : DataFrame -> M A) :
  (forall df, preserves logs_requests (k df)) ->
  preserves logs_requests
    (bind (URL_HITS_append url) (fun _ => bind (fetch W url) k)).
Proof.
  intros Hk s. rewrite <- bind_assoc. revert s.
  apply preserves_bind; [typeclasses eauto | apply logged_fetch_requests | exact Hk].
Qed.

Lemma modify_logs_requests (f : state -> state) :
  (forall s, http_log (f s) = http_log s) ->
  (forall s, URL_HITS (f s) = URL_HITS s) ->
  (forall s, fetch_cache (f s) = fetch_cache s) ->
  preserves logs_requests (modify f).
Proof.
  intros Hh Hu Hc. apply preserves_modify. intros s. now apply logs_requests_same.
Qed.

Lemma pull_indicator_logs_requests (W : Collaborators) ui geo ind :
  preserves logs_requests (pull_indicator W ui geo ind).
Proof.
  unfold pull_indicator.
  destruct (dict_has DETAILED ind && (want_age ui || want_sex ui || want_race ui)).
  - unfold pull_detailed. apply preserves_bind; [typeclasses eauto| |intros _].
    + apply modify_logs_requests; reflexivity.
    + destruct (dict_get DETAILED ind) as [[[g frag] univ]|].
      * apply preserves_bind;
          [typeclasses eauto | apply select_vars_logs_requests | intros vars].
        apply logged_fetch_requests_then. intros df.
        repeat preserves_step ltac:(apply get_labels_logs_requests).
      * apply preserves_raise; typeclasses eauto.
  - destruct (dict_get BASE_VARS ind) as [[code ds]|].
    + unfold pull_simple. apply preserves_bind; [typeclasses eauto| |intros _].
      * apply modify_logs_requests; reflexivity.
      * apply logged_fetch_requests.
    + apply preserves_raise; typeclasses eauto.
Qed.

Lemma pull_all_logs_requests (W : Collaborators) ui geo inds frames :
  preserves logs_requests (pull_all W ui geo inds frames).
Proof.
  revert frames. induction inds as [|ind inds IH]; intros frames; cbn [pull_all].
  - apply preserves_ret; typeclasses eauto.
  - apply preserves_bind;
      [typeclasses eauto | apply pull_indicator_logs_requests | intros df; apply IH].
Qed.

(** The handler clears the log; on the empty response cache a rerun has
    built, the requests follow the log from there on. *)
Lemma run_logs_requests (W : Collaborators) (ui : Inputs) (s : state) :
  logs_requests (set_URL_HITS [] s) (snd (run W ui s)).
Proof.
  unfold run. unfold bind at 1. unfold modify at 1.
  generalize (set_URL_HITS [] s). apply (@id (preserves logs_requests _)).
  destruct (geo_clause (zcta_list ui) (geo_level ui)) as [[|c geo]|];
    repeat preserves_step ltac:(first
      [ apply pull_all_logs_requests
      | apply modify_logs_requests; reflexivity ]).
Qed.

(** C8, as stated, fails: in a run with a breakdown the metadata request
    is issued but not logged, so the log is not the sequence of the URLs
    requested during the run. *)
Lemma metadata_request_not_logged :
  let s1 := snd (script census county_breakdown_by_age true initial_state) in
  map req_url (requests_since initial_state s1)
    = [ meta_url "S1810";
        detailed_url ["S1810_C02_014E"] county_geo;
        simple_url "S1901_C01_012E" "subject" county_geo ] /\
  URL_HITS s1 = [ detailed_url ["S1810_C02_014E"] county_geo;
                  simple_url "S1901_C01_012E" "subject" county_geo ] /\
  URL_HITS s1 <> map req_url (requests_since initial_state s1).
Proof.
  cbv zeta.
  assert (H1 : map req_url (requests_since initial_state
                 (snd (script census county_breakdown_by_age true initial_state)))
               = [ meta_url "S1810";
                   detailed_url ["S1810_C02_014E"] county_geo;
                   simple_url "S1901_C01_012E" "subject" county_geo ])
    by (vm_compute; reflexivity).
  assert (H2 : URL_HITS (snd (script census county_breakdown_by_age true initial_state))
               = [ detailed_url ["S1810_C02_014E"] county_geo;
                   simple_url "S1901_C01_012E" "subject" county_geo ])
    by (vm_compute; reflexivity).
  split; [exact H1|]. split; [exact H2|].
  rewrite H1, H2. discriminate.
Qed.

(** C8, amended: the handler starts by clearing the log, so the run does
    not depend on what the log held.  [pull_simple] appends its URL and
    then is the call of [fetch] on that URL: the log ends with the URL
    whatever the outcome.  [pull_detailed] appends nothing when the
    selector raises; otherwise it appends the one URL built from the
    selected codes, then calls [fetch] on that URL, and issues no request
    after that call: when [fetch] raises, the state it leaves, with the
    URL logged, is the final one.  At the end of a run the URLs of the
    data-pull requests issued during the run are, in order, a subsequence
    of the log, and they are the log itself when the response cache was
    empty at the start, as after every rerun of the script, and the log
    holds no URL twice.  Metadata requests are not logged. *)
Theorem url_log_of_run (W : Collaborators) (ui : Inputs) (s : state) :
  (forall l, run W ui (set_URL_HITS l s) = run W ui s) /\
  (forall code ds geo s0,
      let url := simple_url code ds geo in
      pull_simple W code ds geo s0
        = fetch W url (set_URL_HITS (URL_HITS s0 ++ [url])
                         (set_call_log (call_log s0 ++ [CallSimple code ds geo]) s0)) /\
      URL_HITS (snd (pull_simple W code ds geo s0)) = URL_HITS s0 ++ [url]) /\
  (forall ind geo a x r s0 g frag univ,
      dict_get DETAILED ind = Some (g, frag, univ) ->
      match select_vars W g frag a x r (entered_detailed ind geo a x r s0) with
      | (Raise e, s1) =>
          pull_detailed W ind geo a x r s0 = (Raise e, s1) /\
          URL_HITS s1 = URL_HITS s0
      | (Ok vars, s1) =>
          let url := detailed_url vars geo in
          let s2 := set_URL_HITS (URL_HITS s0 ++ [url]) s1 in
          URL_HITS (snd (pull_detailed W ind geo a x r s0)) = URL_HITS s0 ++ [url] /\
          http_log (snd (pull_detailed W ind geo a x r s0))
          = http_log (snd (fetch W url s2)) /\
          (forall e, fst (fetch W url s2) = Raise e ->
                     pull_detailed W ind geo a x r s0
                     = (Raise e, snd (fetch W url s2)))
      end) /\
  (exists reqs,
      http_log (snd (run W ui s)) = http_log s ++ reqs /\
      sublist (data_urls reqs) (URL_HITS (snd (run W ui s))) /\
      (fetch_cache s = [] ->
       NoDup (URL_HITS (snd (run W ui s))) ->
       data_urls reqs = URL_HITS (snd (run W ui s)))).
Proof.
  split; [reflexivity|]. split; [|split].
  - intros code ds geo s0 url. split; [reflexivity|].
    destruct (fetch_state W (simple_url code ds geo)
                (set_URL_HITS (URL_HITS s0 ++ [simple_url code ds geo])
                   (set_call_log (call_log s0 ++ [CallSimple code ds geo]) s0)))
      as (Hu & _).
    exact Hu.
  - intros ind geo a x r s0 g frag univ Hd.
    destruct (select_vars W g frag a x r (entered_detailed ind geo a x r s0))
      as [[vars|e] s1] eqn:Hsel.
    + now destruct (pull_detailed_after_selection W ind geo a x r s0 s1 g frag univ
                      vars Hd Hsel) as (_ & H).
    + pose proof (select_vars_same_urls W g frag a x r
                    (entered_detailed ind geo a x r s0)) as Hu.
      rewrite Hsel in Hu. split; [|exact Hu].
      now rewrite pull_detailed_steps, Hd, Hsel.
  - destruct (run_logs W ui s) as (reqs & urls & Hh & Hu & Hsub).
    exists reqs. split; [exact Hh|]. split; [now rewrite Hu|].
    intros Hempty Hnd.
    destruct (run_logs_requests W ui s) as (_ & reqs' & urls' & Hh' & Hu' & He').
    { cbn [fetch_cache set_URL_HITS]. rewrite Hempty. intros u []. }
    cbn [http_log URL_HITS set_URL_HITS] in Hh', Hu'.
    rewrite Hh in Hh'. apply app_inv_head in Hh'. subst reqs'.
    rewrite Hu'. cbn [app]. apply He', Hnd.
Qed.

Lemma url_log_of_run_witness :
  let s := rerun initial_state in
  let s' := snd (run census county_breakdown_by_age s) in
  exists reqs,
    http_log s' = http_log s ++ reqs /\
    URL_HITS s' = [ detailed_url ["S1810_C02_014E"] county_geo;
                    simple_url "S1901_C01_012E" "subject" county_geo ] /\
    data_urls reqs = URL_HITS s'.
Proof.
  intros s s'.
  destruct (url_log_of_run census county_breakdown_by_age s)
    as (_ & _ & _ & reqs & Hh & _ & Heq).
  exists reqs. split; [exact Hh|]. split; [vm_compute; reflexivity|].
  apply Heq; [reflexivity|].
  apply (bool_decide_unpack _). vm_compute. exact I.
Defined.

(** ** Every execution of the script starts cold *)

Lemma history_free_ret {A} (a : A) : history_free (ret a).
Proof. intros h s. reflexivity. Qed.

Lemma history_free_lift {A} (r : result A) : history_free (lift r).
Proof. intros h s. reflexivity. Qed.

Lemma history_free_raise {A} (e : exn) : history_free (@raise A e).
Proof. intros h s. reflexivity. Qed.

Lemma history_free_bind {A B} (m : M A) (k : A -> M B) :
  history_free m -> (forall a, history_free (k a)) -> history_free (bind m k).
Proof.
  intros Hm Hk h s. unfold bind. rewrite Hm.
  destruct (m s) as [[a|e] s1]; cbn [fst snd]; [apply Hk | reflexivity].
Qed.

Lemma history_free_modify (f : state -> state) :
  (forall h s, f (after h s) = after h (f s)) -> history_free (modify f).
Proof. intros Hf h s. unfold modify. now rewrite Hf. Qed.

Lemma history_free_log_call (c : call) : history_free (log_call c).
Proof.
  apply history_free_modify. intros h s. unfold after, set_call_log.
  cbn [URL_HITS fetch_cache labels_cache http_log call_log ui_errors].
  now rewrite app_assoc.
Qed.

Lemma history_free_st_error (msg : string) : history_free (st_error msg).
Proof.
  apply history_free_modify. intros h s. unfold after, set_ui_errors.
  cbn [URL_HITS fetch_cache labels_cache http_log call_log ui_errors].
  now rewrite app_assoc.
Qed.

Lemma history_free_URL_HITS_append (url : string) :
  history_free (URL_HITS_append url).
Proof. apply history_free_modify. reflexivity. Qed.

Section Steady.

Variable W : Collaborators.
Hypothesis Hsteady : steady W.

Lemma history_free_requests_get who url timeout :
  history_free (requests_get W who url timeout).
Proof.
  intros h s. unfold requests_get.
  rewrite (Hsteady (length (http_log (after h s))) (length (http_log s)) url).
  assert (Hs : forall req,
             set_http_log (http_log (after h s) ++ [req]) (after h s)
             = after h (set_http_log (http_log s ++ [req]) s)).
  { intros req. unfold after, set_http_log.
    cbn [URL_HITS fetch_cache labels_cache http_log call_log ui_errors].
    now rewrite app_assoc. }
  rewrite Hs. destruct (remote W (length (http_log s)) url); reflexivity.
Qed.

Ltac history_free_step lemmas :=
  first [ apply history_free_bind; [|intros ?]
        | apply history_free_lift
        | apply history_free_ret
        | apply history_free_raise
        | apply history_free_log_call
        | apply history_free_URL_HITS_append
        | apply history_free_st_error
        | apply history_free_requests_get
        | lemmas ].

Lemma history_free_fetch (url : string) : history_free (fetch W url).
Proof.
  assert (Hb : history_free (fetch_body W url))
    by (unfold fetch_body; repeat history_free_step fail).
  intros h s. unfold fetch.
  change (fetch_cache (after h s)) with (fetch_cache s).
  destruct (dict_get (fetch_cache s) url) as [df|]; [reflexivity|].
  rewrite Hb. destruct (fetch_body W url s) as [[df|e] s1]; reflexivity.
Qed.

Lemma history_free_get_labels (g : string) : history_free (get_labels W g).
Proof.
  assert (Hb : history_free (get_labels_body W g))
    by (unfold get_labels_body; repeat history_free_step fail).
  intros h s. unfold get_labels.
  change (labels_cache (after h s)) with (labels_cache s).
  destruct (labels_cache s !! g) as [labels|]; [reflexivity|].
  rewrite Hb. destruct (get_labels_body W g s) as [[labels|e] s1]; reflexivity.
Qed.

Lemma history_free_pull_indicator ui geo ind :
  history_free (pull_indicator W ui geo ind).
Proof.
  unfold pull_indicator.
  destruct (dict_has DETAILED ind && (want_age ui || want_sex ui || want_race ui)).
  - unfold pull_detailed. history_free_step fail; [history_free_step fail|].
    destruct (dict_get DETAILED ind) as [[[g frag] univ]|];
      unfold select_vars;
      repeat history_free_step
        ltac:(first [apply history_free_get_labels | apply history_free_fetch]).
  - destruct (dict_get BASE_VARS ind) as [[code ds]|];
      [unfold pull_simple|];
      repeat history_free_step ltac:(apply history_free_fetch).
Qed.

Lemma history_free_pull_all ui geo inds frames :
  history_free (pull_all W ui geo inds frames).
Proof.
  revert frames. induction inds as [|ind inds IH]; intros frames; cbn [pull_all].
  - apply history_free_ret.
  - apply history_free_bind; [apply history_free_pull_indicator | intros df; apply IH].
Qed.

Lemma history_free_run (ui : Inputs) : history_free (run W ui).
Proof.
  unfold run, st_stop. apply history_free_bind.
  - apply history_free_modify. reflexivity.
  - intros _.
    destruct (geo_clause (zcta_list ui) (geo_level ui)) as [[|c geo]|];
      repeat history_free_step ltac:(apply history_free_pull_all).
Qed.

(** An execution of the script, with whatever history behind it, is the
    first execution of a process. *)
Lemma script_as_first (ui : Inputs) (pressed : bool) (s : state) :
  script W ui pressed s
  = (fst (script W ui pressed initial_state),
     after s (snd (script W ui pressed initial_state))).
Proof.
  assert (Hbody : history_free (if pressed
                                then bind (run W ui) (fun df => ret (Some df))
                                else ret None)).
  { destruct pressed; [|apply history_free_ret].
    apply history_free_bind; [apply history_free_run | intros df; apply history_free_ret]. }
  assert (Hrerun : rerun s = after s initial_state).
  { unfold rerun, after, initial_state.
    cbn [URL_HITS fetch_cache labels_cache http_log call_log ui_errors].
    now rewrite !app_nil_r. }
  unfold script. unfold bind at 1 3 4. unfold modify.
  rewrite Hrerun. change (rerun initial_state) with initial_state.
  apply Hbody.
Qed.

End Steady.



(** ** The validation message, and a run for one base indicator *)

#[local] Instance same_errors_preorder : PreOrder same_errors.
Proof.
  split.
  - intros s. reflexivity.
  - intros s1 s2 s3 H12 H23. unfold same_errors in *. congruence.
Qed.

Lemma fetch_same_errors (W : Collaborators) (url : string) :
  preserves same_errors (fetch W url).
Proof. intros s. now destruct (fetch_state W url s) as (_ & _ & _ & H & _). Qed.

Lemma get_labels_same_errors (W : Collaborators) (g : string) :
  preserves same_errors (get_labels W g).
Proof.
  intros s. destruct (get_labels W g s) as [[labels|e] s'] eqn:H; cbn [snd].
  - apply get_labels_Ok in H as [[_ ->]|(_ & _ & ->)]; reflexivity.
  - apply get_labels_Raise in H as [_ ->]. reflexivity.
Qed.

Ltac same_errors_step :=
  preserves_step ltac:(first
    [ apply get_labels_same_errors | apply fetch_same_errors
    | apply preserves_modify; intros ?; reflexivity ]).

Lemma pull_all_same_errors (W : Collaborators) ui geo inds frames :
  preserves same_errors (pull_all W ui geo inds frames).
Proof.
  revert frames. induction inds as [|ind inds IH]; intros frames; cbn [pull_all].
  - same_errors_step.
  - same_errors_step; [|apply IH]. unfold pull_indicator.
    destruct (dict_has DETAILED ind && (want_age ui || want_sex ui || want_race ui)).
    + unfold pull_detailed, log_call, URL_HITS_append. same_errors_step;
        [same_errors_step|].
      destruct (dict_get DETAILED ind) as [[[g frag] univ]|];
        unfold select_vars; repeat same_errors_step.
    + destruct (dict_get BASE_VARS ind) as [[code ds]|];
        [unfold pull_simple, log_call, URL_HITS_append|]; repeat same_errors_step.
Qed.

(** X19: the handler shows its validation message exactly when the
    geography has no clause, and then once; in a run with a clause nothing
    is shown with [st.error], however the run ends. *)
Theorem run_validation_message (W : Collaborators) (ui : Inputs) (s : state) :
  ui_errors (snd (run W ui s))
  = match geo_clause (zcta_list ui) (geo_level ui) with
    | None => ui_errors s ++ ["Enter at least one ZCTA."]
    | Some _ => ui_errors s
    end.
Proof.
  destruct (geo_clause (zcta_list ui) (geo_level ui)) as [geo|] eqn:Hgeo.
  - destruct (geo_clause_nonempty _ _ _ Hgeo) as (c & g & ->).
    rewrite (run_with_geo W ui s c g Hgeo).
    change (ui_errors s) with (ui_errors (set_URL_HITS [] s)).
    generalize (set_URL_HITS [] s).
    apply (@id (preserves same_errors _)).
    repeat (first [apply pull_all_same_errors | same_errors_step]).
  - unfold run. rewrite Hgeo. reflexivity.
Qed.

(** X20: a run for one base indicator without breakdown, on a response
    cache that does not hold its URL: when the reply has a success status
    and the table built from it is rectangular, the run issues exactly
    that one request, logs exactly that URL, and returns the table with
    duplicate columns dropped and the base columns renamed. *)
Theorem run_single_indicator (W : Collaborators) (ui : Inputs) (s : state)
    (geo ind code ds : string) (status : nat) (j : json) (t : DataFrame) :
  geo_clause (zcta_list ui) (geo_level ui) = Some geo ->
  chosen ui = [ind] ->
  any_flag ui = false ->
  dict_get BASE_VARS ind = Some (code, ds) ->
  let url := simple_url code ds geo in
  dict_get (fetch_cache s) url = None ->
  remote W (length (http_log s)) url = Response status (Some j) ->
  Nat.leb 400 status && Nat.ltb status 600 = false ->
  pd_DataFrame W j = Ok t ->
  frame_wf t ->
  let table := drop_duplicate_columns t in
  fst (run W ui s)
    = Ok (df_rename (rename_base BASE_VARS (column_names table) []) table) /\
  URL_HITS (snd (run W ui s)) = [url] /\
  requests_since s (snd (run W ui s)) = [data_request url].
Proof.
  intros Hgeo Hchosen Hflag Hcfg url Hmiss Hreply Hstatus Hpd Hwf table.
  destruct (geo_clause_nonempty _ _ _ Hgeo) as (c & g & ->).
  assert (Hpull : pull_indicator W ui (String c g) ind
                  = pull_simple W code ds (String c g)).
  { unfold pull_indicator. unfold any_flag in Hflag.
    now rewrite Hflag, andb_false_r, Hcfg. }
  set (s0 := set_URL_HITS ([] ++ [url])
               (set_call_log (call_log (set_URL_HITS [] s)
                                ++ [CallSimple code ds (String c g)])
                  (set_URL_HITS [] s))).
  assert (Hfetch : fetch W url s0
                   = (Ok table,
                      set_fetch_cache (lru_put url table (fetch_cache s0))
                        (set_http_log (http_log s0 ++ [data_request url]) s0))).
  { unfold fetch. change (fetch_cache s0) with (fetch_cache s). rewrite Hmiss.
    rewrite fetch_body_cases. change (http_log s0) with (http_log s).
    now rewrite Hreply, Hstatus, Hpd. }
  assert (Hrun : run W ui s
                 = (Ok (df_rename (rename_base BASE_VARS (column_names table) []) table),
                    set_fetch_cache (lru_put url table (fetch_cache s0))
                      (set_http_log (http_log s0 ++ [data_request url]) s0))).
  { rewrite (run_with_geo W ui s c g Hgeo), Hchosen.
    cbn [pull_all app]. rewrite Hpull. unfold bind.
    rewrite pull_simple_steps. fold url.
    change (URL_HITS (set_URL_HITS [] s) ++ [url]) with ([] ++ [url]).
    fold s0. rewrite Hfetch. unfold lift, ret.
    rewrite assemble_one; [reflexivity | apply keep_first_NoDup |].
    now apply drop_duplicate_columns_frame_wf. }
  rewrite Hrun. cbn [fst snd]. repeat split.
  apply requests_since_app. reflexivity.
Qed.

Lemma run_single_indicator_witness :
  let ui := {| geo_level := "County (Pierce)"; zcta_list := None;
               chosen := ["Median household income ($)"];
               want_age := false; want_sex := false; want_race := false |} in
  let url := simple_url "S1901_C01_012E" "subject" county_geo in
  let table := drop_duplicate_columns
                 {| nrows := 1;
                    df_cols := [("NAME", [Some (JStr "Pierce County, Washington")]);
                                ("state", [Some (JStr "53")]);
                                ("county", [Some (JStr "053")])] |} in
  fst (run census ui initial_state)
    = Ok (df_rename (rename_base BASE_VARS (column_names table) []) table) /\
  URL_HITS (snd (run census ui initial_state)) = [url] /\
  requests_since initial_state (snd (run census ui initial_state)) = [data_request url].
Proof.
  intros ui.
  apply (run_single_indicator census ui initial_state county_geo
           "Median household income ($)" "S1901_C01_012E" "subject" 200 county_table);
    try reflexivity.
  repeat constructor.
Defined.

(** ** The order of the selected codes *)

Lemma filter_sublist_all {A} (f : A -> bool) (l : list A) :
  sublist (List.filter f l) l.
Proof.
  induction l as [|a l IH]; cbn [List.filter]; [constructor|].
  destruct (f a); [now apply sublist_skip | now apply sublist_cons].
Qed.

(** X21: unless it falls back on the default code, [select_vars]
    returns the selected codes in the order in which the metadata lists
    them, and [pull_detailed] logs, and on a miss of the response cache
    requests, the URL that names them in that order, separated by commas,
    after NAME; it issues no other request once the selector has
    returned. *)
Theorem detailed_request_in_metadata_order (W : Collaborators) (ind geo : string)
    (a x r : bool) (s s1 : state) (g frag univ : string) (labels : dict json) :
  dict_get DETAILED ind = Some (g, frag, univ) ->
  get_labels W g (entered_detailed ind geo a x r s) = (Ok labels, s1) ->
  str_labels labels = true ->
  survivors frag a x r labels <> [] ->
  exists out,
    select_vars W g frag a x r (entered_detailed ind geo a x r s) = (Ok out, s1) /\
    sublist out (dict_keys labels) /\
    let url := api_root +:+ "subject?get=NAME," +:+ String.concat "," out
                 +:+ "&" +:+ geo +:+ "&key=" +:+ API_KEY in
    URL_HITS (snd (pull_detailed W ind geo a x r s)) = URL_HITS s ++ [url] /\
    requests_since s1 (snd (pull_detailed W ind geo a x r s))
    = match dict_get (fetch_cache s) url with
      | Some _ => []
      | None => [data_request url]
      end.
Proof.
  intros Hd Hget Hstr Hsome.
  pose proof (select_vars_survivors W g frag a x r _ s1 labels Hget Hstr) as Hsel.
  destruct (survivors frag a x r labels) as [|v vs] eqn:E; [contradiction|].
  exists (v :: vs). split; [exact Hsel|]. split.
  - rewrite <- E. unfold survivors, dict_keys. apply sublist_map.
    apply filter_sublist_all.
  - destruct (pull_detailed_after_selection W ind geo a x r s s1 g frag univ
                (v :: vs) Hd Hsel) as (_ & Hu & Hh & _).
    change (api_root +:+ "subject?get=NAME," +:+ String.concat "," (v :: vs)
              +:+ "&" +:+ geo +:+ "&key=" +:+ API_KEY)
      with (detailed_url (v :: vs) geo).
    cbv zeta. split; [exact Hu|].
    set (url := detailed_url (v :: vs) geo) in *.
    set (s2 := set_URL_HITS (URL_HITS s ++ [url]) s1) in *.
    destruct (fetch_state W url s2) as (_ & _ & _ & _ & Hh2).
    assert (Hc : fetch_cache s2 = fetch_cache s).
    { apply get_labels_Ok in Hget as [[_ ->]|(_ & _ & ->)]; reflexivity. }
    rewrite Hc in Hh2. apply requests_since_app. rewrite Hh, Hh2.
    destruct (dict_get (fetch_cache s) url); [now rewrite app_nil_r | reflexivity].
Qed.

Lemma detailed_request_in_metadata_order_witness :
  let s1 := snd (get_labels census "S1810"
                   (entered_detailed "Disability (%)" county_geo true true false
                      initial_state)) in
  let url := api_root +:+ "subject?get=NAME,S1810_C02_002E,S1810_C02_014E&"
               +:+ county_geo +:+ "&key=" +:+ API_KEY in
  exists out,
    out = ["S1810_C02_002E"; "S1810_C02_014E"] /\
    select_vars census "S1810" "With a disability" true true false
      (entered_detailed "Disability (%)" county_geo true true false initial_state)
      = (Ok out, s1) /\
    sublist out (dict_keys S1810_labels) /\
    URL_HITS (snd (pull_detailed census "Disability (%)" county_geo true true false
                     initial_state)) = [url] /\
    requests_since s1 (snd (pull_detailed census "Disability (%)" county_geo
                              true true false initial_state))
    = [data_request url].
Proof.
  intros s1 url.
  destruct (detailed_request_in_metadata_order census "Disability (%)" county_geo
              true true false initial_state s1 "S1810" "With a disability"
              "civilian" S1810_labels) as (out & Hsel & Hsub & Hu & Hreq);
    [reflexivity | reflexivity | reflexivity | vm_compute; discriminate |].
  exists out.
  assert (Hout : out = ["S1810_C02_002E"; "S1810_C02_014E"]).
  { assert (H : fst (select_vars census "S1810" "With a disability" true true false
                  (entered_detailed "Disability (%)" county_geo true true false
                     initial_state)) = Ok out) by now rewrite Hsel.
    vm_compute in H. now injection H as <-. }
  split; [exact Hout|]. split; [exact Hsel|]. split; [exact Hsub|].
  subst out. split; [exact Hu | exact Hreq].
Defined.
